(** * exray: the run orchestration bridge

    A shallow embedding of [state/entries.py], [workflows/argo.py] and the
    run endpoints of [main.py], and the properties of the run registry,
    the spec templater, the log aggregator and the result resolution.

    Python values are modelled as the JSON/YAML documents the code handles:
    [None], booleans, integers, strings, lists, and dictionaries that keep
    their insertion order.  Documents are trees (no YAML alias shares a
    node).  Text is held as its UTF-8 bytes: [str.strip] removes the
    blanks of Unicode, [str.lower] is modelled on the letters of ASCII;
    floating-point numbers are outside the model.  A function that changes a document in place returns the
    changed document.  The engine, the object store and the clock are
    oracles; every call to them is recorded in a trace. *)

From Stdlib Require Import String Ascii List ZArith Bool Lia DecimalString.
From Stdlib Require Import Permutation Sorted.
Import ListNotations.
Open Scope string_scope.
Set Warnings "-register-all".

(** ** Python values *)

Inductive pyval : Type :=
| PNone
| PBool (b : bool)
| PInt (z : Z)
| PStr (s : string)
| PList (items : list pyval)
| PDict (entries : list (string * pyval)).

(** A dictionary with string keys, in insertion order. *)
Definition dict := list (string * pyval).

(** [bool(v)]: [None], [False], [0], the empty string and the empty
    containers are falsy. *)
Definition truthy (v : pyval) : bool :=
  match v with
  | PNone => false
  | PBool b => b
  | PInt z => negb (z =? 0)%Z
  | PStr s => negb (s =? "")
  | PList items => match items with [] => false | _ => true end
  | PDict entries => match entries with [] => false | _ => true end
  end.

(** [a or b] *)
Definition py_or (a b : pyval) : pyval := if truthy a then a else b.

(** [d.get(k)] on the entries of a dictionary: the first binding of [k]. *)
Fixpoint dict_get (d : dict) (k : string) : option pyval :=
  match d with
  | [] => None
  | (k', v) :: rest => if k' =? k then Some v else dict_get rest k
  end.

Definition dict_mem (d : dict) (k : string) : bool :=
  match dict_get d k with Some _ => true | None => false end.

(** [d[k] = v]: an existing key keeps its position, a new key goes last. *)
Fixpoint dict_set (d : dict) (k : string) (v : pyval) : dict :=
  match d with
  | [] => [(k, v)]
  | (k', v') :: rest =>
      if k' =? k then (k, v) :: rest else (k', v') :: dict_set rest k v
  end.

(** [d.pop(k, None)], result dropped. *)
Definition dict_pop (d : dict) (k : string) : dict :=
  filter (fun kv => negb (fst kv =? k)) d.

(** [d.update(u)] and [{**d, **u}] *)
Definition dict_update (d u : dict) : dict :=
  fold_left (fun acc kv => dict_set acc (fst kv) (snd kv)) u d.

Definition dict_keys (d : dict) : list string := map fst d.
Definition dict_values (d : dict) : list pyval := map snd d.

(** ** Text *)

Definition string_of_Z (z : Z) : string := NilZero.string_of_int (Z.to_int z).

Fixpoint join (sep : string) (parts : list string) : string :=
  match parts with
  | [] => ""
  | [p] => p
  | p :: rest => p ++ sep ++ join sep rest
  end.

Fixpoint contains_char (c : ascii) (s : string) : bool :=
  match s with
  | EmptyString => false
  | String c' rest => if Ascii.eqb c c' then true else contains_char c rest
  end.

Definition hex_digit (n : N) : ascii :=
  if (n <? 10)%N then ascii_of_N (48 + n) else ascii_of_N (87 + n).

Definition backslash : ascii := ascii_of_N 92.
Definition dquote : ascii := ascii_of_N 34.
Definition squote : ascii := ascii_of_N 39.

(** One character of [repr(s)] for the quote character [q]. *)
Definition repr_char (q c : ascii) : string :=
  let n := N_of_ascii c in
  if Ascii.eqb c q || Ascii.eqb c backslash then String backslash (String c "")
  else if (n =? 9)%N then String backslash "t"
  else if (n =? 10)%N then String backslash "n"
  else if (n =? 13)%N then String backslash "r"
  else if (n <? 32)%N || (n =? 127)%N
       then String backslash (String "x"%char
              (String (hex_digit (n / 16)) (String (hex_digit (n mod 16)) "")))
  else String c "".

Fixpoint repr_chars (q : ascii) (s : string) : string :=
  match s with
  | EmptyString => ""
  | String c rest => repr_char q c ++ repr_chars q rest
  end.

(** [repr(s)] of a string: single quotes, unless the text has a single
    quote and no double quote. *)
Definition str_repr (s : string) : string :=
  let q := if contains_char squote s && negb (contains_char dquote s)
           then dquote else squote in
  String q (repr_chars q s ++ String q "").

Fixpoint py_repr (v : pyval) : string :=
  match v with
  | PNone => "None"
  | PBool b => if b then "True" else "False"
  | PInt z => string_of_Z z
  | PStr s => str_repr s
  | PList items => "[" ++ join ", " (map py_repr items) ++ "]"
  | PDict entries =>
      "{" ++ join ", " (map (fun kv => let '(k, x) := kv in
                                        str_repr k ++ ": " ++ py_repr x) entries)
          ++ "}"
  end.

(** [str(v)], also what an f-string writes for [{v}]. *)
Definition py_str (v : pyval) : string :=
  match v with
  | PStr s => s
  | _ => py_repr v
  end.

(** Text is held as its UTF-8 bytes.  The blanks that [str.strip] removes
    are the code points for which [str.isspace] holds.  In one byte: U+0009
    to U+000D, U+001C to U+001F and the space. *)
Definition is_space (c : ascii) : bool :=
  let n := N_of_ascii c in
  ((9 <=? n) && (n <=? 13) || (28 <=? n) && (n <=? 32))%N.

(** In two bytes: U+0085 and U+00A0. *)
Definition is_space2 (c1 c2 : ascii) : bool :=
  let n1 := N_of_ascii c1 in
  let n2 := N_of_ascii c2 in
  ((n1 =? 194) && ((n2 =? 133) || (n2 =? 160)))%N.

(** In three bytes: U+1680, U+2000 to U+200A, U+2028, U+2029, U+202F,
    U+205F and U+3000. *)
Definition is_space3 (c1 c2 c3 : ascii) : bool :=
  let n1 := N_of_ascii c1 in
  let n2 := N_of_ascii c2 in
  let n3 := N_of_ascii c3 in
  ((n1 =? 225) && (n2 =? 154) && (n3 =? 128)
   || (n1 =? 226) && (n2 =? 128)
      && ((128 <=? n3) && (n3 <=? 138) || (n3 =? 168) || (n3 =? 169) || (n3 =? 175))
   || (n1 =? 226) && (n2 =? 129) && (n3 =? 159)
   || (n1 =? 227) && (n2 =? 128) && (n3 =? 128))%N.

(** Drops the blanks a text begins with; [two] and [three] tell the blanks
    of two and of three bytes. *)
Fixpoint strip_front (two : ascii -> ascii -> bool)
    (three : ascii -> ascii -> ascii -> bool) (s : string) : string :=
  match s with
  | EmptyString => ""
  | String c1 rest1 =>
      if is_space c1 then strip_front two three rest1
      else match rest1 with
           | EmptyString => s
           | String c2 rest2 =>
               if two c1 c2 then strip_front two three rest2
               else match rest2 with
                    | EmptyString => s
                    | String c3 rest3 =>
                        if three c1 c2 c3 then strip_front two three rest3 else s
                    end
           end
  end.

(** The bytes of a text from the last to the first. *)
Fixpoint reversed (s : string) : string :=
  match s with
  | EmptyString => ""
  | String c rest => reversed rest ++ String c ""
  end.

Definition lstrip (s : string) : string := strip_front is_space2 is_space3 s.

(** The blanks a text ends with are dropped from its last byte backwards. *)
Definition rstrip (s : string) : string :=
  reversed (strip_front (fun c2 c1 => is_space2 c1 c2)
                        (fun c3 c2 c1 => is_space3 c1 c2 c3) (reversed s)).

(** [s.strip()] *)
Definition strip (s : string) : string := rstrip (lstrip s).

(** The text of a list of bytes. *)
Definition text_of (bytes : list N) : string :=
  string_of_list_ascii (map ascii_of_N bytes).

Definition lower_char (c : ascii) : ascii :=
  let n := N_of_ascii c in
  if ((65 <=? n) && (n <=? 90))%N then ascii_of_N (n + 32) else c.

(** [s.lower()] *)
Fixpoint lower (s : string) : string :=
  match s with
  | EmptyString => ""
  | String c rest => String (lower_char c) (lower rest)
  end.

(** ** Exceptions and results *)

(** The exception classes the code tells apart, and every other class
    ([AttributeError], [TypeError], [KeyError], [ValueError],
    [ConnectionError], ...) by its name. *)
Inductive exn : Type :=
| HTTPException (status_code : Z) (detail : string)
| S3Error (msg : string)
| HTTPError (status_code : Z) (msg : string)
| PyError (kind : string) (msg : string).

(** [str(exc)] *)
Definition exn_str (e : exn) : string :=
  match e with
  | HTTPException c d => string_of_Z c ++ ": " ++ d
  | S3Error m | HTTPError _ m | PyError _ m => m
  end.

Inductive result (A : Type) : Type :=
| Ok (a : A)
| Raise (e : exn).
Arguments Ok {A} a.
Arguments Raise {A} e.

Definition type_name (v : pyval) : string :=
  match v with
  | PNone => "NoneType"
  | PBool _ => "bool"
  | PInt _ => "int"
  | PStr _ => "str"
  | PList _ => "list"
  | PDict _ => "dict"
  end.

Definition no_attribute (v : pyval) (attr : string) : exn :=
  PyError "AttributeError" ("'" ++ type_name v ++ "' object has no attribute '" ++ attr ++ "'").

(** [v.get(k, default)]; only dictionaries have [get]. *)
Definition py_get_default (v : pyval) (k : string) (default : pyval) : result pyval :=
  match v with
  | PDict d => Ok (match dict_get d k with Some x => x | None => default end)
  | _ => Raise (no_attribute v "get")
  end.

(** [v.get(k)] *)
Definition py_get (v : pyval) (k : string) : result pyval :=
  py_get_default v k PNone.

(** [v[k]] for a string key [k]. *)
Definition py_item (v : pyval) (k : string) : result pyval :=
  match v with
  | PDict d => match dict_get d k with
               | Some x => Ok x
               | None => Raise (PyError "KeyError" (str_repr k))
               end
  | PStr _ => Raise (PyError "TypeError" "string indices must be integers, not 'str'")
  | PList _ => Raise (PyError "TypeError" "list indices must be integers or slices, not str")
  | _ => Raise (PyError "TypeError" ("'" ++ type_name v ++ "' object is not subscriptable"))
  end.

(** [v[k] = x] for a string key [k]. *)
Definition py_setitem (v : pyval) (k : string) (x : pyval) : result pyval :=
  match v with
  | PDict d => Ok (PDict (dict_set d k x))
  | PList _ => Raise (PyError "TypeError" "list indices must be integers or slices, not str")
  | _ => Raise (PyError "TypeError"
                  ("'" ++ type_name v ++ "' object does not support item assignment"))
  end.

(** The entries of [v] where the code calls a dictionary method on it
    ([values], [items], [update]). *)
Definition as_dict (v : pyval) (method : string) : result dict :=
  match v with
  | PDict d => Ok d
  | _ => Raise (no_attribute v method)
  end.

Fixpoint chars (s : string) : list pyval :=
  match s with
  | EmptyString => []
  | String c rest => PStr (String c "") :: chars rest
  end.

(** The items a [for] loop over [v] visits. *)
Definition py_iter (v : pyval) : result (list pyval) :=
  match v with
  | PList items => Ok items
  | PDict d => Ok (map (fun kv => PStr (fst kv)) d)
  | PStr s => Ok (chars s)
  | _ => Raise (PyError "TypeError" ("'" ++ type_name v ++ "' object is not iterable"))
  end.

(** [v in d] for a dictionary [d] with string keys: a list or a dictionary
    cannot be hashed. *)
Definition py_in_dict (v : pyval) (d : dict) : result bool :=
  match v with
  | PStr k => Ok (dict_mem d k)
  | PList _ | PDict _ => Raise (PyError "TypeError" ("unhashable type: '" ++ type_name v ++ "'"))
  | _ => Ok false
  end.

(** [a == b]: [True == 1], lists compare item by item, dictionaries
    compare as maps whatever their order. *)
Fixpoint py_eq (a b : pyval) {struct a} : bool :=
  match a, b with
  | PNone, PNone => true
  | PBool x, PBool y => Bool.eqb x y
  | PBool x, PInt z | PInt z, PBool x => ((if x then 1 else 0) =? z)%Z
  | PInt x, PInt y => (x =? y)%Z
  | PStr x, PStr y => x =? y
  | PList xs, PList ys =>
      (fix items (xs ys : list pyval) : bool :=
         match xs, ys with
         | [], [] => true
         | x :: xs', y :: ys' => py_eq x y && items xs' ys'
         | _, _ => false
         end) xs ys
  | PDict d1, PDict d2 =>
      (length d1 =? length d2)%nat &&
      (fix bindings (d : list (string * pyval)) : bool :=
         match d with
         | [] => true
         | (k, x) :: d' =>
             match dict_get d2 k with
             | Some y => py_eq x y
             | None => false
             end && bindings d'
         end) d1
  | _, _ => false
  end.

Definition bind_result {A B} (r : result A) (k : A -> result B) : result B :=
  match r with
  | Ok a => k a
  | Raise e => Raise e
  end.

Notation "'let?' x ':=' r 'in' k" := (bind_result r (fun x => k))
  (at level 10, x name, r at level 100, k at level 200).
Notation "'let?' ' pat ':=' r 'in' k" :=
  (bind_result r (fun x => match x with pat => k end))
  (at level 10, pat pattern, r at level 100, k at level 200).

(** ** The outside world

    The engine's HTTP API, the object store's presigner, the clock and the
    registry file.  What the outside answers may change from one call to
    the next: each oracle is given the number of outside calls made so
    far. *)

Record response : Type := {
  status_code : Z;
  reason : string;
  url : string;
  text : string;
  json : option pyval
}.

Inductive http_outcome : Type :=
| Responded (r : response)
| NoResponse (kind msg : string).

Inductive presign_outcome : Type :=
| Presigned (url : string)
| PresignS3Error (msg : string)
| PresignError (kind msg : string).

Record env : Type := {
  http_get : nat -> string -> dict -> http_outcome;
  presigned_get_object : nat -> string -> pyval -> presign_outcome;
  utcnow : nat -> string
}.

Inductive event : Type :=
| EvGet (url : string) (params : dict)
| EvPresign (bucket : string) (object_name : pyval)
| EvSave (data : pyval).

(** The registry file ([None] while it does not exist) and the outside
    calls made so far, most recent first. *)
Record world : Type := {
  file : option pyval;
  trace : list event
}.

Definition M (A : Type) : Type := world -> result A * world.

Definition ret {A} (a : A) : M A := fun w => (Ok a, w).
Definition raise {A} (e : exn) : M A := fun w => (Raise e, w).
Definition bind {A B} (m : M A) (k : A -> M B) : M B :=
  fun w => match m w with
           | (Ok a, w') => k a w'
           | (Raise e, w') => (Raise e, w')
           end.
Definition lift {A} (r : result A) : M A := fun w => (r, w).

(** [try: m  except ... as e: handler e]; a handler that does not match
    raises [e] again.  What [m] did to the world before raising stays. *)
Definition try_except {A} (m : M A) (handler : exn -> M A) : M A :=
  fun w => match m w with
           | (Ok a, w') => (Ok a, w')
           | (Raise e, w') => handler e w'
           end.

Notation "x <- m ;; k" := (bind m (fun x => k))
  (at level 100, m at next level, right associativity).
Notation "' pat <- m ;; k" := (bind m (fun x => match x with pat => k end))
  (at level 100, pat pattern, m at next level, right associativity).
Notation "m ;;; k" := (bind m (fun _ => k))
  (at level 100, right associativity).

Definition is_get (e : event) : bool :=
  match e with EvGet _ _ => true | _ => false end.
Definition is_presign (e : event) : bool :=
  match e with EvPresign _ _ => true | _ => false end.
Definition is_save (e : event) : bool :=
  match e with EvSave _ => true | _ => false end.

(** The calls a computation adds to the trace of [w]. *)
Definition new_events (w w' : world) : list event :=
  firstn (length (trace w') - length (trace w)) (trace w').

(** ** state/entries.py: the run registry *)

Module entries.

Definition _now (E : env) : M string :=
  fun w => (Ok (utcnow E (length (trace w))), w).

Definition load_json : M pyval :=
  fun w => (Ok (match file w with Some data => data | None => PDict [] end), w).

Definition save_json (data : pyval) : M unit :=
  fun w => (Ok tt, {| file := Some data; trace := EvSave data :: trace w |}).

(** [record.get(k)] on the entries of a record. *)
Definition record_get (record : dict) (k : string) : pyval :=
  match dict_get record k with Some x => x | None => PNone end.

(** The body of the loop of [_normalize_runs] up to its last line: the
    key and the record that are stored for one item of [runs]. *)
Definition normalize_record (key : string) (value : pyval) : string * pyval :=
  let record := match value with
                | PDict d => d
                | _ => [("value", value)]
                end in
  let run_id := py_or (py_or (record_get record "run_id") (record_get record "runID"))
                      (PStr key) in
  let record := dict_set record "run_id" (PStr (py_str run_id)) in
  let record := dict_pop record "runID" in
  (py_str run_id, PDict record).

(** One turn of the loop: [normalized[record["run_id"]] = record]. *)
Definition normalize_entry (normalized : dict) (item : string * pyval) : dict :=
  let '(run_id, record) := normalize_record (fst item) (snd item) in
  dict_set normalized run_id record.

Definition _normalize_runs (runs : dict) : dict :=
  fold_left normalize_entry runs [].

Definition _load_state : M pyval :=
  data <- load_json ;;
  runs <- lift (py_get data "runs") ;;
  let runs := match runs with PDict r => r | _ => [] end in
  lift (py_setitem data "runs" (PDict (_normalize_runs runs))).

(** The record, changed in place or not, and the returned flag. *)
Definition _backfill_result_object (run : pyval) : result (pyval * bool) :=
  let? result_object := py_get run "result_object" in
  let? skip := (if truthy result_object then Ok true
                else let? parameters := py_get run "parameters" in
                     Ok (negb (truthy parameters))) in
  if skip then Ok (run, false)
  else
    let? input_name := py_get run "input_file_name" in
    let? workflow := py_get run "workflow" in
    if py_eq workflow (PStr "llm") && truthy input_name then
      let? run := py_setitem run "result_object"
                    (PStr ("output/" ++ py_str input_name)) in
      Ok (run, true)
    else if py_eq workflow (PStr "ctgan") && truthy input_name then
      let? run := py_setitem run "result_object"
                    (PStr ("output/" ++ py_str input_name)) in
      Ok (run, true)
    else Ok (run, false).

(** The loop of [list_runs]: every record of the state is backfilled in
    place; [dirty] tells whether one of them changed. *)
Fixpoint backfill_each (runs : dict) : result (dict * bool) :=
  match runs with
  | [] => Ok ([], false)
  | (key, run) :: rest =>
      let? '(run, changed) := _backfill_result_object run in
      let? '(rest, dirty) := backfill_each rest in
      Ok ((key, run) :: rest, changed || dirty)
  end.

Definition list_runs : M (list pyval) :=
  state <- _load_state ;;
  runs <- lift (let? r := py_item state "runs" in as_dict r "values") ;;
  '(runs, dirty) <- lift (backfill_each runs) ;;
  state <- lift (py_setitem state "runs" (PDict runs)) ;;
  (if dirty then save_json state else ret tt) ;;;
  ret (dict_values runs).

(** [state["runs"][run_id] = run], also the view of the state after the
    record at [run_id] was changed in place. *)
Definition set_run (state : pyval) (run_id : string) (run : pyval) : result pyval :=
  let? runs := py_item state "runs" in
  let? runs := py_setitem runs run_id run in
  py_setitem state "runs" runs.

Definition get_run (run_id : string) : M pyval :=
  state <- _load_state ;;
  runs <- lift (py_item state "runs") ;;
  run <- lift (py_get runs run_id) ;;
  if truthy run then
    '(run, changed) <- lift (_backfill_result_object run) ;;
    (if changed then state <- lift (set_run state run_id run) ;; save_json state
     else ret tt) ;;;
    ret run
  else ret run.

Definition create_run_entry (E : env) (run_id : string) (record : dict) : M pyval :=
  state <- _load_state ;;
  runs <- lift (let? r := py_item state "runs" in as_dict r "__contains__") ;;
  if dict_mem runs run_id then
    raise (PyError "ValueError" ("Run " ++ run_id ++ " already exists"))
  else
    now <- _now E ;;
    let stored := dict_update record [("run_id", PStr run_id);
                                      ("created_at", PStr now);
                                      ("updated_at", PStr now)] in
    state <- lift (set_run state run_id (PDict stored)) ;;
    save_json state ;;;
    ret (PDict stored).

Definition update_run_entry (E : env) (run_id : pyval) (updates : dict) : M pyval :=
  state <- _load_state ;;
  runs <- lift (let? r := py_item state "runs" in as_dict r "__contains__") ;;
  present <- lift (py_in_dict run_id runs) ;;
  if negb present then ret PNone
  else
    (* a key of the registry is a string: [run_id] is [PStr key] here *)
    let key := py_str run_id in
    run <- lift (let? r := py_item (PDict runs) key in as_dict r "update") ;;
    let run := dict_update run updates in
    now <- _now E ;;
    let run := dict_set run "updated_at" (PStr now) in
    '(run, _) <- lift (_backfill_result_object (PDict run)) ;;
    state <- lift (set_run state key run) ;;
    save_json state ;;;
    ret run.

End entries.

(** [v.setdefault(k, default)], the changed [v]; only dictionaries have
    [setdefault]. *)
Definition py_setdefault (v : pyval) (k : string) (default : pyval) : result pyval :=
  match v with
  | PDict d => Ok (PDict (match dict_get d k with
                          | Some _ => d
                          | None => dict_set d k default
                          end))
  | _ => Raise (no_attribute v "setdefault")
  end.

(** [v.strip()]; only strings have [strip]. *)
Definition py_strip (v : pyval) : result string :=
  match v with
  | PStr s => Ok (strip s)
  | _ => Raise (no_attribute v "strip")
  end.

(** ** workflows/argo.py: the engine client, the templater and the logs *)

Module argo.

Definition ARGO_SERVER_URL : string := "https://localhost:2746/api/v1/workflows/argo".
Definition MINIO_BUCKET : string := "inputs".

Definition newline : string := String (ascii_of_N 10) "".

Fixpoint map_result {A B} (f : A -> result B) (l : list A) : result (list B) :=
  match l with
  | [] => Ok []
  | a :: rest =>
      let? b := f a in
      let? bs := map_result f rest in
      Ok (b :: bs)
  end.

(** *** create_run, lines 43-51: the parameters written into the spec *)

(** The body of the inner loop, for one declared parameter. *)
Definition fill_param (parameters : dict) (param : pyval) : result pyval :=
  let? name := py_get param "name" in
  let? present := py_in_dict name parameters in
  match (if present then dict_get parameters (py_str name) else None) with
  | Some PNone | None => Ok param
  | Some value => py_setitem param "value" (PStr (py_str value))
  end.

(** The body of the outer loop, for one template: its declared
    parameters are changed in place. *)
Definition fill_template (parameters : dict) (template : pyval) : result pyval :=
  let? inputs := py_get_default template "inputs" (PDict []) in
  let? declared := py_get_default inputs "parameters" (PList []) in
  let? items := py_iter declared in
  let? items := map_result (fill_param parameters) items in
  match declared with
  | PList (_ :: _) =>
      let? inputs := py_setitem inputs "parameters" (PList items) in
      py_setitem template "inputs" inputs
  | _ => Ok template
  end.

Definition fill_parameters (parameters : option dict) (workflow_spec : pyval)
  : result pyval :=
  let parameters := match parameters with Some p => p | None => [] end in
  match parameters with
  | [] => Ok workflow_spec
  | _ :: _ =>
      let? spec := py_item workflow_spec "spec" in
      let? templates := py_item spec "templates" in
      let? items := py_iter templates in
      let? items := map_result (fill_template parameters) items in
      match templates with
      | PList (_ :: _) =>
          let? spec := py_setitem spec "templates" (PList items) in
          py_setitem workflow_spec "spec" spec
      | _ => Ok workflow_spec
      end
  end.

(** *** The engine's HTTP API *)

(** [requests.get(url, params=params, ...)] *)
Definition requests_get (E : env) (url : string) (params : dict) : M response :=
  fun w =>
    let w' := {| file := file w; trace := EvGet url params :: trace w |} in
    match http_get E (length (trace w)) url params with
    | Responded r => (Ok r, w')
    | NoResponse kind msg => (Raise (PyError kind msg), w')
    end.

(** [Response.ok], which is also the truth value of a response. *)
Definition response_ok (code : Z) : bool :=
  negb ((400 <=? code)%Z && (code <? 600)%Z).

Definition raise_for_status (r : response) : result unit :=
  if response_ok (status_code r) then Ok tt
  else Raise (HTTPError (status_code r)
                (string_of_Z (status_code r)
                 ++ (if (status_code r <? 500)%Z then " Client Error: "
                     else " Server Error: ")
                 ++ reason r ++ " for url: " ++ url r)).

Definition response_json (r : response) : result pyval :=
  match json r with
  | Some v => Ok v
  | None => Raise (PyError "JSONDecodeError" "Expecting value: line 1 column 1 (char 0)")
  end.

Definition get_workflow (E : env) (argo_workflow_name : pyval) : M pyval :=
  response <- requests_get E (ARGO_SERVER_URL ++ "/" ++ py_str argo_workflow_name) [] ;;
  if (status_code response =? 404)%Z then ret PNone
  else
    lift (raise_for_status response) ;;;
    lift (response_json response).

Definition get_workflow_status (E : env) (argo_workflow_name : pyval) : M pyval :=
  workflow <- get_workflow E argo_workflow_name ;;
  if negb (truthy workflow) then ret PNone
  else
    lift (let? status := py_get_default workflow "status" (PDict []) in
          let? phase := py_get status "phase" in
          let? startedAt := py_get status "startedAt" in
          let? finishedAt := py_get status "finishedAt" in
          let? progress := py_get status "progress" in
          let? message := py_get status "message" in
          Ok (PDict [("phase", phase); ("startedAt", startedAt);
                     ("finishedAt", finishedAt); ("progress", progress);
                     ("message", message)])).

Definition get_output_artifacts (E : env) (argo_workflow_name : pyval) : M pyval :=
  workflow <- get_workflow E argo_workflow_name ;;
  if negb (truthy workflow) then ret (PList [])
  else
    lift (let? status := py_get_default workflow "status" (PDict []) in
          let? outputs := py_get_default status "outputs" (PDict []) in
          py_get_default outputs "artifacts" (PList [])).

(** *** Logs *)

(** The loop of [_fetch_logs_from_argo] over the container names. *)
Fixpoint fetch_containers (E : env) (url : string) (params : dict)
    (container_list : list string) (last_error : option exn) : M string :=
  match container_list with
  | [] => match last_error with
          | Some e => raise e
          | None => ret ""
          end
  | container :: rest =>
      let params := dict_set params "logOptions.container" (PStr container) in
      try_except
        (response <- requests_get E url params ;;
         lift (raise_for_status response) ;;;
         ret (text response))
        (fun exc => fetch_containers E url params rest (Some exc))
  end.

(** The query parameters before the loop. *)
Definition log_params (tail_lines pod_name : pyval) : dict :=
  let params := [] in
  let params := if truthy tail_lines
                then dict_set params "logOptions.tailLines" (PStr (py_str tail_lines))
                else params in
  if truthy pod_name then dict_set params "podName" pod_name else params.

Definition log_url (argo_workflow_name : pyval) : string :=
  ARGO_SERVER_URL ++ "/" ++ py_str argo_workflow_name ++ "/log".

(** [containers] is [[]] where the caller passes none. *)
Definition _fetch_logs_from_argo (E : env) (argo_workflow_name tail_lines pod_name : pyval)
    (containers : list string) : M string :=
  let container_list := match containers with [] => ["main"] | _ => containers end in
  fetch_containers E (log_url argo_workflow_name) (log_params tail_lines pod_name)
                   container_list None.

(** [a < b], as [list.sort] asks it of two keys. *)
Fixpoint py_lt (a b : pyval) {struct a} : result bool :=
  match a, b with
  | PStr x, PStr y => Ok (String.ltb x y)
  | PInt x, PInt y => Ok (x <? y)%Z
  | PBool x, PInt y => Ok ((if x then 1 else 0) <? y)%Z
  | PInt x, PBool y => Ok (x <? (if y then 1 else 0))%Z
  | PBool x, PBool y => Ok (negb x && y)
  | PList xs, PList ys =>
      (fix items (xs ys : list pyval) : result bool :=
         match xs, ys with
         | [], [] => Ok false
         | [], _ :: _ => Ok true
         | _ :: _, [] => Ok false
         | x :: xs', y :: ys' => if py_eq x y then items xs' ys' else py_lt x y
         end) xs ys
  | _, _ => Raise (PyError "TypeError"
                     ("'<' not supported between instances of '" ++ type_name a
                      ++ "' and '" ++ type_name b ++ "'"))
  end.

(** An entry of [pod_entries]: (start_time, display_name, pod_name, phase). *)
Definition pod_entry : Type := pyval * pyval * pyval * pyval.

Definition start_time (e : pod_entry) : pyval :=
  let '(t, _, _, _) := e in t.

(** [pod_entries.sort(key=lambda item: item[0])]: a stable sort that
    compares keys with [<] only. *)
Fixpoint insert_entry (x : pod_entry) (sorted : list pod_entry)
  : result (list pod_entry) :=
  match sorted with
  | [] => Ok [x]
  | y :: rest =>
      let? before := py_lt (start_time y) (start_time x) in
      if before then let? rest := insert_entry x rest in Ok (y :: rest)
      else Ok (x :: y :: rest)
  end.

Fixpoint sort_entries (l : list pod_entry) : result (list pod_entry) :=
  match l with
  | [] => Ok []
  | x :: rest => let? sorted := sort_entries rest in insert_entry x sorted
  end.

(** The loop of [_extract_pod_nodes] over [nodes.values()]. *)
Fixpoint collect_pod_entries (nodes : list pyval) : result (list pod_entry) :=
  match nodes with
  | [] => Ok []
  | node :: rest =>
      let? pod_name := py_get node "podName" in
      if negb (truthy pod_name) then collect_pod_entries rest
      else
        let? displayName := py_get node "displayName" in
        let? name := py_get node "name" in
        let display_name := py_or (py_or displayName name) pod_name in
        let? phase := py_get_default node "phase" (PStr "Unknown") in
        let? startedAt := py_get node "startedAt" in
        let start_time := py_or startedAt (PStr "") in
        let? entries := collect_pod_entries rest in
        Ok ((start_time, display_name, pod_name, phase) :: entries)
  end.

Definition _extract_pod_nodes (workflow : pyval)
  : result (list (pyval * pyval * pyval)) :=
  let? status := py_get_default workflow "status" (PDict []) in
  let? nodes := py_get_default status "nodes" (PDict []) in
  let nodes := py_or nodes (PDict []) in
  let? nodes := as_dict nodes "values" in
  let? pod_entries := collect_pod_entries (dict_values nodes) in
  let? pod_entries := sort_entries pod_entries in
  Ok (map (fun entry : pod_entry => let '(_, d, p, ph) := entry in (d, p, ph))
          pod_entries).

Definition NO_LOG_OUTPUT : string := "(no log output yet)".

(** [body = log_text.strip() or "(no log output yet)"] *)
Definition log_body (log_text : string) : string :=
  if strip log_text =? "" then NO_LOG_OUTPUT else strip log_text.

(** The two [except] clauses of the loop of [get_workflow_logs]: the body
    of a pod whose logs could not be fetched.  [exc.response] is a
    [requests.Response], which is true exactly when it is [ok]. *)
Definition failure_body (pod_name : pyval) (exc : exn) : string :=
  match exc with
  | HTTPError code _ =>
      let status := if response_ok code then string_of_Z code else "unknown" in
      "Failed to fetch logs for pod " ++ py_str pod_name
      ++ " (HTTP " ++ status ++ ")."
  | _ =>
      "Failed to fetch logs for pod " ++ py_str pod_name ++ ": " ++ exn_str exc
  end.

(** The [try] block of the loop of [get_workflow_logs] with its [except]
    clauses: the body of one pod's section. *)
Definition pod_body (E : env) (argo_workflow_name tail_lines pod_name : pyval)
  : M string :=
  try_except
    (log_text <- _fetch_logs_from_argo E argo_workflow_name tail_lines pod_name [] ;;
     log_text <- (if strip log_text =? ""
                  then _fetch_logs_from_argo E argo_workflow_name tail_lines pod_name
                         ["wait"; "main"]
                  else ret log_text) ;;
     ret (log_body log_text))
    (fun exc => ret (failure_body pod_name exc)).

Definition section_header (display_name pod_name phase : pyval) : string :=
  "=== " ++ py_str display_name ++ " [" ++ py_str pod_name ++ "] (phase: "
  ++ py_str phase ++ ") ===".

(** The loop of [get_workflow_logs] over the pod nodes. *)
Fixpoint pod_sections (E : env) (argo_workflow_name tail_lines : pyval)
    (pod_nodes : list (pyval * pyval * pyval)) : M (list string) :=
  match pod_nodes with
  | [] => ret []
  | (display_name, pod_name, phase) :: rest =>
      body <- pod_body E argo_workflow_name tail_lines pod_name ;;
      let header := section_header display_name pod_name phase in
      sections <- pod_sections E argo_workflow_name tail_lines rest ;;
      ret ((header ++ newline ++ body) :: sections)
  end.

Definition get_workflow_logs (E : env) (argo_workflow_name tail_lines : pyval)
  : M string :=
  workflow <- get_workflow E argo_workflow_name ;;
  if negb (truthy workflow) then
    raise (PyError "ValueError"
             ("Workflow " ++ py_str argo_workflow_name ++ " not found"))
  else
    pod_nodes <- lift (_extract_pod_nodes workflow) ;;
    match pod_nodes with
    | [] => _fetch_logs_from_argo E argo_workflow_name tail_lines PNone []
    | _ :: _ =>
        sections <- pod_sections E argo_workflow_name tail_lines pod_nodes ;;
        aggregated <- try_except
                        (aggregated <- _fetch_logs_from_argo E argo_workflow_name
                                         tail_lines PNone [] ;;
                         ret (if strip aggregated =? "" then []
                              else ["=== Aggregated workflow logs ===" ++ newline
                                    ++ strip aggregated]))
                        (fun _ => ret []) ;;
        ret (join (newline ++ newline) (sections ++ aggregated))
    end.

(** *** create_run, lines 60-79: the bucket of the outputs and the limits *)

(** [for template in workflow_spec["spec"]["templates"]: body], the
    templates changed in place. *)
Definition for_each_template (body : pyval -> result pyval) (workflow_spec : pyval)
  : result pyval :=
  let? spec := py_item workflow_spec "spec" in
  let? templates := py_item spec "templates" in
  let? items := py_iter templates in
  let? items := map_result body items in
  match templates with
  | PList (_ :: _) =>
      let? spec := py_setitem spec "templates" (PList items) in
      py_setitem workflow_spec "spec" spec
  | _ => Ok workflow_spec
  end.

(** The body of the inner loop of lines 60-64, for one output artifact. *)
Definition force_artifact_bucket (artifact : pyval) : result pyval :=
  let? artifact := py_setdefault artifact "s3" (PDict []) in
  let? s3 := py_item artifact "s3" in
  let? s3 := py_setitem s3 "bucket" (PStr MINIO_BUCKET) in
  py_setitem artifact "s3" s3.

Definition force_template_buckets (template : pyval) : result pyval :=
  let? outputs := py_get_default template "outputs" (PDict []) in
  let? artifacts := py_get_default outputs "artifacts" (PList []) in
  let? items := py_iter artifacts in
  let? items := map_result force_artifact_bucket items in
  match artifacts with
  | PList (_ :: _) =>
      let? outputs := py_setitem outputs "artifacts" (PList items) in
      py_setitem template "outputs" outputs
  | _ => Ok template
  end.

Definition force_buckets (workflow_spec : pyval) : result pyval :=
  for_each_template force_template_buckets workflow_spec.

(** [if limit: limits[key] = str(limit); requests_res[key] = str(limit)] *)
Definition set_limit (key : string) (limit : pyval) (limits requests_res : pyval)
  : result (pyval * pyval) :=
  if truthy limit then
    let? limits := py_setitem limits key (PStr (py_str limit)) in
    let? requests_res := py_setitem requests_res key (PStr (py_str limit)) in
    Ok (limits, requests_res)
  else Ok (limits, requests_res).

(** The body of the loop of lines 67-79, for one template. *)
Definition limit_template (cpu_limit memory_limit : pyval) (template : pyval)
  : result pyval :=
  let? container := py_get template "container" in
  if negb (truthy container) then Ok template
  else
    let? container := py_setdefault container "resources"
                        (PDict [("limits", PDict []); ("requests", PDict [])]) in
    let? resources := py_item container "resources" in
    let? resources := py_setdefault resources "limits" (PDict []) in
    let? limits := py_item resources "limits" in
    let? resources := py_setdefault resources "requests" (PDict []) in
    let? requests_res := py_item resources "requests" in
    let? '(limits, requests_res) := set_limit "cpu" cpu_limit limits requests_res in
    let? '(limits, requests_res) := set_limit "memory" memory_limit limits requests_res in
    let? resources := py_setitem resources "limits" limits in
    let? resources := py_setitem resources "requests" requests_res in
    let? container := py_setitem container "resources" resources in
    py_setitem template "container" container.

Definition apply_limits (cpu_limit memory_limit : pyval) (workflow_spec : pyval)
  : result pyval :=
  if truthy cpu_limit || truthy memory_limit
  then for_each_template (limit_template cpu_limit memory_limit) workflow_spec
  else Ok workflow_spec.

End argo.

(** ** main.py: the run endpoints *)

Module main.

(** [v.lower()]; only strings have [lower]. *)
Definition py_lower (v : pyval) : result string :=
  match v with
  | PStr s => Ok (lower s)
  | _ => Raise (no_attribute v "lower")
  end.

Definition in_set (s : string) (set : list string) : bool :=
  existsb (String.eqb s) set.

Definition terminal_phases : list string :=
  ["succeeded"; "failed"; "error"; "skipped"].

(** The body of the loop of [list_runs]: what is appended to [refreshed]. *)
Definition refresh_run (E : env) (run : pyval) : M pyval :=
  argo_name <- lift (py_get run "argo_name") ;;
  if negb (truthy argo_name) then ret run
  else
    current_phase <- lift (let? status := py_get_default run "status" (PDict []) in
                           let? phase := py_get status "phase" in
                           py_lower (py_or phase (PStr ""))) ;;
    if in_set current_phase terminal_phases then ret run
    else
      status <- try_except (status <- argo.get_workflow_status E argo_name ;;
                            ret (Some status))
                           (fun _ => ret None) ;;
      match status with
      | None => ret run
      | Some status =>
          if negb (truthy status) then ret run
          else
            run_id <- lift (py_item run "run_id") ;;
            updated <- entries.update_run_entry E run_id [("status", status)] ;;
            ret (py_or updated run)
      end.

Fixpoint refresh_runs (E : env) (runs : list pyval) : M (list pyval) :=
  match runs with
  | [] => ret []
  | run :: rest =>
      r <- refresh_run E run ;;
      refreshed <- refresh_runs E rest ;;
      ret (r :: refreshed)
  end.

Definition list_runs (E : env) (refresh : bool) : M pyval :=
  runs <- entries.list_runs ;;
  if negb refresh then ret (PDict [("runs", PList runs)])
  else
    refreshed <- refresh_runs E runs ;;
    ret (PDict [("runs", PList refreshed)]).

Definition get_run (E : env) (run_id : string) (refresh : bool) : M pyval :=
  run <- entries.get_run run_id ;;
  if negb (truthy run) then raise (HTTPException 404 "Run not found")
  else if negb refresh then ret run
  else
    argo_name <- lift (py_get run "argo_name") ;;
    if negb (truthy argo_name) then ret run
    else
      status <- try_except (status <- argo.get_workflow_status E argo_name ;;
                            ret (Some status))
                           (fun _ => ret None) ;;
      match status with
      | None => ret run
      | Some status =>
          if negb (truthy status) then ret run
          else
            updated <- entries.update_run_entry E (PStr run_id) [("status", status)] ;;
            ret (py_or updated run)
      end.

(** The loop of [_extract_result_key_from_artifacts]. *)
Fixpoint first_s3_key (artifacts : list pyval) : result pyval :=
  match artifacts with
  | [] => Ok PNone
  | artifact :: rest =>
      let? s3_meta := py_get artifact "s3" in
      match s3_meta with
      | PDict meta =>
          let key := entries.record_get meta "key" in
          if truthy key then Ok key else first_s3_key rest
      | _ => first_s3_key rest
      end
  end.

Definition _extract_result_key_from_artifacts (artifacts : pyval) : result pyval :=
  let? items := py_iter artifacts in
  first_s3_key items.

(** [argo.generate_presigned_url], a call to the object store. *)
Definition generate_presigned_url (E : env) (object_name : pyval) : M string :=
  fun w =>
    let w' := {| file := file w;
                 trace := EvPresign argo.MINIO_BUCKET object_name :: trace w |} in
    match presigned_get_object E (length (trace w)) argo.MINIO_BUCKET object_name with
    | Presigned url => (Ok url, w')
    | PresignS3Error msg => (Raise (S3Error msg), w')
    | PresignError kind msg => (Raise (PyError kind msg), w')
    end.

Definition RUN_NOT_COMPLETE : exn := HTTPException 409 "Run is not complete yet".
Definition RESULT_LOCATION_UNKNOWN : exn := HTTPException 404 "Result location unknown".
Definition RESULT_NOT_AVAILABLE : exn := HTTPException 404 "Result not available".

Definition complete_phases : list string := ["succeeded"; "skipped"; "completed"].

(** [get_run_result], lines 425-437: the status is refreshed and a run
    that is not complete is refused. *)
Definition check_complete (E : env) (run_id : string) (argo_name : pyval) : M unit :=
  if truthy argo_name then
    try_except
      (status <- argo.get_workflow_status E argo_name ;;
       if truthy status then
         entries.update_run_entry E (PStr run_id) [("status", status)] ;;;
         phase <- lift (let? phase := py_get status "phase" in
                        py_lower (py_or phase (PStr ""))) ;;
         if negb (phase =? "") && negb (in_set phase complete_phases)
         then raise RUN_NOT_COMPLETE
         else ret tt
       else ret tt)
      (fun exc => match exc with
                  | HTTPException _ _ => raise exc
                  | _ => ret tt
                  end)
  else ret tt.

(** [get_run_result], lines 439-447: the result key of the record, or the
    one the workflow's output artifacts give. *)
Definition resolve_object_name (E : env) (run_id : string) (run argo_name : pyval)
  : M pyval :=
  object_name <- lift (py_get run "result_object") ;;
  object_name <-
    (if negb (truthy object_name) && truthy argo_name then
       artifacts <- argo.get_output_artifacts E argo_name ;;
       object_name <- lift (_extract_result_key_from_artifacts artifacts) ;;
       (if truthy object_name
        then entries.update_run_entry E (PStr run_id) [("result_object", object_name)] ;;;
             ret tt
        else ret tt) ;;;
       ret object_name
     else ret object_name) ;;
  if negb (truthy object_name) then raise RESULT_LOCATION_UNKNOWN
  else ret object_name.

Definition download (run_id url : string) : pyval :=
  PDict [("run_id", PStr run_id); ("download_url", PStr url)].

(** [get_run_result], lines 449-464: the presigned URL, with one retry on
    the key of the workflow's output artifacts. *)
Definition presign_or_fallback (E : env) (run_id : string)
    (argo_name object_name : pyval) : M pyval :=
  try_except
    (url <- generate_presigned_url E object_name ;;
     ret (download run_id url))
    (fun exc =>
       match exc with
       | S3Error _ =>
           retried <-
             (if truthy argo_name then
                artifacts <- argo.get_output_artifacts E argo_name ;;
                fallback_key <- lift (_extract_result_key_from_artifacts artifacts) ;;
                if truthy fallback_key && negb (py_eq fallback_key object_name) then
                  entries.update_run_entry E (PStr run_id)
                    [("result_object", fallback_key)] ;;;
                  url <- try_except
                           (generate_presigned_url E fallback_key)
                           (fun second_exc =>
                              match second_exc with
                              | S3Error _ => raise RESULT_NOT_AVAILABLE
                              | _ => raise second_exc
                              end) ;;
                  ret (Some (download run_id url))
                else ret None
              else ret None) ;;
           match retried with
           | Some answer => ret answer
           | None => raise RESULT_NOT_AVAILABLE
           end
       | _ => raise exc
       end).

Definition get_run_result (E : env) (run_id : string) : M pyval :=
  run <- entries.get_run run_id ;;
  if negb (truthy run) then raise (HTTPException 404 "Run not found")
  else
    argo_name <- lift (py_get run "argo_name") ;;
    check_complete E run_id argo_name ;;;
    object_name <- resolve_object_name E run_id run argo_name ;;
    presign_or_fallback E run_id argo_name object_name.

(** *** _sanitize_filename *)

Fixpoint split_on (sep : ascii) (s : string) : list string :=
  match s with
  | EmptyString => [""]
  | String c rest =>
      if Ascii.eqb c sep then "" :: split_on sep rest
      else match split_on sep rest with
           | part :: parts => String c part :: parts
           | [] => [String c ""]
           end
  end.

(** [Path(path).name] on a POSIX system: the last component of the path
    that is neither empty nor a single dot, the empty string if there is
    none. *)
Definition path_name (path : string) : string :=
  last (filter (fun part => negb (part =? "") && negb (part =? "."))
               (split_on "/"%char path)) "".

(** [s.replace(old, new)] for two characters. *)
Fixpoint replace_char (old new : ascii) (s : string) : string :=
  match s with
  | EmptyString => ""
  | String c rest =>
      String (if Ascii.eqb c old then new else c) (replace_char old new rest)
  end.

Definition _sanitize_filename (filename : option string) : string :=
  let filename := match filename with
                  | Some name => if name =? "" then "dataset.csv" else name
                  | None => "dataset.csv"
                  end in
  let safe_name := path_name filename in
  let safe_name := replace_char " "%char "_"%char safe_name in
  if safe_name =? "" then "dataset.csv" else safe_name.

(** *** _initial_status and get_run_logs *)

Definition _initial_status (E : env) (argo_name : pyval) : M pyval :=
  if negb (truthy argo_name) then ret (PDict [("phase", PStr "Pending")])
  else
    try_except
      (status <- argo.get_workflow_status E argo_name ;;
       if truthy status then ret status
       else ret (PDict [("phase", PStr "Submitted")]))
      (fun _ => ret (PDict [("phase", PStr "Submitted")])).

Definition get_run_logs (E : env) (run_id : string) (tail : Z) : M string :=
  let tail := if (tail <=? 0)%Z then 200%Z else tail in
  run <- entries.get_run run_id ;;
  if negb (truthy run) then raise (HTTPException 404 "Run not found")
  else
    argo_name <- lift (py_get run "argo_name") ;;
    if negb (truthy argo_name)
    then raise (HTTPException 404 "Argo workflow not recorded for this run")
    else
      try_except
        (argo.get_workflow_logs E argo_name (PInt tail))
        (fun exc =>
           match exc with
           | HTTPError code _ =>
               let status_code := if argo.response_ok code then code else 502%Z in
               raise (HTTPException status_code "Failed to fetch logs")
           | _ => raise (HTTPException 502 "Failed to fetch logs")
           end).

End main.

(** ** cluster.py: the nodes of the cluster *)

Module cluster.

Definition node (ip role : string) : dict := [("ip", PStr ip); ("role", PStr role)].

(** The first loop of [ensure_roles]: [seen] holds the addresses kept so
    far. *)
Fixpoint filter_nodes (nodes : list pyval) (seen : list string) : result (list dict) :=
  match nodes with
  | [] => Ok []
  | entry :: rest =>
      let? ip := (let? ip := py_get_default entry "ip" (PStr "") in py_strip ip) in
      if (ip =? "") || existsb (String.eqb ip) seen then filter_nodes rest seen
      else
        let? role := (let? role := py_get_default entry "role" (PStr "worker") in
                      let? role := py_strip role in
                      Ok (lower role)) in
        let role := if existsb (String.eqb role) ["master"; "worker"]
                    then role else "worker" in
        let? filtered := filter_nodes rest (ip :: seen) in
        Ok (node ip role :: filtered)
  end.

(** The end of [ensure_roles]: the first node is the master. *)
Definition assign_roles (filtered : list dict) : list dict :=
  match filtered with
  | [] => []
  | first :: rest =>
      dict_set first "role" (PStr "master")
      :: map (fun entry => dict_set entry "role" (PStr "worker")) rest
  end.

Definition ensure_roles (nodes : list pyval) : result (list dict) :=
  let? filtered := filter_nodes nodes [] in
  Ok (assign_roles filtered).

Definition cluster_from_ips (ips : list string) : result (list dict) :=
  let nodes := map (fun ip => PDict (node (strip ip) "worker"))
                   (filter (fun ip => negb (strip ip =? "")) ips) in
  ensure_roles nodes.

(** The loop of [load_cluster_state] over the entries of the file. *)
Fixpoint parse_entries (entries : list pyval) : list pyval :=
  match entries with
  | [] => []
  | entry :: rest =>
      match entry with
      | PStr text =>
          let ip := strip text in
          if ip =? "" then parse_entries rest
          else PDict (node ip "worker") :: parse_entries rest
      | PDict fields =>
          let ip_value :=
            strip (py_str (match dict_get fields "ip" with
                           | Some x => x | None => PStr "" end)) in
          if ip_value =? "" then parse_entries rest
          else
            let role_value :=
              lower (strip (py_str (match dict_get fields "role" with
                                    | Some x => x | None => PStr "worker" end))) in
            PDict (node ip_value role_value) :: parse_entries rest
      | _ => parse_entries rest
      end
  end.

(** [load_cluster_state] after the file was read: [data] is the document
    of [cluster.json]. *)
Definition parse_cluster_state (data : pyval) : result (list dict) :=
  let nodes := match data with
               | PDict d => match dict_get d "nodes" with
                            | Some x => x | None => PList [] end
               | _ => PList []
               end in
  let? entries := py_iter nodes in
  ensure_roles (parse_entries entries).

End cluster.

(** ** What the properties speak of *)

(** The registry file can be read: it is absent or holds a JSON object. *)
Definition readable (w : world) : bool :=
  match file w with
  | None | Some (PDict _) => true
  | Some _ => false
  end.

(** The top level of the registry document. *)
Definition file_data (w : world) : dict :=
  match file w with
  | Some (PDict data) => data
  | _ => []
  end.

(** The runs as the file holds them, and as a load of the registry
    presents them. *)
Definition stored_runs (w : world) : dict :=
  match dict_get (file_data w) "runs" with
  | Some (PDict runs) => runs
  | _ => []
  end.

Definition loaded_runs (w : world) : dict :=
  entries._normalize_runs (stored_runs w).

(** A record of the registry under the key [key]: a dictionary whose
    [run_id] is the string [key], without the legacy [runID]. *)
Definition normalized_record (key : string) (record : pyval) : Prop :=
  exists fields,
    record = PDict fields
    /\ dict_get fields "run_id" = Some (PStr key)
    /\ dict_get fields "runID" = None.

(** What the file holds for a run: the fields of a stored record, a value
    that is not a record under ["value"]. *)
Definition stored_fields (value : pyval) : dict :=
  match value with
  | PDict fields => fields
  | _ => [("value", value)]
  end.

(** The field [k] if it is there and not empty, else [otherwise]. *)
Definition field_or (fields : dict) (k : string) (otherwise : pyval) : pyval :=
  match dict_get fields k with
  | Some v => if truthy v then v else otherwise
  | None => otherwise
  end.

(** The id of a stored run: its [run_id], else its legacy [runID], else
    the key it is stored under; as text. *)
Definition stored_id (key : string) (value : pyval) : string :=
  py_str (field_or (stored_fields value) "run_id"
            (field_or (stored_fields value) "runID" (PStr key))).

(** The record [record] under the key [k] presents the stored item
    [(key, value)]: [k] is the id of the item, and the record is
    normalized and holds every other field of the item as it is stored. *)
Definition presents (key : string) (value : pyval) (k : string) (record : pyval)
  : Prop :=
  k = stored_id key value
  /\ exists fields,
       record = PDict fields
       /\ dict_get fields "run_id" = Some (PStr k)
       /\ dict_get fields "runID" = None
       /\ forall f, f <> "run_id" -> f <> "runID" ->
                    dict_get fields f = dict_get (stored_fields value) f.

Definition normalized_runs (runs : dict) : Prop :=
  NoDup (dict_keys runs)
  /\ Forall (fun item => normalized_record (fst item) (snd item)) runs.

(** The templates of a workflow spec and the input parameters a
    template declares, as the loops of [create_run] visit them. *)
Definition templates_of (workflow_spec : pyval) : list pyval :=
  match (let? spec := py_item workflow_spec "spec" in
         let? templates := py_item spec "templates" in
         py_iter templates) with
  | Ok items => items
  | Raise _ => []
  end.

Definition declared_of (template : pyval) : list pyval :=
  match (let? inputs := py_get_default template "inputs" (PDict []) in
         let? declared := py_get_default inputs "parameters" (PList []) in
         py_iter declared) with
  | Ok items => items
  | Raise _ => []
  end.

(** [name] is declared by a step of the spec. *)
Definition declared_name (workflow_spec : pyval) (name : string) : Prop :=
  exists template param,
    In template (templates_of workflow_spec)
    /\ In param (declared_of template)
    /\ py_get param "name" = Ok (PStr name).

(** The value the caller supplies for a declared parameter: its name is
    a key of the mapping and the value is not [None]. *)
Definition supplied (parameters : dict) (param : pyval) : option pyval :=
  match py_get param "name" with
  | Ok (PStr name) =>
      match dict_get parameters name with
      | Some PNone | None => None
      | Some value => Some value
      end
  | _ => None
  end.

(** The nodes of a workflow document, in the order of the document; a
    document without status or without nodes has none. *)
Definition nodes_of (workflow : pyval) : option (list pyval) :=
  match workflow with
  | PDict document =>
      match dict_get document "status" with
      | None => Some []
      | Some (PDict status) =>
          match dict_get status "nodes" with
          | None => Some []
          | Some (PDict nodes) => Some (dict_values nodes)
          | Some nodes => if truthy nodes then None else Some []
          end
      | Some _ => None
      end
  | _ => None
  end.

Definition node_fields (node : pyval) : dict :=
  match node with
  | PDict fields => fields
  | _ => []
  end.

(** A node that ran in a pod: it names its pod. *)
Definition is_pod (node : pyval) : bool :=
  truthy (entries.record_get (node_fields node) "podName").

(** The start time a node records, the empty text where it records
    none. *)
Definition started_at (node : pyval) : string :=
  match dict_get (node_fields node) "startedAt" with
  | Some (PStr s) => s
  | _ => ""
  end.

(** What the log section of a pod node is headed with: its display name
    (else its name, else the name of its pod), the name of its pod and its
    phase (["Unknown"] where it has none). *)
Definition section_of (node : pyval) : pyval * pyval * pyval :=
  let fields := node_fields node in
  let pod_name := entries.record_get fields "podName" in
  (field_or fields "displayName" (field_or fields "name" pod_name),
   pod_name,
   match dict_get fields "phase" with
   | Some phase => phase
   | None => PStr "Unknown"
   end).

(** A node as the engine writes it: a record; the start time of a pod is
    text, or missing. *)
Definition timed (node : pyval) : Prop :=
  exists fields,
    node = PDict fields
    /\ (is_pod node = true ->
        match dict_get fields "startedAt" with
        | Some (PStr _) | None => True
        | Some v => truthy v = false
        end).

Definition started_is (s : string) (node : pyval) : bool := started_at node =? s.

Definition started_before (a b : pyval) : Prop :=
  String.leb (started_at a) (started_at b) = true.

(** The entry of [pod_entries] that stands for a pod node. *)
Definition entry_of (node : pyval) : argo.pod_entry :=
  let '(display_name, pod_name, phase) := section_of node in
  (PStr (started_at node), display_name, pod_name, phase).

(** The query parameters of a log request for one container, and what
    the engine answers to a log request made at time [t]. *)
Definition container_params (tail_lines pod_name : pyval) (container : string) : dict :=
  dict_set (argo.log_params tail_lines pod_name) "logOptions.container" (PStr container).

Definition log_answer (E : env) (t : nat) (url : string) (params : dict)
  : result string :=
  match http_get E t url params with
  | Responded r => let? _ := argo.raise_for_status r in Ok (text r)
  | NoResponse kind msg => Raise (PyError kind msg)
  end.

(** The body of a pod's section as the specification words it: the logs
    of [main]; if they are blank, [wait] then [main] are asked in turn and
    the first result that is not blank is kept. *)
Definition body_as_specified (E : env) (t : nat) (argo_workflow_name tail_lines
    pod_name : pyval) : string :=
  let url := argo.log_url argo_workflow_name in
  let params := container_params tail_lines pod_name in
  let nonblank (r : result string) : option string :=
    match r with
    | Ok log_text => if strip log_text =? "" then None else Some (strip log_text)
    | Raise _ => None
    end in
  match nonblank (log_answer E t url (params "main")) with
  | Some body => body
  | None =>
      match nonblank (log_answer E (S t) url (params "wait")) with
      | Some body => body
      | None =>
          match nonblank (log_answer E (S (S t)) url (params "main")) with
          | Some body => body
          | None => argo.NO_LOG_OUTPUT
          end
      end
  end.

(** The exceptions a result, or a computation, can end with. *)
Definition fails_only {A} (Q : exn -> Prop) (r : result A) : Prop :=
  forall e, r = Raise e -> Q e.

Definition raises_only {A} (Q : exn -> Prop) (m : M A) : Prop :=
  forall w e w', m w = (Raise e, w') -> Q e.

(** A plain Python error, as the operations on values raise them. *)
Definition is_py_error (e : exn) : Prop :=
  match e with PyError _ _ => True | _ => False end.

(** The errors of a query to the engine. *)
Definition is_engine_error (e : exn) : Prop :=
  match e with PyError _ _ | HTTPError _ _ => True | _ => False end.

(** The world after a request to the engine, after a presign request
    and after a save of the registry. *)
Definition after_get (w : world) (url : string) (params : dict) : world :=
  {| file := file w; trace := EvGet url params :: trace w |}.

(** The URL of a workflow document. *)
Definition workflow_url (argo_workflow_name : pyval) : string :=
  argo.ARGO_SERVER_URL ++ "/" ++ py_str argo_workflow_name.

(** Any exception but the not-complete refusal. *)
Definition not_refusal (e : exn) : Prop := e <> main.RUN_NOT_COMPLETE.

(** The errors of a presign request. *)
Definition is_store_error (e : exn) : Prop :=
  match e with S3Error _ | PyError _ _ => True | _ => False end.

Definition after_presign (w : world) (object_name : pyval) : world :=
  {| file := file w; trace := EvPresign argo.MINIO_BUCKET object_name :: trace w |}.

Definition after_save (w : world) (data : pyval) : world :=
  {| file := Some data; trace := EvSave data :: trace w |}.

(** The answer of the object store to a presign request made in [w]. *)
Definition presign_answer (E : env) (w : world) (object_name : pyval) : presign_outcome :=
  presigned_get_object E (length (trace w)) argo.MINIO_BUCKET object_name.

(** The addresses of a list of nodes. *)
Definition ips_of (nodes : list dict) : list pyval :=
  map (fun entry => entries.record_get entry "ip") nodes.

(** A run that the refresh of the list leaves alone: it has no engine
    name, or its stored phase is terminal. *)
Definition frozen (run : pyval) : Prop :=
  exists fields,
    run = PDict fields
    /\ (truthy (entries.record_get fields "argo_name") = false
        \/ exists status phase,
             dict_get fields "status" = Some status
             /\ py_get status "phase" = Ok (PStr phase)
             /\ main.in_set (lower phase) main.terminal_phases = true).

(** The stored phase of a run in lower case, as the refresh of the list
    reads it. *)
Definition current_phase (run : pyval) : result string :=
  let? status := py_get_default run "status" (PDict []) in
  let? phase := py_get status "phase" in
  main.py_lower (py_or phase (PStr "")).

(** An output artifact that names a key of the object store. *)
Definition keyed (artifact : pyval) : Prop :=
  exists meta,
    py_get artifact "s3" = Ok (PDict meta)
    /\ truthy (entries.record_get meta "key") = true.

(** The failures of the engine as the log functions raise them: an HTTP
    error carries a status that is not [ok]. *)
Definition is_engine_failure (e : exn) : Prop :=
  match e with
  | HTTPError code _ => argo.response_ok code = false
  | PyError _ _ => True
  | _ => False
  end.

(** The errors of the log endpoint. *)
Definition is_log_error (e : exn) : Prop :=
  is_py_error e
  \/ e = HTTPException 404 "Run not found"
  \/ e = HTTPException 404 "Argo workflow not recorded for this run"
  \/ e = HTTPException 502 "Failed to fetch logs".

(** The output artifacts a template declares, as the loop of
    [create_run] visits them, and the bucket of an artifact. *)
Definition artifacts_of (template : pyval) : list pyval :=
  match (let? outputs := py_get_default template "outputs" (PDict []) in
         let? artifacts := py_get_default outputs "artifacts" (PList []) in
         py_iter artifacts) with
  | Ok items => items
  | Raise _ => []
  end.

Definition bucket_of (artifact : pyval) : result pyval :=
  let? s3 := py_item artifact "s3" in
  py_item s3 "bucket".

(** [artifact.get("s3", {}).get(k)]: what the [s3] entry of an artifact
    holds under [k]. *)
Definition s3_field (artifact : pyval) (k : string) : result pyval :=
  let? s3 := py_get_default artifact "s3" (PDict []) in
  py_get s3 k.

(** What forcing the bucket asks of an artifact: the bucket is the
    configured one, the [s3] entry keeps what it holds beside the bucket
    (its object key, its endpoint, ...) and the artifact keeps what it
    holds beside its [s3] entry. *)
Definition bucket_forced (artifact artifact' : pyval) : Prop :=
  bucket_of artifact' = Ok (PStr argo.MINIO_BUCKET)
  /\ (forall k, k <> "bucket" -> s3_field artifact' k = s3_field artifact k)
  /\ (forall k, k <> "s3" -> py_get artifact' k = py_get artifact k).

(** [template["container"]["resources"][section][key]] *)
Definition resource_of (template : pyval) (section key : string) : result pyval :=
  let? container := py_item template "container" in
  let? resources := py_item container "resources" in
  let? values := py_item resources section in
  py_item values key.

(** What a limit that is supplied asks of a template: the limit and the
    request of the resource are the limit as text. *)
Definition limited (key : string) (limit : pyval) (template : pyval) : Prop :=
  truthy limit = true ->
  resource_of template "limits" key = Ok (PStr (py_str limit))
  /\ resource_of template "requests" key = Ok (PStr (py_str limit)).

(** The cluster of a list of addresses: the first is the master, the
    others are workers. *)
Definition cluster_of (ips : list string) : list dict :=
  match ips with
  | [] => []
  | first :: rest =>
      cluster.node first "master" :: map (fun ip => cluster.node ip "worker") rest
  end.

(** The addresses of a list that are not in [seen], each at its first
    place. *)
Fixpoint first_occurrences (ips : list string) (seen : list string) : list string :=
  match ips with
  | [] => []
  | ip :: rest =>
      if existsb (String.eqb ip) seen then first_occurrences rest seen
      else ip :: first_occurrences rest (ip :: seen)
  end.

(** A role that [ensure_roles] accepts as it is. *)
Definition is_role (role : string) : Prop := role = "master" \/ role = "worker".

(** A record that [_backfill_result_object] completes: no result key, a
    non-empty [parameters] entry, the workflow kind ["llm"] or ["ctgan"]
    and a non-empty input file name. *)
Definition backfillable (fields : dict) : Prop :=
  truthy (entries.record_get fields "result_object") = false
  /\ truthy (entries.record_get fields "parameters") = true
  /\ (entries.record_get fields "workflow" = PStr "llm"
      \/ entries.record_get fields "workflow" = PStr "ctgan")
  /\ truthy (entries.record_get fields "input_file_name") = true.

(** A text that begins with a blank. *)
Definition blank_front (two : ascii -> ascii -> bool)
    (three : ascii -> ascii -> ascii -> bool) (s : string) : bool :=
  match s with
  | EmptyString => false
  | String c1 rest1 =>
      is_space c1
      || match rest1 with
         | EmptyString => false
         | String c2 rest2 =>
             two c1 c2
             || match rest2 with
                | EmptyString => false
                | String c3 _ => three c1 c2 c3
                end
         end
  end.

(** ** Concrete inputs *)

(** An outside that never answers, without engine and without store. *)
Definition silent : env := {|
  http_get := fun _ _ _ => NoResponse "ConnectionError" "connection refused";
  presigned_get_object := fun _ _ _ => PresignError "ConnectionError" "connection refused";
  utcnow := fun _ => "2025-01-01T00:00:00+00:00"
|}.

Definition world_of (data : pyval) : world := {| file := Some data; trace := [] |}.

(** A registry file written by an older version: a record with the
    legacy id field, and a value that is not a record. *)
Definition legacy_world : world :=
  world_of (PDict [("runs", PDict [
    ("a", PDict [("runID", PStr "legacy-1"); ("workflow", PStr "llm")]);
    ("b", PInt 7)])]).

(** A registry with one [llm] record that has no result key. *)
Definition parameters_llm : pyval :=
  PDict [("labels", PStr "a,b"); ("model", PStr "m")].

Definition unfilled_world : world :=
  world_of (PDict [("runs", PDict [
    ("r1", PDict [("run_id", PStr "r1"); ("workflow", PStr "llm");
                  ("parameters", parameters_llm);
                  ("input_file_name", PStr "x.csv")])])]).

(** The same record without its [parameters]. *)
Definition bare_world : world :=
  world_of (PDict [("runs", PDict [
    ("r1", PDict [("run_id", PStr "r1"); ("workflow", PStr "llm");
                  ("input_file_name", PStr "x.csv")])])]).

(** A registry with one run that the engine knows as [wf-1] and that has
    succeeded. *)
Definition succeeded_record : pyval :=
  PDict [("run_id", PStr "r1"); ("workflow", PStr "ctgan");
         ("parameters", PDict [("no_of_epochs", PInt 300)]);
         ("argo_name", PStr "wf-1");
         ("status", PDict [("phase", PStr "Succeeded")]);
         ("result_object", PStr "output/a.csv");
         ("input_file_name", PStr "a.csv");
         ("updated_at", PStr "2024-12-31T00:00:00+00:00")].

Definition succeeded_world : world :=
  world_of (PDict [("runs", PDict [("r1", succeeded_record)])]).

Definition ok_json (url : string) (document : pyval) : http_outcome :=
  Responded {| status_code := 200; reason := "OK"; url := url; text := "";
               json := Some document |}.

Definition ok_text (url : string) (body : string) : http_outcome :=
  Responded {| status_code := 200; reason := "OK"; url := url; text := body;
               json := None |}.

Definition http_failure (code : Z) (reason : string) (url : string) : http_outcome :=
  Responded {| status_code := code; reason := reason; url := url; text := "";
               json := None |}.

Definition wf1_url : string := argo.ARGO_SERVER_URL ++ "/wf-1".

(** An engine that reports [wf-1] as succeeded, and an object store that
    signs every key. *)
Definition engine_succeeded : env := {|
  http_get := fun _ url _ =>
    if url =? wf1_url
    then ok_json url (PDict [("status", PDict [("phase", PStr "Succeeded");
                                               ("finishedAt", PStr "2025-01-01T00:00:00Z")])])
    else http_failure 404 "Not Found" url;
  presigned_get_object := fun _ bucket key =>
    Presigned ("http://127.0.0.1:9000/" ++ bucket ++ "/" ++ py_str key);
  utcnow := fun _ => "2025-01-01T00:00:01+00:00"
|}.

(** The same run, failed: the registry and the engine both say so. *)
Definition failed_record : pyval :=
  PDict [("run_id", PStr "r1"); ("workflow", PStr "ctgan");
         ("parameters", PDict [("no_of_epochs", PInt 300)]);
         ("argo_name", PStr "wf-1");
         ("status", PDict [("phase", PStr "Failed")]);
         ("result_object", PStr "output/a.csv");
         ("input_file_name", PStr "a.csv")].

Definition failed_world : world :=
  world_of (PDict [("runs", PDict [("r1", failed_record)])]).

Definition engine_failed : env := {|
  http_get := fun _ url _ =>
    if url =? wf1_url
    then ok_json url (PDict [("status", PDict [("phase", PStr "Failed");
                                               ("message", PStr "exit code 1")])])
    else http_failure 404 "Not Found" url;
  presigned_get_object := fun _ bucket key =>
    Presigned ("http://127.0.0.1:9000/" ++ bucket ++ "/" ++ py_str key);
  utcnow := fun _ => "2025-01-01T00:00:01+00:00"
|}.

(** An engine whose workflow [wf-1] has succeeded and lists the output
    key [output/a.csv], the key the registry already has; an object store
    that fails on its first calls and signs every key later. *)
Definition engine_same_key : env := {|
  http_get := fun _ url _ =>
    if url =? wf1_url
    then ok_json url
           (PDict [("status",
                    PDict [("phase", PStr "Succeeded");
                           ("outputs",
                            PDict [("artifacts",
                                    PList [PDict [("name", PStr "result");
                                                  ("s3", PDict [("key", PStr "output/a.csv")])]])])])])
    else http_failure 404 "Not Found" url;
  presigned_get_object := fun t bucket key =>
    if (t <=? 2)%nat then PresignS3Error "NoSuchKey"
    else Presigned ("http://127.0.0.1:9000/" ++ bucket ++ "/" ++ py_str key);
  utcnow := fun _ => "2025-01-01T00:00:01+00:00"
|}.

(** The same engine with a workflow that lists another key, and a store
    that has this other key only. *)
Definition engine_other_key : env := {|
  http_get := fun _ url _ =>
    if url =? wf1_url
    then ok_json url
           (PDict [("status",
                    PDict [("phase", PStr "Succeeded");
                           ("outputs",
                            PDict [("artifacts",
                                    PList [PDict [("name", PStr "result");
                                                  ("s3", PDict [("key", PStr "output/b.csv")])]])])])])
    else http_failure 404 "Not Found" url;
  presigned_get_object := fun _ bucket key =>
    if py_eq key (PStr "output/b.csv")
    then Presigned ("http://127.0.0.1:9000/" ++ bucket ++ "/" ++ py_str key)
    else PresignS3Error "NoSuchKey";
  utcnow := fun _ => "2025-01-01T00:00:01+00:00"
|}.

(** A workflow spec with one step that declares two parameters, one
    of them with a default; its container is elided. *)
Definition custom_spec : pyval :=
  PDict [("kind", PStr "Workflow");
         ("spec",
          PDict [("entrypoint", PStr "main");
                 ("templates",
                  PList [PDict [("name", PStr "main");
                                ("inputs",
                                 PDict [("parameters",
                                         PList [PDict [("name", PStr "input_file_name")];
                                                PDict [("name", PStr "pip_packages");
                                                       ("value", PStr "numpy")]])])]])])].

(** A workflow whose three pod nodes are listed out of order. *)
Definition pod_node (display pod started : string) : pyval :=
  PDict [("displayName", PStr display); ("podName", PStr pod);
         ("phase", PStr "Succeeded"); ("startedAt", PStr started)].

Definition three_pods : pyval :=
  PDict [("status",
          PDict [("phase", PStr "Succeeded");
                 ("nodes",
                  PDict [("n2", pod_node "train" "wf-1-train" "2025-01-01T00:02:00Z");
                         ("n0", PDict [("displayName", PStr "wf-1"); ("phase", PStr "Succeeded")]);
                         ("n1", pod_node "load" "wf-1-load" "2025-01-01T00:01:00Z");
                         ("n3", pod_node "save" "wf-1-save" "2025-01-01T00:03:00Z")])])].

(** A workflow where two pods have not started: one records no start
    time, the other an empty one; they are listed after a pod that has
    started. *)
Definition waiting_pods : pyval :=
  PDict [("status",
          PDict [("nodes",
                  PDict [("n1", pod_node "load" "wf-2-load" "2025-01-01T00:01:00Z");
                         ("n2", PDict [("name", PStr "wf-2.train");
                                       ("podName", PStr "wf-2-train");
                                       ("phase", PStr "Pending")]);
                         ("n0", PDict [("displayName", PStr "wf-2")]);
                         ("n3", PDict [("podName", PStr "wf-2-save");
                                       ("startedAt", PNone)])])])].

Definition wf1_log_url : string := argo.log_url (PStr "wf-1").

(** An engine where the [main] container of the pod has no logs at
    first and has some from the third request on, and where the [wait]
    container answers with blank text. *)
Definition engine_quiet_wait : env := {|
  http_get := fun t url params =>
    if url =? wf1_log_url then
      if py_eq (entries.record_get params "logOptions.container") (PStr "main")
      then ok_text url (if (t <? 2)%nat then "" else "epoch 1 done")
      else ok_text url "   "
    else http_failure 404 "Not Found" url;
  presigned_get_object := fun _ _ _ => PresignS3Error "NoSuchKey";
  utcnow := fun _ => "2025-01-01T00:00:01+00:00"
|}.

(** An engine where the [main] container answers with a no-break space
    and the [wait] container with a line of logs. *)
Definition engine_nbsp_main : env := {|
  http_get := fun _ url params =>
    if url =? wf1_log_url then
      if py_eq (entries.record_get params "logOptions.container") (PStr "main")
      then ok_text url (text_of [194; 160]%N)
      else ok_text url "waiting for main"
    else http_failure 404 "Not Found" url;
  presigned_get_object := fun _ _ _ => PresignS3Error "NoSuchKey";
  utcnow := fun _ => "2025-01-01T00:00:01+00:00"
|}.

(** An engine that has the workflow [three_pods] and the logs of its
    pods [load] and [save], and answers 500 for the logs of [train]; the
    logs of the workflow as a whole are blank. *)
Definition engine_three_pods : env := {|
  http_get := fun _ url params =>
    if url =? wf1_url then ok_json url three_pods
    else if url =? wf1_log_url then
      if py_eq (entries.record_get params "podName") (PStr "wf-1-load")
      then ok_text url "loading a.csv"
      else if py_eq (entries.record_get params "podName") (PStr "wf-1-train")
      then http_failure 500 "Internal Server Error" url
      else if py_eq (entries.record_get params "podName") (PStr "wf-1-save")
      then ok_text url "saved output/a.csv"
      else ok_text url ""
    else http_failure 404 "Not Found" url;
  presigned_get_object := fun _ _ _ => PresignS3Error "NoSuchKey";
  utcnow := fun _ => "2025-01-01T00:00:01+00:00"
|}.

Definition empty_world : world := {| file := None; trace := [] |}.

(** A workflow spec with a step that runs a container with a memory
    limit of its own and writes one output artifact to a bucket of its
    own, and a step without container. *)
Definition train_spec : pyval :=
  PDict [("spec",
          PDict [("templates",
                  PList [PDict [("name", PStr "train");
                                ("container",
                                 PDict [("image", PStr "ctgan:latest");
                                        ("resources",
                                         PDict [("limits", PDict [("memory", PStr "1Gi")])])]);
                                ("outputs",
                                 PDict [("artifacts",
                                         PList [PDict [("name", PStr "result");
                                                       ("s3", PDict [("bucket", PStr "scratch");
                                                                     ("key", PStr "output/a.csv")])]])])];
                         PDict [("name", PStr "main"); ("steps", PList [])]])])].

(** * Properties *)

(** ** The operations on values, on examples *)

Example py_str_examples :
  map py_str [PStr "a b"; PInt (-12); PBool true; PNone;
              PList [PStr "x.csv"; PInt 0]; PDict [("k", PStr "v")]]
  = ["a b"; "-12"; "True"; "None"; "['x.csv', 0]"; "{'k': 'v'}"].
Proof. reflexivity. Qed.

Example strip_examples :
  map strip ["  a b  "; "    "; ""; "x"] = ["a b"; ""; ""; "x"].
Proof. reflexivity. Qed.

(** A no-break space, a line separator, an ideographic space and a next
    line are blanks; the letter U+00E0 is not. *)
Example strip_unicode_blanks :
  strip (text_of [194; 160; 32; 226; 128; 168] ++ "a b"
         ++ text_of [227; 128; 128; 10; 194; 133])%N = "a b"
  /\ strip (text_of [194; 160]%N) = ""
  /\ strip (text_of [195; 160; 32]%N) = text_of [195; 160]%N.
Proof. repeat split. Qed.

Example lower_example : lower "Succeeded" = "succeeded".
Proof. reflexivity. Qed.

(** ** Dictionaries *)

Section DictFacts.

Implicit Types (d : dict) (k : string) (v : pyval).

Lemma dict_get_set_same d k v : dict_get (dict_set d k v) k = Some v.
Proof.
  induction d as [|[k' v'] d IH]; simpl.
  - now rewrite String.eqb_refl.
  - destruct (k' =? k) eqn:Hk; simpl.
    + now rewrite String.eqb_refl.
    + now rewrite Hk.
Qed.

Lemma dict_get_set_other d k k' v :
  k <> k' -> dict_get (dict_set d k v) k' = dict_get d k'.
Proof.
  intros Hne. induction d as [|[k0 v0] d IH]; simpl.
  - apply String.eqb_neq in Hne. now rewrite Hne.
  - destruct (k0 =? k) eqn:Hk; simpl.
    + apply String.eqb_eq in Hk. subst k0.
      apply String.eqb_neq in Hne. now rewrite Hne.
    + now rewrite IH.
Qed.

Lemma dict_set_unchanged d k v : dict_get d k = Some v -> dict_set d k v = d.
Proof.
  induction d as [|[k' v'] d IH]; simpl; [discriminate|].
  destruct (k' =? k) eqn:Hk; intros H.
  - apply String.eqb_eq in Hk. now inversion H; subst.
  - now rewrite IH.
Qed.

Lemma dict_set_fresh d k v : dict_get d k = None -> dict_set d k v = (d ++ [(k, v)])%list.
Proof.
  induction d as [|[k' v'] d IH]; simpl; [reflexivity|].
  destruct (k' =? k) eqn:Hk; intros H; [discriminate|].
  now rewrite IH.
Qed.

Lemma dict_get_pop_same d k : dict_get (dict_pop d k) k = None.
Proof.
  induction d as [|[k' v'] d IH]; simpl; [reflexivity|].
  destruct (k' =? k) eqn:Hk; simpl; [exact IH|].
  now rewrite Hk.
Qed.

Lemma dict_get_pop_other d k k' :
  k <> k' -> dict_get (dict_pop d k) k' = dict_get d k'.
Proof.
  intros Hne. induction d as [|[k0 v0] d IH]; simpl; [reflexivity|].
  destruct (k0 =? k) eqn:Hk; simpl.
  - apply String.eqb_eq in Hk. subst k0.
    apply String.eqb_neq in Hne. now rewrite Hne.
  - now rewrite IH.
Qed.

Lemma dict_pop_absent d k : dict_get d k = None -> dict_pop d k = d.
Proof.
  induction d as [|[k' v'] d IH]; simpl; [reflexivity|].
  destruct (k' =? k) eqn:Hk; intros H; [discriminate|].
  simpl. now rewrite IH.
Qed.

Lemma dict_get_in d k v : dict_get d k = Some v -> In (k, v) d.
Proof.
  induction d as [|[k' v'] d IH]; simpl; [discriminate|].
  destruct (k' =? k) eqn:Hk; intros H.
  - apply String.eqb_eq in Hk. inversion H; subst. now left.
  - right. now apply IH.
Qed.

Lemma dict_get_none_keys d k : dict_get d k = None <-> ~ In k (dict_keys d).
Proof.
  induction d as [|[k' v'] d IH]; simpl; [tauto|].
  destruct (k' =? k) eqn:Hk.
  - apply String.eqb_eq in Hk. split; [discriminate|]. intros H. exfalso. auto.
  - apply String.eqb_neq in Hk. rewrite IH. tauto.
Qed.

Lemma in_dict_get d k v :
  NoDup (dict_keys d) -> In (k, v) d -> dict_get d k = Some v.
Proof.
  induction d as [|[k' v'] d IH]; simpl; [tauto|].
  intros Hnd [Heq|Hin].
  - inversion Heq; subst. now rewrite String.eqb_refl.
  - inversion Hnd as [|? ? Hnotin Hnd']; subst.
    destruct (k' =? k) eqn:Hk.
    + apply String.eqb_eq in Hk. subst k'. exfalso. apply Hnotin.
      change k with (fst (k, v)). now apply in_map.
    + now apply IH.
Qed.

Lemma in_dict_set d k v k0 v0 :
  In (k0, v0) (dict_set d k v) -> (k0, v0) = (k, v) \/ In (k0, v0) d.
Proof.
  induction d as [|[k' v'] d IH]; simpl.
  - intros [H|[]]. now left.
  - destruct (k' =? k) eqn:Hk; simpl.
    + intros [H|H]; [now left | right; now right].
    + intros [H|H]; [right; now left|].
      destruct (IH H) as [H'|H']; [now left | right; now right].
Qed.

Lemma dict_keys_set d k v :
  dict_keys (dict_set d k v)
  = if dict_mem d k then dict_keys d else (dict_keys d ++ [k])%list.
Proof.
  unfold dict_mem. induction d as [|[k' v'] d IH]; simpl; [reflexivity|].
  destruct (k' =? k) eqn:Hk; simpl.
  - apply String.eqb_eq in Hk. now subst.
  - rewrite IH. now destruct (dict_get d k).
Qed.

Lemma dict_set_NoDup d k v : NoDup (dict_keys d) -> NoDup (dict_keys (dict_set d k v)).
Proof.
  intros Hnd. rewrite dict_keys_set. unfold dict_mem.
  destruct (dict_get d k) eqn:Hg; [exact Hnd|].
  apply dict_get_none_keys in Hg.
  apply NoDup_rev in Hnd. rewrite <- (rev_involutive (dict_keys d ++ [k])%list).
  apply NoDup_rev. rewrite rev_app_distr. simpl. constructor; [|exact Hnd].
  now rewrite <- in_rev.
Qed.

Lemma dict_set_Forall (P : string * pyval -> Prop) d k v :
  Forall P d -> P (k, v) -> Forall P (dict_set d k v).
Proof.
  intros Hd Hkv. apply Forall_forall. intros [k0 v0] Hin.
  destruct (in_dict_set _ _ _ _ _ Hin) as [Heq|Hin'].
  - now rewrite Heq.
  - rewrite Forall_forall in Hd. now apply Hd.
Qed.

Lemma dict_set_truthy d k v : truthy (PDict (dict_set d k v)) = true.
Proof.
  destruct d as [|[k' v'] d]; simpl; [reflexivity|].
  now destruct (k' =? k).
Qed.

Lemma dict_mem_set d k k' v : dict_mem d k = true -> dict_mem (dict_set d k' v) k = true.
Proof.
  unfold dict_mem. intros H. destruct (String.eqb_spec k' k) as [->|Hne].
  - now rewrite dict_get_set_same.
  - now rewrite dict_get_set_other.
Qed.

End DictFacts.

(** ** The run registry *)

Section RegistryFacts.

Import entries.

Lemma py_get_dict fields k : py_get (PDict fields) k = Ok (record_get fields k).
Proof. reflexivity. Qed.

Lemma normalize_record_normalized key value :
  normalized_record (fst (normalize_record key value)) (snd (normalize_record key value)).
Proof.
  unfold normalize_record. simpl. eexists. split; [reflexivity|]. split.
  - rewrite dict_get_pop_other by discriminate. apply dict_get_set_same.
  - apply dict_get_pop_same.
Qed.

Lemma normalize_record_fixed key fields :
  dict_get fields "run_id" = Some (PStr key) ->
  dict_get fields "runID" = None ->
  normalize_record key (PDict fields) = (key, PDict fields).
Proof.
  intros Hid Hlegacy. unfold normalize_record, record_get.
  rewrite Hid, Hlegacy.
  assert (Hor : py_or (py_or (PStr key) PNone) (PStr key) = PStr key).
  { unfold py_or. destruct key; reflexivity. }
  rewrite Hor. simpl py_str.
  rewrite (dict_set_unchanged _ _ _ Hid).
  now rewrite (dict_pop_absent _ _ Hlegacy).
Qed.

Lemma fold_normalize_invariant runs acc :
  normalized_runs acc -> normalized_runs (fold_left normalize_entry runs acc).
Proof.
  revert acc. induction runs as [|[key value] runs IH]; intros acc Hacc; [exact Hacc|].
  simpl. apply IH. unfold normalize_entry. simpl fst. simpl snd.
  pose proof (normalize_record_normalized key value) as Hrec.
  destruct (normalize_record key value) as [run_id record].
  destruct Hacc as [Hnd Hall]. split.
  - now apply dict_set_NoDup.
  - now apply dict_set_Forall.
Qed.

Lemma normalize_runs_normalized runs : normalized_runs (_normalize_runs runs).
Proof.
  apply fold_normalize_invariant. split; constructor.
Qed.

Lemma fold_normalize_provenance runs acc k r :
  In (k, r) (fold_left normalize_entry runs acc) ->
  In (k, r) acc
  \/ exists key value, In (key, value) runs /\ normalize_record key value = (k, r).
Proof.
  revert acc. induction runs as [|[key value] runs IH]; intros acc Hin; [now left|].
  simpl in Hin. apply IH in Hin. destruct Hin as [Hin|(key' & value' & Hin & Heq)].
  - unfold normalize_entry in Hin. simpl fst in Hin. simpl snd in Hin.
    destruct (normalize_record key value) as [run_id record] eqn:Hrec.
    apply in_dict_set in Hin. destruct Hin as [Heq|Hin]; [|now left].
    right. exists key, value. split; [now left|]. now rewrite Hrec, Heq.
  - right. exists key', value'. split; [now right | exact Heq].
Qed.

Lemma fold_normalize_fixed runs : forall acc,
  Forall (fun item => normalized_record (fst item) (snd item)) runs ->
  NoDup (dict_keys acc ++ dict_keys runs) ->
  fold_left normalize_entry runs acc = (acc ++ runs)%list.
Proof.
  induction runs as [|[key value] runs IH]; intros acc Hall Hnd.
  - now rewrite app_nil_r.
  - inversion Hall as [|? ? Hrec Hall']; subst.
    destruct Hrec as (fields & Hval & Hid & Hlegacy). simpl in Hval. subst value.
    cbn [fst] in Hid.
    cbn [fold_left]. unfold normalize_entry at 2. cbn [fst snd].
    rewrite (normalize_record_fixed _ _ Hid Hlegacy).
    assert (Hfresh : dict_get acc key = None).
    { apply dict_get_none_keys. intros Hin.
      apply NoDup_remove_2 in Hnd. apply Hnd. apply in_or_app. now left. }
    rewrite (dict_set_fresh _ _ _ Hfresh).
    rewrite IH; [now rewrite <- app_assoc | exact Hall' |].
    unfold dict_keys in *. rewrite map_app. simpl. now rewrite <- app_assoc.
Qed.

Lemma normalize_runs_fixed runs :
  normalized_runs runs -> _normalize_runs runs = runs.
Proof.
  intros [Hnd Hall]. unfold _normalize_runs.
  now rewrite fold_normalize_fixed.
Qed.

Lemma load_state_readable w :
  readable w = true ->
  _load_state w
  = (Ok (PDict (dict_set (file_data w) "runs" (PDict (loaded_runs w)))), w).
Proof.
  unfold readable, _load_state, loaded_runs, stored_runs, file_data, bind,
    load_json, lift.
  destruct (file w) as [[| | | | |data]|]; try discriminate; intros _; simpl.
  - destruct (dict_get data "runs") as [[| | | | |runs]|]; reflexivity.
  - reflexivity.
Qed.

End RegistryFacts.

Section BackfillFacts.

Import entries.

Lemma backfill_dict fields :
  exists fields' changed,
    _backfill_result_object (PDict fields) = Ok (PDict fields', changed)
    /\ (fields' = fields
        \/ exists key, fields' = dict_set fields "result_object" (PStr key)).
Proof.
  unfold _backfill_result_object. rewrite !py_get_dict. cbn [bind_result].
  destruct (truthy (record_get fields "result_object")); cbn [bind_result].
  - exists fields, false. split; [reflexivity | now left].
  - destruct (truthy (record_get fields "parameters")); cbn [bind_result negb].
    + destruct (py_eq (record_get fields "workflow") (PStr "llm")
                && truthy (record_get fields "input_file_name")).
      * eexists _, true. split; [reflexivity|]. right. now eexists.
      * destruct (py_eq (record_get fields "workflow") (PStr "ctgan")
                  && truthy (record_get fields "input_file_name")).
        -- eexists _, true. split; [reflexivity|]. right. now eexists.
        -- exists fields, false. split; [reflexivity | now left].
    + exists fields, false. split; [reflexivity | now left].
Qed.

Lemma backfill_normalized key run :
  normalized_record key run ->
  exists run' changed,
    _backfill_result_object run = Ok (run', changed)
    /\ normalized_record key run'.
Proof.
  intros (fields & -> & Hid & Hlegacy).
  destruct (backfill_dict fields) as (fields' & changed & Heq & Hshape).
  exists (PDict fields'), changed. split; [exact Heq|].
  exists fields'. split; [reflexivity|].
  destruct Hshape as [->|[k ->]]; [now split|].
  rewrite !dict_get_set_other by discriminate. now split.
Qed.

(** A record that already has a result key is left as it is. *)
Lemma backfill_settled fields :
  truthy (record_get fields "result_object") = true ->
  _backfill_result_object (PDict fields) = Ok (PDict fields, false).
Proof.
  intros H. unfold _backfill_result_object. rewrite !py_get_dict.
  cbn [bind_result]. now rewrite H.
Qed.

Lemma backfill_each_normalized runs :
  Forall (fun item => normalized_record (fst item) (snd item)) runs ->
  exists runs' dirty,
    backfill_each runs = Ok (runs', dirty)
    /\ dict_keys runs' = dict_keys runs
    /\ Forall (fun item => normalized_record (fst item) (snd item)) runs'.
Proof.
  induction runs as [|[key run] runs IH]; intros Hall.
  - exists [], false. repeat split; constructor.
  - inversion Hall as [|? ? Hrun Hall']; subst.
    destruct (IH Hall') as (runs' & dirty & Heq & Hkeys & Hall'').
    destruct (backfill_normalized _ _ Hrun) as (run' & changed & Hb & Hn).
    exists ((key, run') :: runs'), (changed || dirty). cbn [backfill_each].
    cbn [fst snd] in Hb. rewrite Hb. cbn [bind_result]. rewrite Heq.
    cbn [bind_result]. repeat split.
    + simpl. now rewrite Hkeys.
    + constructor; assumption.
Qed.

End BackfillFacts.

(** ** C10: what a load of the registry presents *)

Section RegistryLoad.

Import entries.

Lemma fold_normalize_keeps_member runs : forall acc k,
  dict_mem acc k = true -> dict_mem (fold_left normalize_entry runs acc) k = true.
Proof.
  induction runs as [|item runs IH]; intros acc k H; [exact H|].
  cbn [fold_left]. apply IH. unfold normalize_entry.
  destruct (normalize_record (fst item) (snd item)). now apply dict_mem_set.
Qed.

Lemma normalize_runs_member runs key value :
  In (key, value) runs ->
  dict_mem (_normalize_runs runs) (fst (normalize_record key value)) = true.
Proof.
  unfold _normalize_runs. generalize (@nil (string * pyval)).
  induction runs as [|item runs IH]; intros acc [].
  - subst item. cbn [fold_left]. apply fold_normalize_keeps_member.
    unfold normalize_entry. cbn [fst snd].
    destruct (normalize_record key value). cbn [fst].
    unfold dict_mem. now rewrite dict_get_set_same.
  - cbn [fold_left]. now apply IH.
Qed.

Lemma py_or_field_or fields k1 k2 otherwise :
  py_or (py_or (record_get fields k1) (record_get fields k2)) otherwise
  = field_or fields k1 (field_or fields k2 otherwise).
Proof.
  unfold py_or, record_get, field_or.
  destruct (dict_get fields k1) as [v1|]; cbn [truthy].
  - destruct (truthy v1) eqn:H1; [now rewrite H1|].
    destruct (dict_get fields k2) as [v2|]; cbn [truthy]; [|reflexivity].
    destruct (truthy v2) eqn:H2; now rewrite ?H2.
  - destruct (dict_get fields k2) as [v2|]; cbn [truthy]; [|reflexivity].
    destruct (truthy v2) eqn:H2; now rewrite ?H2.
Qed.

(** What the body of the loop of [_normalize_runs] makes of a stored
    item presents the item. *)
Lemma normalize_record_presents key value :
  presents key value (fst (normalize_record key value))
           (snd (normalize_record key value)).
Proof.
  unfold presents, normalize_record. cbn [fst snd].
  change (match value with PDict d => d | _ => [("value", value)] end)
    with (stored_fields value).
  rewrite py_or_field_or. fold (stored_id key value).
  split; [reflexivity|].
  eexists. split; [reflexivity|]. split; [|split].
  - rewrite dict_get_pop_other by discriminate. apply dict_get_set_same.
  - apply dict_get_pop_same.
  - intros f Hf Hlegacy. rewrite dict_get_pop_other by congruence.
    now rewrite dict_get_set_other by congruence.
Qed.

Lemma presents_normalized key value k record :
  presents key value k record -> normalized_record k record.
Proof. intros (_ & fields & Hrec & Hid & Hlegacy & _). now exists fields. Qed.

(** Every record of a load presents a stored item. *)
Lemma loaded_presents w k r :
  In (k, r) (loaded_runs w) ->
  exists key value, In (key, value) (stored_runs w) /\ presents key value k r.
Proof.
  intros Hin. unfold loaded_runs, _normalize_runs in Hin.
  apply fold_normalize_provenance in Hin. destruct Hin as [[]|Hin].
  destruct Hin as (key & value & Hin & Heq). exists key, value. split; [exact Hin|].
  pose proof (normalize_record_presents key value) as Hp.
  now rewrite Heq in Hp.
Qed.

(** No stored item is dropped by a load. *)
Lemma stored_is_loaded w key value :
  In (key, value) (stored_runs w) ->
  dict_mem (loaded_runs w) (stored_id key value) = true.
Proof.
  intros Hin. pose proof (normalize_runs_member _ _ _ Hin) as Hm.
  now rewrite (proj1 (normalize_record_presents key value)) in Hm.
Qed.

End RegistryLoad.

(** C10.  Whenever the registry file can be read, [_load_state] returns a
    state, without touching the file, whose runs have distinct keys and
    where every record is a dictionary whose [run_id] is the string it is
    keyed by, without the legacy [runID].  No stored run is dropped: every
    item of the file is presented under its id, which is its [run_id],
    else its legacy [runID], else its storage key.  Every record of the
    load presents an item of the file: it holds the fields of the stored
    record (a value that is not a dictionary under ["value"]) beside the
    two id fields; and an item whose id no other stored value has is
    presented by the record under its id.  The records [get_run] and
    [list_runs] hand out satisfy the same invariant. *)
Theorem registry_load_normalized w :
  readable w = true ->
  (exists state,
     entries._load_state w = (Ok state, w)
     /\ py_item state "runs" = Ok (PDict (loaded_runs w)))
  /\ NoDup (dict_keys (loaded_runs w))
  /\ (forall k r, In (k, r) (loaded_runs w) ->
        normalized_record k r
        /\ exists key value,
             In (key, value) (stored_runs w) /\ presents key value k r)
  /\ (forall key value, In (key, value) (stored_runs w) ->
        dict_mem (loaded_runs w) (stored_id key value) = true)
  /\ (forall key value, In (key, value) (stored_runs w) ->
        (forall key' value', In (key', value') (stored_runs w) ->
                             stored_id key' value' = stored_id key value ->
                             value' = value) ->
        exists r, dict_get (loaded_runs w) (stored_id key value) = Some r
                  /\ presents key value (stored_id key value) r)
  /\ (forall run_id run w',
        entries.get_run run_id w = (Ok run, w') ->
        truthy run = true -> normalized_record run_id run)
  /\ (forall runs w',
        entries.list_runs w = (Ok runs, w') ->
        Forall (fun run => exists k, normalized_record k run) runs).
Proof.
  intros Hr.
  pose proof (normalize_runs_normalized (stored_runs w)) as [Hnd Hall].
  fold (loaded_runs w) in Hnd, Hall.
  split; [|split; [exact Hnd|split; [|split; [|split; [|split]]]]].
  - eexists. split; [now apply load_state_readable|].
    cbn [py_item]. now rewrite dict_get_set_same.
  - intros k r Hin. split.
    + rewrite Forall_forall in Hall. exact (Hall _ Hin).
    + now apply loaded_presents.
  - intros key value. apply stored_is_loaded.
  - intros key value Hin Hunique.
    pose proof (stored_is_loaded w key value Hin) as Hmem. unfold dict_mem in Hmem.
    destruct (dict_get (loaded_runs w) (stored_id key value)) as [r|] eqn:Hget;
      [|discriminate].
    exists r. split; [reflexivity|].
    destruct (loaded_presents w _ _ (dict_get_in _ _ _ Hget))
      as (key' & value' & Hin' & Hid' & Hfields').
    rewrite (Hunique key' value' Hin' (eq_sym Hid')) in Hfields'.
    split; [reflexivity | exact Hfields'].
  - intros run_id run w'. unfold entries.get_run, bind.
    rewrite (load_state_readable _ Hr). unfold lift. cbn [py_item].
    rewrite dict_get_set_same. cbn [py_get py_get_default].
    destruct (dict_get (loaded_runs w) run_id) as [r|] eqn:Hget.
    + apply dict_get_in in Hget. rewrite Forall_forall in Hall.
      specialize (Hall _ Hget). cbn [fst snd] in Hall.
      destruct (backfill_normalized _ _ Hall) as (run' & changed & Hb & Hn).
      destruct (truthy r).
      * rewrite Hb. unfold entries.set_run. cbn [py_item]. rewrite dict_get_set_same.
        cbn [bind_result py_setitem].
        destruct changed; cbn; intros Heq _; inversion Heq; subst; exact Hn.
      * intros Heq Ht. inversion Heq; subst. exact Hall.
    + simpl. intros Heq Ht. inversion Heq; subst. discriminate.
  - intros runs w'. unfold entries.list_runs, bind.
    rewrite (load_state_readable _ Hr). unfold lift. cbn [py_item].
    rewrite dict_get_set_same. cbn [bind_result as_dict].
    destruct (backfill_each_normalized _ Hall) as (runs' & dirty & Hb & _ & Hn).
    rewrite Hb. cbn [py_setitem].
    assert (Hvals : Forall (fun run => exists k, normalized_record k run)
                           (dict_values runs')).
    { unfold dict_values. rewrite Forall_map.
      eapply Forall_impl; [|exact Hn]. intros [k r] H. now exists k. }
    destruct dirty; cbn; intros Heq; inversion Heq; subst; exact Hvals.
Qed.

Example legacy_world_loaded :
  loaded_runs legacy_world
  = [("legacy-1", PDict [("workflow", PStr "llm"); ("run_id", PStr "legacy-1")]);
     ("b", PDict [("value", PInt 7); ("run_id", PStr "b")])].
Proof. reflexivity. Qed.

Lemma registry_load_normalized_witness :
  readable legacy_world = true
  /\ NoDup (dict_keys (loaded_runs legacy_world))
  /\ (forall k r, In (k, r) (loaded_runs legacy_world) -> normalized_record k r)
  /\ exists r,
       dict_get (loaded_runs legacy_world) "legacy-1" = Some r
       /\ presents "a" (PDict [("runID", PStr "legacy-1"); ("workflow", PStr "llm")])
                   "legacy-1" r.
Proof.
  split; [reflexivity|].
  destruct (registry_load_normalized legacy_world eq_refl)
    as (_ & Hnd & Hall & _ & Hpresented & _).
  split; [exact Hnd|]. split.
  - intros k r Hin. exact (proj1 (Hall k r Hin)).
  - apply (Hpresented "a" (PDict [("runID", PStr "legacy-1"); ("workflow", PStr "llm")])).
    + now left.
    + intros key' value' [Heq|[Heq|[]]] Hid; inversion Heq; subst;
        [reflexivity | discriminate].
Defined.

(** ** C8: a run id is created once *)

(** C8.  For every readable registry and every run id that a load of it
    presents, [create_run_entry] raises the duplicate-run error
    ([ValueError], "Run <id> already exists") and leaves the world as it
    was: the file is not written and no save is recorded, so the existing
    record stays as it is. *)
Theorem create_run_entry_duplicate E w run_id record :
  readable w = true ->
  dict_mem (loaded_runs w) run_id = true ->
  entries.create_run_entry E run_id record w
  = (Raise (PyError "ValueError" ("Run " ++ run_id ++ " already exists")), w).
Proof.
  intros Hr Hmem. unfold entries.create_run_entry, bind.
  rewrite (load_state_readable _ Hr). unfold lift. cbn [py_item].
  rewrite dict_get_set_same. cbn [bind_result as_dict].
  now rewrite Hmem.
Qed.

Lemma create_run_entry_duplicate_witness :
  readable unfilled_world = true
  /\ dict_mem (loaded_runs unfilled_world) "r1" = true
  /\ entries.create_run_entry silent "r1" [("workflow", PStr "ctgan")] unfilled_world
     = (Raise (PyError "ValueError" "Run r1 already exists"), unfilled_world).
Proof.
  split; [reflexivity|]. split; [reflexivity|].
  apply (create_run_entry_duplicate silent unfilled_world "r1"); reflexivity.
Defined.

(** ** C3: the result key backfilled on read *)

(** C3, as the specification states it, fails: a record without
    [parameters] is read back without a result key, although it is an
    [llm] record with an input file name. *)
Lemma get_run_backfill_needs_parameters :
  exists run,
    fst (entries.get_run "r1" bare_world) = Ok run
    /\ py_get run "workflow" = Ok (PStr "llm")
    /\ py_get run "input_file_name" = Ok (PStr "x.csv")
    /\ py_get run "result_object" = Ok PNone
    /\ py_get run "result_object" <> Ok (PStr "output/x.csv").
Proof.
  eexists. split; [reflexivity|]. repeat split. discriminate.
Qed.

Lemma py_eq_str v s : py_eq v (PStr s) = true <-> v = PStr s.
Proof.
  destruct v; cbn; try (split; discriminate).
  rewrite String.eqb_eq. split; [now intros -> | now intros H; inversion H].
Qed.

(** What [_backfill_result_object] does to a record, by [backfillable]. *)
Lemma backfill_result_object_spec fields :
  (backfillable fields ->
   entries._backfill_result_object (PDict fields)
   = Ok (PDict (dict_set fields "result_object"
                  (PStr ("output/"
                         ++ py_str (entries.record_get fields "input_file_name")))),
         true))
  /\ (~ backfillable fields ->
      entries._backfill_result_object (PDict fields) = Ok (PDict fields, false)).
Proof.
  unfold backfillable, entries._backfill_result_object. rewrite !py_get_dict.
  cbn [bind_result].
  destruct (truthy (entries.record_get fields "result_object"));
    cbn [bind_result]; [split; [now intros [? _] | reflexivity]|].
  destruct (truthy (entries.record_get fields "parameters"));
    cbn [bind_result negb]; [|split; [now intros (_ & ? & _) | reflexivity]].
  destruct (truthy (entries.record_get fields "input_file_name"));
    [|rewrite !andb_false_r; split; [now intros (_ & _ & _ & ?) | reflexivity]].
  rewrite !andb_true_r.
  destruct (py_eq (entries.record_get fields "workflow") (PStr "llm")) eqn:Hllm;
    [split; [reflexivity|]|].
  { intros Hno. exfalso. apply Hno. apply py_eq_str in Hllm. tauto. }
  destruct (py_eq (entries.record_get fields "workflow") (PStr "ctgan")) eqn:Hct;
    [split; [reflexivity|]|].
  { intros Hno. exfalso. apply Hno. apply py_eq_str in Hct. tauto. }
  split; [|reflexivity].
  intros (_ & _ & [Hk | Hk] & _); apply py_eq_str in Hk; congruence.
Qed.

(** C3, amended.  For every readable registry and every record of it:
    if the record has no result key, a non-empty [parameters] entry, the
    workflow kind ["llm"] or ["ctgan"] and a non-empty input file name,
    [get_run] returns the record with [result_object] set to
    "output/" + input file name and saves the registry, and a second
    [get_run] returns the same record and leaves the world as it is (no
    save, no change of the file); every other record, so every record
    without [parameters], is returned as it is stored and nothing is
    written. *)
Theorem get_run_backfill_converges w run_id fields :
  readable w = true ->
  dict_get (loaded_runs w) run_id = Some (PDict fields) ->
  let name := py_str (entries.record_get fields "input_file_name") in
  let run := PDict (dict_set fields "result_object" (PStr ("output/" ++ name))) in
  (backfillable fields ->
   exists data,
     let w1 := {| file := Some data; trace := EvSave data :: trace w |} in
     entries.get_run run_id w = (Ok run, w1)
     /\ entries.get_run run_id w1 = (Ok run, w1))
  /\ (~ backfillable fields ->
      entries.get_run run_id w = (Ok (PDict fields), w))
  /\ (truthy (entries.record_get fields "parameters") = false ->
      entries.get_run run_id w = (Ok (PDict fields), w)).
Proof.
  intros Hr Hget name run.
  pose proof (normalize_runs_normalized (stored_runs w)) as Hnorm.
  fold (loaded_runs w) in Hnorm.
  assert (Hrec : normalized_record run_id (PDict fields)).
  { destruct Hnorm as [_ Hall]. rewrite Forall_forall in Hall.
    exact (Hall _ (dict_get_in _ _ _ Hget)). }
  assert (Ht : truthy (PDict fields) = true).
  { destruct Hrec as (f & Hf & Hid & _). inversion Hf; subst f.
    destruct fields; [discriminate | reflexivity]. }
  assert (Hkept : ~ backfillable fields ->
                  entries.get_run run_id w = (Ok (PDict fields), w)).
  { intros Hno. unfold entries.get_run, bind. rewrite (load_state_readable _ Hr).
    unfold lift. cbn [py_item]. rewrite dict_get_set_same.
    cbn [py_get py_get_default]. rewrite Hget, Ht.
    now rewrite (proj2 (backfill_result_object_spec fields) Hno). }
  split; [|split; [exact Hkept|]].
  2: { intros Hpar. apply Hkept. intros (_ & Hp & _). congruence. }
  intros Hfillable.
  pose proof (proj1 (backfill_result_object_spec fields) Hfillable) as Hfill.
  fold name in Hfill. fold run in Hfill.
  set (runs1 := dict_set (loaded_runs w) run_id run).
  set (data := PDict (dict_set (dict_set (file_data w) "runs" (PDict (loaded_runs w)))
                               "runs" (PDict runs1))).
  exists data. cbn zeta. split.
  - unfold entries.get_run, bind. rewrite (load_state_readable _ Hr).
    unfold lift. cbn [py_item]. rewrite dict_get_set_same.
    cbn [py_get py_get_default]. rewrite Hget.
    rewrite Ht, Hfill. unfold entries.set_run. cbn [py_item].
    rewrite dict_get_set_same. reflexivity.
  - assert (Hrun : normalized_record run_id run).
    { destruct Hrec as (f & Hf & Hid & Hlegacy). inversion Hf; subst f.
      eexists. split; [reflexivity|].
      rewrite !dict_get_set_other by discriminate. now split. }
    assert (Hnorm1 : normalized_runs runs1).
    { destruct Hnorm as [Hnd Hall]. split.
      - now apply dict_set_NoDup.
      - now apply dict_set_Forall. }
    set (w1 := {| file := Some data; trace := EvSave data :: trace w |}).
    assert (Hfd : file_data w1 = dict_set (dict_set (file_data w) "runs"
                                              (PDict (loaded_runs w)))
                                          "runs" (PDict runs1)) by reflexivity.
    assert (Hstored : stored_runs w1 = runs1).
    { unfold stored_runs. rewrite Hfd. now rewrite dict_get_set_same. }
    assert (Hloaded : loaded_runs w1 = runs1).
    { unfold loaded_runs. rewrite Hstored. now apply normalize_runs_fixed. }
    unfold entries.get_run, bind. rewrite (load_state_readable w1 eq_refl).
    unfold lift. cbn [py_item]. rewrite dict_get_set_same.
    cbn [py_get py_get_default]. rewrite Hloaded.
    assert (Hget1 : dict_get runs1 run_id = Some run) by apply dict_get_set_same.
    rewrite Hget1.
    assert (Htr : truthy run = true) by apply dict_set_truthy.
    rewrite Htr. unfold run. rewrite backfill_settled.
    + reflexivity.
    + unfold entries.record_get. now rewrite dict_get_set_same.
Qed.

Lemma get_run_backfill_converges_witness :
  (exists data,
     let w1 := {| file := Some data; trace := [EvSave data] |} in
     let run := PDict [("run_id", PStr "r1"); ("workflow", PStr "llm");
                       ("parameters", parameters_llm);
                       ("input_file_name", PStr "x.csv");
                       ("result_object", PStr "output/x.csv")] in
     entries.get_run "r1" unfilled_world = (Ok run, w1)
     /\ entries.get_run "r1" w1 = (Ok run, w1))
  /\ entries.get_run "r1" bare_world
     = (Ok (PDict [("run_id", PStr "r1"); ("workflow", PStr "llm");
                   ("input_file_name", PStr "x.csv")]), bare_world).
Proof.
  split.
  - refine (proj1 (get_run_backfill_converges unfilled_world "r1" _ eq_refl eq_refl) _).
    repeat split. now left.
  - exact (proj2 (proj2 (get_run_backfill_converges bare_world "r1" _ eq_refl eq_refl))
             eq_refl).
Defined.

(** ** Which exceptions a computation can raise *)

Section RaisesOnly.

Context {A B : Type} (Q : exn -> Prop).

Lemma fails_only_ok (a : A) : fails_only Q (Ok a).
Proof. intros e H. discriminate. Qed.

Lemma fails_only_bind (r : result A) (k : A -> result B) :
  fails_only Q r -> (forall a, fails_only Q (k a)) -> fails_only Q (bind_result r k).
Proof.
  intros Hr Hk e. destruct r as [a|e']; simpl.
  - apply Hk.
  - intros H. apply Hr. now inversion H.
Qed.

Lemma raises_only_ret (a : A) : raises_only Q (ret a).
Proof. intros w e w' H. discriminate. Qed.

Lemma raises_only_raise (e : exn) : Q e -> raises_only Q (@raise A e).
Proof. intros He w e' w' H. inversion H; subst. exact He. Qed.

Lemma raises_only_lift (r : result A) : fails_only Q r -> raises_only Q (lift r).
Proof. intros Hr w e w' H. inversion H; subst. now apply Hr. Qed.

Lemma raises_only_bind (m : M A) (k : A -> M B) :
  raises_only Q m -> (forall a, raises_only Q (k a)) -> raises_only Q (bind m k).
Proof.
  intros Hm Hk w e w'. unfold bind.
  destruct (m w) as [[a|e'] w1] eqn:Hmw.
  - apply Hk.
  - intros H. inversion H; subst. exact (Hm _ _ _ Hmw).
Qed.

Lemma raises_only_try_except (m : M A) (handler : exn -> M A) :
  (forall e, raises_only Q (handler e)) -> raises_only Q (try_except m handler).
Proof.
  intros Hh w e w'. unfold try_except.
  destruct (m w) as [[a|e'] w1]; [discriminate|]. apply Hh.
Qed.

Lemma raises_only_try_except_of (P : exn -> Prop) (m : M A) (handler : exn -> M A) :
  raises_only P m ->
  (forall e, P e -> raises_only Q (handler e)) ->
  raises_only Q (try_except m handler).
Proof.
  intros Hm Hh w e w'. unfold try_except.
  destruct (m w) as [[a|e'] w1] eqn:Hmw; [discriminate|].
  apply Hh. exact (Hm _ _ _ Hmw).
Qed.

End RaisesOnly.

Lemma fails_only_weaken {A} (P Q : exn -> Prop) (r : result A) :
  (forall e, P e -> Q e) -> fails_only P r -> fails_only Q r.
Proof. intros H Hr e He. apply H, Hr, He. Qed.

Lemma raises_only_weaken {A} (P Q : exn -> Prop) (m : M A) :
  (forall e, P e -> Q e) -> raises_only P m -> raises_only Q m.
Proof. intros H Hm w e w' He. exact (H _ (Hm _ _ _ He)). Qed.

(** The operations on values fail with plain Python errors only. *)
Lemma py_get_default_fails v k default : fails_only is_py_error (py_get_default v k default).
Proof. intros e. destruct v; simpl; intros H; inversion H; exact I. Qed.

Lemma py_get_fails v k : fails_only is_py_error (py_get v k).
Proof. apply py_get_default_fails. Qed.

Lemma py_item_fails v k : fails_only is_py_error (py_item v k).
Proof.
  intros e. destruct v; simpl; try (intros H; inversion H; exact I).
  destruct (dict_get entries k); intros H; inversion H; exact I.
Qed.

Lemma py_setitem_fails v k x : fails_only is_py_error (py_setitem v k x).
Proof. intros e. destruct v; simpl; intros H; inversion H; exact I. Qed.

Lemma as_dict_fails v method : fails_only is_py_error (as_dict v method).
Proof. intros e. destruct v; simpl; intros H; inversion H; exact I. Qed.

Lemma py_iter_fails v : fails_only is_py_error (py_iter v).
Proof. intros e. destruct v; simpl; intros H; inversion H; exact I. Qed.

Lemma py_in_dict_fails v d : fails_only is_py_error (py_in_dict v d).
Proof. intros e. destruct v; simpl; intros H; inversion H; exact I. Qed.

Lemma py_lower_fails v : fails_only is_py_error (main.py_lower v).
Proof. intros e. destruct v; simpl; intros H; inversion H; exact I. Qed.

Create HintDb fails.
#[local] Hint Resolve fails_only_ok py_get_default_fails py_get_fails py_item_fails
  py_setitem_fails as_dict_fails py_iter_fails py_in_dict_fails py_lower_fails
  : fails.

(** Splits a goal [fails_only Q r] or [raises_only Q m] along the binds
    and the branches of the computation. *)
Ltac fails_step :=
  match goal with
  | |- fails_only _ (bind_result _ _) => apply fails_only_bind; [|intros ?]
  | |- fails_only _ (Ok _) => apply fails_only_ok
  | |- fails_only _ (Raise _) => let e := fresh in intros e H; inversion H; exact I
  | |- fails_only _ (if ?b then _ else _) => destruct b
  | |- fails_only _ (match ?x with _ => _ end) => destruct x
  | |- fails_only _ _ => solve [auto with fails]
  | |- raises_only _ (bind _ _) => apply raises_only_bind; [|intros ?]
  | |- raises_only _ (ret _) => apply raises_only_ret
  | |- raises_only _ (raise _) => apply raises_only_raise; exact I
  | |- raises_only _ (lift _) => apply raises_only_lift
  | |- raises_only _ (try_except _ _) => apply raises_only_try_except; intros ?
  | |- raises_only _ (if ?b then _ else _) => destruct b
  | |- raises_only _ (match ?x with _ => _ end) => destruct x
  end.

Lemma backfill_fails run : fails_only is_py_error (entries._backfill_result_object run).
Proof. unfold entries._backfill_result_object. repeat fails_step. Qed.

Lemma set_run_fails state run_id run :
  fails_only is_py_error (entries.set_run state run_id run).
Proof. unfold entries.set_run. repeat fails_step. Qed.

Lemma first_s3_key_fails artifacts : fails_only is_py_error (main.first_s3_key artifacts).
Proof.
  induction artifacts as [|artifact rest IH]; cbn [main.first_s3_key].
  - apply fails_only_ok.
  - repeat fails_step; exact IH.
Qed.

Lemma extract_result_key_fails artifacts :
  fails_only is_py_error (main._extract_result_key_from_artifacts artifacts).
Proof.
  unfold main._extract_result_key_from_artifacts.
  apply fails_only_bind; [apply py_iter_fails | intros; apply first_s3_key_fails].
Qed.

#[local] Hint Resolve backfill_fails set_run_fails extract_result_key_fails : fails.

Lemma load_state_raises : raises_only is_py_error entries._load_state.
Proof.
  unfold entries._load_state. apply raises_only_bind.
  - intros w e w' H. discriminate.
  - intros data. repeat fails_step.
Qed.

Lemma save_json_raises data (Q : exn -> Prop) : raises_only Q (entries.save_json data).
Proof. intros w e w' H. discriminate. Qed.

Lemma now_raises E (Q : exn -> Prop) : raises_only Q (entries._now E).
Proof. intros w e w' H. discriminate. Qed.

Lemma update_run_entry_raises E run_id updates :
  raises_only is_py_error (entries.update_run_entry E run_id updates).
Proof.
  unfold entries.update_run_entry.
  apply raises_only_bind; [apply load_state_raises | intros state].
  repeat first [apply save_json_raises | apply now_raises | fails_step].
Qed.

Lemma entries_get_run_raises run_id : raises_only is_py_error (entries.get_run run_id).
Proof.
  unfold entries.get_run.
  apply raises_only_bind; [apply load_state_raises | intros state].
  repeat first [apply save_json_raises | fails_step].
Qed.

(** ** What a query to the engine does to the world *)

Lemma requests_get_world E url params w r w' :
  argo.requests_get E url params w = (r, w') -> w' = after_get w url params.
Proof.
  unfold argo.requests_get, after_get.
  destruct (http_get E (length (trace w)) url params); intros H; now inversion H.
Qed.

Lemma requests_get_raises E url params :
  raises_only is_py_error (argo.requests_get E url params).
Proof.
  intros w e w'. unfold argo.requests_get.
  destruct (http_get E (length (trace w)) url params); intros H; inversion H; exact I.
Qed.

Lemma raise_for_status_fails r : fails_only is_engine_error (argo.raise_for_status r).
Proof.
  intros e. unfold argo.raise_for_status.
  destruct (argo.response_ok (status_code r)); intros H; inversion H; exact I.
Qed.

Lemma py_error_engine_error e : is_py_error e -> is_engine_error e.
Proof. destruct e; simpl; tauto. Qed.

Lemma get_workflow_world E name w r w' :
  argo.get_workflow E name w = (r, w') -> w' = after_get w (workflow_url name) [].
Proof.
  unfold argo.get_workflow, bind.
  destruct (argo.requests_get E _ [] w) as [[resp|e] w1] eqn:Hget;
    apply requests_get_world in Hget; subst w1.
  - destruct (status_code resp =? 404)%Z; [intros H; now inversion H|].
    unfold lift. destruct (argo.raise_for_status resp); intros H; now inversion H.
  - intros H; now inversion H.
Qed.

Lemma get_workflow_raises E name : raises_only is_engine_error (argo.get_workflow E name).
Proof.
  unfold argo.get_workflow. apply raises_only_bind.
  - eapply raises_only_weaken; [apply py_error_engine_error | apply requests_get_raises].
  - intros resp. destruct (status_code resp =? 404)%Z; [apply raises_only_ret|].
    apply raises_only_bind; [apply raises_only_lift, raise_for_status_fails|].
    intros _. apply raises_only_lift. unfold argo.response_json.
    destruct (json resp); intros e H; inversion H; exact I.
Qed.

Lemma get_workflow_status_world E name w r w' :
  argo.get_workflow_status E name w = (r, w') -> w' = after_get w (workflow_url name) [].
Proof.
  unfold argo.get_workflow_status, bind.
  destruct (argo.get_workflow E name w) as [[wf|e] w1] eqn:Hget;
    apply get_workflow_world in Hget; subst w1.
  - destruct (negb (truthy wf)); unfold ret, lift; intros H; now inversion H.
  - intros H; now inversion H.
Qed.

Lemma get_workflow_status_raises E name :
  raises_only is_engine_error (argo.get_workflow_status E name).
Proof.
  unfold argo.get_workflow_status.
  apply raises_only_bind; [apply get_workflow_raises | intros wf].
  destruct (negb (truthy wf)); [apply raises_only_ret|].
  apply raises_only_lift. eapply fails_only_weaken; [apply py_error_engine_error|].
  repeat fails_step.
Qed.

Lemma get_output_artifacts_world E name w r w' :
  argo.get_output_artifacts E name w = (r, w') -> w' = after_get w (workflow_url name) [].
Proof.
  unfold argo.get_output_artifacts, bind.
  destruct (argo.get_workflow E name w) as [[wf|e] w1] eqn:Hget;
    apply get_workflow_world in Hget; subst w1.
  - destruct (negb (truthy wf)); unfold ret, lift; intros H; now inversion H.
  - intros H; now inversion H.
Qed.

Lemma get_output_artifacts_raises E name :
  raises_only is_engine_error (argo.get_output_artifacts E name).
Proof.
  unfold argo.get_output_artifacts.
  apply raises_only_bind; [apply get_workflow_raises | intros wf].
  destruct (negb (truthy wf)); [apply raises_only_ret|].
  apply raises_only_lift. eapply fails_only_weaken; [apply py_error_engine_error|].
  repeat fails_step.
Qed.

(** ** Reads and updates of a readable registry *)

Lemma load_state_ok_readable w state w' :
  entries._load_state w = (Ok state, w') -> readable w = true.
Proof.
  unfold entries._load_state, bind, entries.load_json, lift, readable.
  destruct (file w) as [[| | | | |data]|]; simpl; intros H;
    first [reflexivity | discriminate].
Qed.

Lemma entries_get_run_readable run_id w run w' :
  entries.get_run run_id w = (Ok run, w') -> readable w' = true.
Proof.
  unfold entries.get_run, bind.
  destruct (entries._load_state w) as [[state|e] w1] eqn:Hload; [|discriminate].
  pose proof (load_state_ok_readable _ _ _ Hload) as Hr.
  rewrite (load_state_readable _ Hr) in Hload. inversion Hload; subst state w1.
  unfold lift. cbn [py_item]. rewrite dict_get_set_same.
  cbn [py_get py_get_default].
  destruct (truthy _); [|intros H; inversion H; now subst].
  destruct (entries._backfill_result_object _) as [[run' changed]|e]; [|discriminate].
  destruct changed.
  - unfold entries.set_run. cbn [py_item]. rewrite dict_get_set_same.
    cbn. intros H. inversion H. reflexivity.
  - cbn. intros H. inversion H. now subst.
Qed.

Lemma update_run_entry_total E run_id updates w :
  readable w = true ->
  exists r w', entries.update_run_entry E (PStr run_id) updates w = (Ok r, w')
               /\ readable w' = true.
Proof.
  intros Hr. unfold entries.update_run_entry, bind.
  rewrite (load_state_readable _ Hr). unfold lift. cbn [py_item].
  rewrite dict_get_set_same. cbn [bind_result as_dict py_in_dict].
  unfold dict_mem.
  destruct (dict_get (loaded_runs w) run_id) as [r|] eqn:Hget; cbn [negb].
  - pose proof (normalize_runs_normalized (stored_runs w)) as [_ Hall].
    fold (loaded_runs w) in Hall. rewrite Forall_forall in Hall.
    destruct (Hall _ (dict_get_in _ _ _ Hget)) as (fields & Hf & _).
    cbn [snd] in Hf. subst r. cbn [py_str]. rewrite Hget.
    cbn [bind_result as_dict]. unfold entries._now.
    destruct (backfill_dict (dict_set (dict_update fields updates) "updated_at"
                               (PStr (utcnow E (length (trace w))))))
      as (fields' & changed & Hb & _).
    rewrite Hb. unfold entries.set_run. cbn [py_item]. rewrite dict_get_set_same.
    cbn. eexists _, _. split; reflexivity.
  - eexists _, _. split; [reflexivity | exact Hr].
Qed.

(** ** C9: when the result is refused as not complete *)

Lemma phase_lowered status lowered :
  (let? phase := py_get status "phase" in main.py_lower (py_or phase (PStr "")))
  = Ok lowered ->
  lowered <> "" ->
  exists phase,
    py_get status "phase" = Ok (PStr phase) /\ lowered = lower phase /\ phase <> "".
Proof.
  destruct (py_get status "phase") as [p|e]; cbn [bind_result]; [|discriminate].
  unfold py_or. destruct (truthy p) eqn:Ht.
  - destruct p; cbn [main.py_lower]; try discriminate.
    intros H Hne. inversion H; subst. exists s. repeat split.
    intros ->. now apply Hne.
  - cbn. intros H Hne. inversion H; subst. now elim Hne.
Qed.

Lemma lower_nonempty s : s <> "" -> lower s <> "".
Proof. destruct s; [tauto | discriminate]. Qed.

(** The only exception of the completeness check is the refusal, and it
    is raised for a status the engine reports with a phase outside
    [complete_phases]. *)
Lemma check_complete_raises E run_id argo_name w e w' :
  main.check_complete E run_id argo_name w = (Raise e, w') ->
  e = main.RUN_NOT_COMPLETE
  /\ truthy argo_name = true
  /\ exists status phase,
       fst (argo.get_workflow_status E argo_name w) = Ok status
       /\ truthy status = true
       /\ py_get status "phase" = Ok (PStr phase)
       /\ phase <> ""
       /\ main.in_set (lower phase) main.complete_phases = false.
Proof.
  unfold main.check_complete.
  destruct (truthy argo_name); [|discriminate].
  unfold try_except, bind.
  destruct (argo.get_workflow_status E argo_name w) as [[status|e0] w1] eqn:Hst.
  - destruct (truthy status) eqn:Ht; [|discriminate].
    destruct (entries.update_run_entry E (PStr run_id) _ w1) as [[upd|e1] w2] eqn:Hup.
    + unfold lift.
      destruct (let? phase := py_get status "phase" in
                main.py_lower (py_or phase (PStr ""))) as [lowered|e2] eqn:Hph.
      * destruct (lowered =? "") eqn:Hempty; cbn [negb andb]; [discriminate|].
        destruct (main.in_set lowered main.complete_phases) eqn:Hin;
          cbn [negb]; [discriminate|].
        cbn. intros H. inversion H; subst.
        apply String.eqb_neq in Hempty.
        destruct (phase_lowered _ _ Hph Hempty) as (phase & Hp & -> & Hne).
        split; [reflexivity|]. split; [reflexivity|].
        exists status, phase. now repeat split.
      * pose proof (py_get_fails status "phase") as Hf1.
        assert (He2 : is_py_error e2).
        { revert Hph. generalize e2. change (fails_only is_py_error
            (let? phase := py_get status "phase" in
             main.py_lower (py_or phase (PStr "")))).
          repeat fails_step. }
        destruct e2; try contradiction. discriminate.
    + pose proof (update_run_entry_raises _ _ _ _ _ _ Hup) as He1.
      destruct e1; try contradiction. discriminate.
  - pose proof (get_workflow_status_raises _ _ _ _ _ Hst) as He0.
    destruct e0; try contradiction; discriminate.
Qed.

Lemma check_complete_refuses E run_id argo_name w status phase :
  readable w = true ->
  truthy argo_name = true ->
  fst (argo.get_workflow_status E argo_name w) = Ok status ->
  truthy status = true ->
  py_get status "phase" = Ok (PStr phase) ->
  phase <> "" ->
  main.in_set (lower phase) main.complete_phases = false ->
  fst (main.check_complete E run_id argo_name w) = Raise main.RUN_NOT_COMPLETE.
Proof.
  intros Hr Ha Hst Ht Hp Hne Hin. unfold main.check_complete. rewrite Ha.
  unfold try_except, bind.
  destruct (argo.get_workflow_status E argo_name w) as [r w1] eqn:Hgws.
  cbn [fst] in Hst. subst r. rewrite Ht.
  pose proof (get_workflow_status_world _ _ _ _ _ Hgws) as Hw1.
  assert (Hr1 : readable w1 = true) by (subst w1; exact Hr).
  destruct (update_run_entry_total E run_id [("status", status)] w1 Hr1)
    as (upd & w2 & Hup & _).
  rewrite Hup. unfold lift. rewrite Hp. cbn [bind_result].
  assert (Hor : py_or (PStr phase) (PStr "") = PStr phase).
  { unfold py_or. destruct phase; [contradiction | reflexivity]. }
  rewrite Hor. cbn [main.py_lower]. rewrite Hin.
  apply lower_nonempty in Hne. apply String.eqb_neq in Hne. rewrite Hne.
  reflexivity.
Qed.

Lemma py_error_not_refusal e : is_py_error e -> not_refusal e.
Proof. destruct e; simpl; try tauto. intros _ H. discriminate. Qed.

Lemma engine_error_not_refusal e : is_engine_error e -> not_refusal e.
Proof. destruct e; simpl; try tauto; intros _ H; discriminate. Qed.

Lemma generate_presigned_url_raises E object_name :
  raises_only is_store_error (main.generate_presigned_url E object_name).
Proof.
  intros w e w'. unfold main.generate_presigned_url.
  destruct (presigned_get_object _ _ _ _); intros H; inversion H; exact I.
Qed.

Lemma resolve_object_name_raises E run_id run argo_name :
  raises_only not_refusal (main.resolve_object_name E run_id run argo_name).
Proof.
  unfold main.resolve_object_name.
  apply raises_only_bind.
  { apply raises_only_lift. eapply fails_only_weaken;
      [apply py_error_not_refusal | apply py_get_fails]. }
  intros object_name. apply raises_only_bind.
  - destruct (negb (truthy object_name) && truthy argo_name); [|apply raises_only_ret].
    apply raises_only_bind.
    { eapply raises_only_weaken;
        [apply engine_error_not_refusal | apply get_output_artifacts_raises]. }
    intros artifacts. apply raises_only_bind.
    { apply raises_only_lift. eapply fails_only_weaken;
        [apply py_error_not_refusal | apply extract_result_key_fails]. }
    intros key. apply raises_only_bind; [|intros; apply raises_only_ret].
    destruct (truthy key); [|apply raises_only_ret].
    apply raises_only_bind; [|intros; apply raises_only_ret].
    eapply raises_only_weaken;
      [apply py_error_not_refusal | apply update_run_entry_raises].
  - intros key. destruct (negb (truthy key)); [|apply raises_only_ret].
    apply raises_only_raise. discriminate.
Qed.

Lemma presign_or_fallback_raises E run_id argo_name object_name :
  raises_only not_refusal (main.presign_or_fallback E run_id argo_name object_name).
Proof.
  unfold main.presign_or_fallback.
  apply raises_only_try_except_of with (P := is_store_error).
  { apply raises_only_bind; [apply generate_presigned_url_raises|].
    intros; apply raises_only_ret. }
  intros exc Hexc.
  destruct exc; try contradiction; [|apply raises_only_raise; discriminate].
  apply raises_only_bind.
  - destruct (truthy argo_name); [|apply raises_only_ret].
    apply raises_only_bind.
    { eapply raises_only_weaken;
        [apply engine_error_not_refusal | apply get_output_artifacts_raises]. }
    intros artifacts. apply raises_only_bind.
    { apply raises_only_lift. eapply fails_only_weaken;
        [apply py_error_not_refusal | apply extract_result_key_fails]. }
    intros key.
    destruct (truthy key && negb (py_eq key object_name)); [|apply raises_only_ret].
    apply raises_only_bind.
    { eapply raises_only_weaken;
        [apply py_error_not_refusal | apply update_run_entry_raises]. }
    intros _. apply raises_only_bind; [|intros; apply raises_only_ret].
    apply raises_only_try_except_of with (P := is_store_error);
      [apply generate_presigned_url_raises|].
    intros second Hsecond.
    destruct second; try contradiction; apply raises_only_raise; discriminate.
  - intros [answer|]; [apply raises_only_ret | apply raises_only_raise; discriminate].
Qed.




(** ** C1: terminal runs and the refresh *)

(** The loop of [list_runs] appends a run in a terminal phase as it is,
    and asks the engine nothing. *)
Lemma refresh_run_terminal E fields status phase w :
  dict_get fields "status" = Some status ->
  py_get status "phase" = Ok (PStr phase) ->
  main.in_set (lower phase) main.terminal_phases = true ->
  main.refresh_run E (PDict fields) w = (Ok (PDict fields), w).
Proof.
  intros Hst Hp Hin. unfold main.refresh_run, bind, lift.
  cbn [py_get py_get_default].
  destruct (truthy match dict_get fields "argo_name" with
                   | Some x => x | None => PNone end); [|reflexivity].
  cbn [negb]. rewrite Hst. cbn [bind_result]. rewrite Hp. cbn [bind_result].
  assert (Hor : py_or (PStr phase) (PStr "") = PStr phase).
  { unfold py_or. destruct phase; reflexivity. }
  rewrite Hor. cbn [main.py_lower]. now rewrite Hin.
Qed.

(** C1.  The refresh of a single run has no terminal check: for the run
    [r1], stored with phase [Succeeded], [get_run] with [refresh] queries
    the engine for [wf-1], rewrites the registry file and returns a record
    that differs from the stored one, while [list_runs] with [refresh], on
    the same registry, asks nothing and leaves the world as it is. *)
Theorem get_run_polls_terminal_run :
  exists run w',
    main.get_run engine_succeeded "r1" true succeeded_world = (Ok run, w')
    /\ filter is_get (trace w') = [EvGet wf1_url []]
    /\ (exists data, filter is_save (trace w') = [EvSave data])
    /\ run <> succeeded_record
    /\ file w' <> file succeeded_world
    /\ main.list_runs engine_succeeded true succeeded_world
       = (Ok (PDict [("runs", PList [succeeded_record])]), succeeded_world).
Proof.
  eexists _, _. split; [reflexivity|].
  split; [reflexivity|]. split; [eexists; reflexivity|].
  split; [discriminate|]. split; [discriminate | reflexivity].
Qed.

(** ** C2: the result key re-resolved after a failed presign *)

Lemma generate_presigned_url_eq E object_name w :
  main.generate_presigned_url E object_name w
  = (match presign_answer E w object_name with
     | Presigned url => Ok url
     | PresignS3Error msg => Raise (S3Error msg)
     | PresignError kind msg => Raise (PyError kind msg)
     end, after_presign w object_name).
Proof.
  unfold main.generate_presigned_url, presign_answer, after_presign.
  now destruct (presigned_get_object _ _ _ _).
Qed.

(** An update of [result_object] on a record of a readable registry: the
    record is saved with the new key. *)
Lemma update_result_object E w run_id fields key :
  readable w = true ->
  dict_get (loaded_runs w) run_id = Some (PDict fields) ->
  truthy key = true ->
  let run := dict_set (dict_set fields "result_object" key) "updated_at"
               (PStr (utcnow E (length (trace w)))) in
  let data := PDict (dict_set (dict_set (file_data w) "runs" (PDict (loaded_runs w)))
                       "runs" (PDict (dict_set (loaded_runs w) run_id (PDict run)))) in
  entries.update_run_entry E (PStr run_id) [("result_object", key)] w
  = (Ok (PDict run), after_save w data)
  /\ dict_get (stored_runs (after_save w data)) run_id = Some (PDict run)
  /\ entries.record_get run "result_object" = key.
Proof.
  intros Hr Hget Hkey run data.
  assert (Hres : entries.record_get run "result_object" = key).
  { unfold entries.record_get, run.
    rewrite dict_get_set_other by discriminate. now rewrite dict_get_set_same. }
  split; [|split; [|exact Hres]].
  - unfold entries.update_run_entry, bind.
    rewrite (load_state_readable _ Hr). unfold lift. cbn [py_item].
    rewrite dict_get_set_same. cbn [bind_result as_dict py_in_dict].
    unfold dict_mem. rewrite Hget. cbn [negb py_str]. rewrite Hget.
    cbn [bind_result as_dict]. unfold entries._now.
    cbn [dict_update fold_left fst snd]. fold run.
    rewrite backfill_settled by (now rewrite Hres).
    unfold entries.set_run. cbn [py_item]. rewrite dict_get_set_same.
    reflexivity.
  - unfold stored_runs, after_save, file_data, data. cbn [file].
    rewrite dict_get_set_same. apply dict_get_set_same.
Qed.

(** C2, as the specification states it, fails: the stored key
    [output/a.csv] fails to presign, the workflow's output artifacts give
    the same key, and the operation fails as unavailable after a single
    presign request, although the store would have signed the key on a
    second request. *)
Lemma get_run_result_no_retry_on_same_key :
  let '(r, w) := main.get_run_result engine_same_key "r1" succeeded_world in
  r = Raise main.RESULT_NOT_AVAILABLE
  /\ filter is_presign (trace w) = [EvPresign "inputs" (PStr "output/a.csv")]
  /\ presign_answer engine_same_key w (PStr "output/a.csv")
     = Presigned "http://127.0.0.1:9000/inputs/output/a.csv".
Proof. repeat split. Qed.

(** C2, amended.  When the presign request for [object_name] fails with an
    object-store error:
    - a run without engine name fails as unavailable at once;
    - otherwise the output artifacts of the workflow are fetched again and
      their first object-store key is the fallback key;
    - a fallback key that is missing or equal to [object_name] fails as
      unavailable, without a second presign request;
    - a fallback key that differs is first saved as the [result_object] of
      the run, then presigned, once: the URL is returned if the store signs
      it, an object-store error fails as unavailable. *)
Theorem presign_fallback_once E run_id argo_name object_name w msg :
  presign_answer E w object_name = PresignS3Error msg ->
  let w1 := after_presign w object_name in
  (truthy argo_name = false ->
   main.presign_or_fallback E run_id argo_name object_name w
   = (Raise main.RESULT_NOT_AVAILABLE, w1))
  /\ (truthy argo_name = true ->
      forall artifacts fallback_key,
        fst (argo.get_output_artifacts E argo_name w1) = Ok artifacts ->
        main._extract_result_key_from_artifacts artifacts = Ok fallback_key ->
        let w2 := after_get w1 (workflow_url argo_name) [] in
        (truthy fallback_key && negb (py_eq fallback_key object_name) = false ->
         main.presign_or_fallback E run_id argo_name object_name w
         = (Raise main.RESULT_NOT_AVAILABLE, w2))
        /\ (truthy fallback_key && negb (py_eq fallback_key object_name) = true ->
            forall fields,
              readable w = true ->
              dict_get (loaded_runs w) run_id = Some (PDict fields) ->
              exists data run,
                let w3 := after_save w2 data in
                dict_get (stored_runs w3) run_id = Some (PDict run)
                /\ entries.record_get run "result_object" = fallback_key
                /\ main.presign_or_fallback E run_id argo_name object_name w
                   = (match presign_answer E w3 fallback_key with
                      | Presigned url => Ok (main.download run_id url)
                      | PresignS3Error _ => Raise main.RESULT_NOT_AVAILABLE
                      | PresignError kind m => Raise (PyError kind m)
                      end, after_presign w3 fallback_key))).
Proof.
  intros Hfail w1.
  assert (Hfirst : main.generate_presigned_url E object_name w
                   = (Raise (S3Error msg), w1)).
  { rewrite generate_presigned_url_eq. now rewrite Hfail. }
  split.
  - intros Ha. unfold main.presign_or_fallback, try_except, bind.
    rewrite Hfirst. now rewrite Ha.
  - intros Ha artifacts fallback_key Hart Hkey w2.
    destruct (argo.get_output_artifacts E argo_name w1) as [r w2'] eqn:Hget.
    cbn [fst] in Hart. subst r.
    pose proof (get_output_artifacts_world _ _ _ _ _ Hget) as Hw2.
    fold w2 in Hw2. subst w2'.
    split.
    + intros Hsame. unfold main.presign_or_fallback, try_except, bind.
      rewrite Hfirst, Ha, Hget. unfold lift. rewrite Hkey. now rewrite Hsame.
    + intros Hdiff fields Hr Hrun.
      apply andb_true_iff in Hdiff. destruct Hdiff as [Htk Hne].
      assert (Hr2 : readable w2 = true) by exact Hr.
      assert (Hrun2 : dict_get (loaded_runs w2) run_id = Some (PDict fields))
        by exact Hrun.
      destruct (update_result_object E w2 run_id fields fallback_key Hr2 Hrun2 Htk)
        as (Hup & Hstored & Hres).
      eexists _, _. cbn zeta. split; [exact Hstored|]. split; [exact Hres|].
      unfold main.presign_or_fallback, try_except, bind.
      rewrite Hfirst, Ha, Hget. unfold lift. rewrite Hkey, Htk, Hne.
      cbn [andb]. rewrite Hup. rewrite generate_presigned_url_eq.
      destruct (presign_answer E _ fallback_key); reflexivity.
Qed.

Lemma presign_fallback_once_witness :
  let w := after_save (after_get succeeded_world wf1_url [])
             (PDict [("runs", PDict [("r1", succeeded_record)])]) in
  exists data run,
    let w3 := after_save (after_get (after_presign w (PStr "output/a.csv")) wf1_url [])
                         data in
    dict_get (stored_runs w3) "r1" = Some (PDict run)
    /\ entries.record_get run "result_object" = PStr "output/b.csv"
    /\ main.presign_or_fallback engine_other_key "r1" (PStr "wf-1")
         (PStr "output/a.csv") w
       = (Ok (main.download "r1" "http://127.0.0.1:9000/inputs/output/b.csv"),
          after_presign w3 (PStr "output/b.csv")).
Proof.
  intros w.
  refine (proj2 (proj2 (presign_fallback_once engine_other_key "r1" (PStr "wf-1")
                          (PStr "output/a.csv") w "NoSuchKey" eq_refl)
                   eq_refl _ (PStr "output/b.csv") eq_refl eq_refl)
            eq_refl _ eq_refl eq_refl).
Defined.

(** ** C4: the parameters written into the spec *)

Section Templater.

Import argo.

Lemma map_result_nth {A B} (f : A -> result B) l l' i a :
  map_result f l = Ok l' ->
  nth_error l i = Some a ->
  exists b, nth_error l' i = Some b /\ f a = Ok b.
Proof.
  revert l' i. induction l as [|x l IH]; intros l' i Hmap Hnth.
  - destruct i; discriminate.
  - cbn [map_result] in Hmap.
    destruct (f x) as [b|e] eqn:Hfx; [|discriminate]. cbn [bind_result] in Hmap.
    destruct (map_result f l) as [bs|e] eqn:Hrest; [|discriminate].
    cbn [bind_result] in Hmap. inversion Hmap; subst l'.
    destruct i as [|i]; cbn [nth_error] in *.
    + inversion Hnth; subst. now exists b.
    + now apply (IH bs).
Qed.

Lemma map_result_ext {A B} (f g : A -> result B) l :
  (forall a, In a l -> f a = g a) -> map_result f l = map_result g l.
Proof.
  induction l as [|x l IH]; intros H; [reflexivity|].
  cbn [map_result]. rewrite (H x (or_introl eq_refl)).
  rewrite IH; [reflexivity|]. intros a Ha. apply H. now right.
Qed.

Lemma map_result_nil_inv {A B} (f : A -> result B) l :
  map_result f l = Ok [] -> l = [].
Proof.
  destruct l as [|x l]; [reflexivity|]. cbn [map_result].
  destruct (f x); [|discriminate]. cbn [bind_result].
  destruct (map_result f l); discriminate.
Qed.

Lemma fill_param_supplied parameters param param' :
  fill_param parameters param = Ok param' ->
  match supplied parameters param with
  | Some value => py_setitem param "value" (PStr (py_str value)) = Ok param'
  | None => param' = param
  end.
Proof.
  unfold fill_param, supplied.
  destruct (py_get param "name") as [name|e]; cbn [bind_result]; [|discriminate].
  destruct name; cbn [py_in_dict bind_result py_str];
    try (intros H; now inversion H); try discriminate.
  unfold dict_mem. destruct (dict_get parameters s) as [[| | | | |]|];
    intros H; first [exact H | now inversion H].
Qed.

Lemma fill_param_agree p1 p2 param :
  (forall name, py_get param "name" = Ok (PStr name) ->
                dict_get p1 name = dict_get p2 name) ->
  fill_param p1 param = fill_param p2 param.
Proof.
  intros H. unfold fill_param.
  destruct (py_get param "name") as [name|e]; cbn [bind_result]; [|reflexivity].
  destruct name; cbn [py_in_dict bind_result py_str]; try reflexivity.
  unfold dict_mem. rewrite (H s eq_refl). reflexivity.
Qed.

(** No string has a [get]: a loop over the keys of a dictionary or over
    the characters of a string stops at its first item. *)
Lemma map_result_strings {B} (f : pyval -> result B) items :
  (forall s, exists e, f (PStr s) = Raise e) ->
  Forall (fun item => exists s, item = PStr s) items ->
  forall out, map_result f items = Ok out -> items = [].
Proof.
  intros Hf Hall out. destruct items as [|x items]; [reflexivity|].
  inversion Hall as [|? ? [s ->] _]; subst. cbn [map_result].
  destruct (Hf s) as [e ->]. discriminate.
Qed.

Lemma chars_strings s : Forall (fun item => exists c, item = PStr c) (chars s).
Proof. induction s; simpl; constructor; [now eexists | assumption]. Qed.

Lemma keys_strings (d : dict) :
  Forall (fun item => exists c, item = PStr c) (map (fun kv => PStr (fst kv)) d).
Proof. induction d; simpl; constructor; [now eexists | assumption]. Qed.

Lemma fill_template_declared parameters template template' :
  fill_template parameters template = Ok template' ->
  map_result (fill_param parameters) (declared_of template)
  = Ok (declared_of template').
Proof.
  unfold fill_template, declared_of.
  destruct (py_get_default template "inputs" (PDict [])) as [inputs|e] eqn:Hin;
    cbn [bind_result]; [|discriminate].
  destruct (py_get_default inputs "parameters" (PList [])) as [declared|e] eqn:Hde;
    cbn [bind_result]; [|discriminate].
  destruct (py_iter declared) as [items|e] eqn:Hit; cbn [bind_result]; [|discriminate].
  destruct (map_result (fill_param parameters) items) as [items'|e] eqn:Hmap;
    cbn [bind_result]; [|discriminate].
  assert (Hnone : items = [] -> items' = []).
  { intros ->. cbn in Hmap. now inversion Hmap. }
  assert (Hstr : forall s, exists e, fill_param parameters (PStr s) = Raise e).
  { intros s. eexists. reflexivity. }
  destruct declared as [| | |s|[|d ds]|d]; try discriminate.
  - (* a string *)
    intros H. inversion H; subst template'. rewrite Hin. cbn [bind_result].
    rewrite Hde. cbn [bind_result]. rewrite Hit.
    cbn in Hit. inversion Hit; subst items.
    rewrite (map_result_strings _ _ Hstr (chars_strings s) _ Hmap) in *.
    now rewrite Hnone.
  - (* the empty list *)
    intros H. inversion H; subst template'. rewrite Hin. cbn [bind_result].
    rewrite Hde. cbn [bind_result]. rewrite Hit.
    cbn in Hit. inversion Hit; subst items. now rewrite Hnone.
  - (* a list of declared parameters, changed in place *)
    destruct inputs; try discriminate. destruct template; try discriminate.
    cbn [py_setitem bind_result]. intros H. inversion H; subst template'.
    cbn [py_get_default]. rewrite dict_get_set_same. cbn [bind_result py_get_default].
    rewrite dict_get_set_same. cbn [bind_result py_iter]. reflexivity.
  - (* a dictionary *)
    intros H. inversion H; subst template'. rewrite Hin. cbn [bind_result].
    rewrite Hde. cbn [bind_result]. rewrite Hit.
    cbn in Hit. inversion Hit; subst items.
    rewrite (map_result_strings _ _ Hstr (keys_strings d) _ Hmap) in *.
    now rewrite Hnone.
Qed.

Lemma fill_template_agree p1 p2 template :
  (forall param name, In param (declared_of template) ->
                      py_get param "name" = Ok (PStr name) ->
                      dict_get p1 name = dict_get p2 name) ->
  fill_template p1 template = fill_template p2 template.
Proof.
  unfold fill_template, declared_of. intros H.
  destruct (py_get_default template "inputs" (PDict [])) as [inputs|e];
    cbn [bind_result] in *; [|reflexivity].
  destruct (py_get_default inputs "parameters" (PList [])) as [declared|e];
    cbn [bind_result] in *; [|reflexivity].
  destruct (py_iter declared) as [items|e]; cbn [bind_result] in *; [|reflexivity].
  rewrite (map_result_ext (fill_param p1) (fill_param p2) items); [reflexivity|].
  intros param Hparam. apply fill_param_agree. intros name. now apply H.
Qed.

Lemma fill_parameters_templates parameters workflow_spec filled :
  parameters <> [] ->
  fill_parameters (Some parameters) workflow_spec = Ok filled ->
  map_result (fill_template parameters) (templates_of workflow_spec)
  = Ok (templates_of filled).
Proof.
  intros Hne. unfold fill_parameters, templates_of.
  destruct parameters as [|p ps]; [contradiction|]. set (parameters := p :: ps).
  destruct (py_item workflow_spec "spec") as [spec|e] eqn:Hsp;
    cbn [bind_result]; [|discriminate].
  destruct (py_item spec "templates") as [templates|e] eqn:Hte;
    cbn [bind_result]; [|discriminate].
  destruct (py_iter templates) as [items|e] eqn:Hit; cbn [bind_result]; [|discriminate].
  destruct (map_result (fill_template parameters) items) as [items'|e] eqn:Hmap;
    cbn [bind_result]; [|discriminate].
  assert (Hnone : items = [] -> items' = []).
  { intros ->. cbn in Hmap. now inversion Hmap. }
  assert (Hstr : forall s, exists e, fill_template parameters (PStr s) = Raise e).
  { intros s. eexists. reflexivity. }
  destruct templates as [| | |s|[|d ds]|d]; try discriminate.
  - intros H. inversion H; subst filled. rewrite Hsp. cbn [bind_result].
    rewrite Hte. cbn [bind_result]. rewrite Hit.
    cbn in Hit. inversion Hit; subst items.
    rewrite (map_result_strings _ _ Hstr (chars_strings s) _ Hmap) in *.
    now rewrite Hnone.
  - intros H. inversion H; subst filled. rewrite Hsp. cbn [bind_result].
    rewrite Hte. cbn [bind_result]. rewrite Hit.
    cbn in Hit. inversion Hit; subst items. now rewrite Hnone.
  - destruct spec; try discriminate. destruct workflow_spec; try discriminate.
    cbn [py_setitem bind_result]. intros H. inversion H; subst filled.
    cbn [py_item]. rewrite dict_get_set_same. cbn [bind_result py_item].
    rewrite dict_get_set_same. cbn [bind_result py_iter]. reflexivity.
  - intros H. inversion H; subst filled. rewrite Hsp. cbn [bind_result].
    rewrite Hte. cbn [bind_result]. rewrite Hit.
    cbn in Hit. inversion Hit; subst items.
    rewrite (map_result_strings _ _ Hstr (keys_strings d) _ Hmap) in *.
    now rewrite Hnone.
Qed.

End Templater.

(** C4, as the specification states it, fails for a value that is empty
    but not [None]: the caller's empty string for [pip_packages] replaces
    the default [numpy] of the template. *)
Lemma fill_parameters_writes_empty_string :
  map declared_of (templates_of custom_spec)
  = [[PDict [("name", PStr "input_file_name")];
      PDict [("name", PStr "pip_packages"); ("value", PStr "numpy")]]]
  /\ exists filled,
       argo.fill_parameters (Some [("pip_packages", PStr "")]) custom_spec = Ok filled
       /\ map declared_of (templates_of filled)
          = [[PDict [("name", PStr "input_file_name")];
              PDict [("name", PStr "pip_packages"); ("value", PStr "")]]].
Proof. split; [reflexivity|]. eexists. split; reflexivity. Qed.

(** C4, amended.  Whenever the parameters are written into a spec without
    an error, every parameter declared by a step of the filled spec is the
    declared parameter of the spec at the same place, with its [value] set
    to the caller's value as a string exactly when the parameter's name is
    a key of the mapping and the value is not [None] (an empty string is
    written), and unchanged otherwise.  Two non-empty mappings that agree
    on the declared names give the same filled spec: what the caller passes
    under other names has no effect. *)
Theorem fill_parameters_overwrites parameters workflow_spec filled :
  argo.fill_parameters (Some parameters) workflow_spec = Ok filled ->
  (forall i j template param,
     nth_error (templates_of workflow_spec) i = Some template ->
     nth_error (declared_of template) j = Some param ->
     exists template' param',
       nth_error (templates_of filled) i = Some template'
       /\ nth_error (declared_of template') j = Some param'
       /\ match supplied parameters param with
          | Some value => py_setitem param "value" (PStr (py_str value)) = Ok param'
          | None => param' = param
          end)
  /\ (forall others,
        parameters <> [] -> others <> [] ->
        (forall name, declared_name workflow_spec name ->
                      dict_get others name = dict_get parameters name) ->
        argo.fill_parameters (Some others) workflow_spec = Ok filled).
Proof.
  intros Hfill. split.
  - intros i j template param Ht Hp.
    destruct parameters as [|p ps].
    + cbn in Hfill. inversion Hfill; subst filled.
      exists template, param. split; [exact Ht|]. split; [exact Hp|].
      unfold supplied. destruct (py_get param "name") as [[| | |name| |]|]; reflexivity.
    + assert (Hne : p :: ps <> []) by discriminate.
      pose proof (fill_parameters_templates _ _ _ Hne Hfill) as Hts.
      destruct (map_result_nth _ _ _ _ _ Hts Ht) as (template' & Ht' & Hft).
      pose proof (fill_template_declared _ _ _ Hft) as Hps.
      destruct (map_result_nth _ _ _ _ _ Hps Hp) as (param' & Hp' & Hfp).
      exists template', param'. split; [exact Ht'|]. split; [exact Hp'|].
      now apply fill_param_supplied.
  - intros others Hne Hne' Hagree. rewrite <- Hfill.
    destruct parameters as [|p ps]; [contradiction|].
    destruct others as [|o os]; [contradiction|].
    unfold argo.fill_parameters.
    assert (Hts : forall items,
               (let? spec := py_item workflow_spec "spec" in
                let? templates := py_item spec "templates" in
                py_iter templates) = Ok items ->
               templates_of workflow_spec = items).
    { intros items H. unfold templates_of. now rewrite H. }
    destruct (py_item workflow_spec "spec") as [spec|e];
      cbn [bind_result] in *; [|reflexivity].
    destruct (py_item spec "templates") as [templates|e];
      cbn [bind_result] in *; [|reflexivity].
    destruct (py_iter templates) as [items|e]; cbn [bind_result] in *; [|reflexivity].
    specialize (Hts items eq_refl).
    rewrite (map_result_ext (argo.fill_template (o :: os))
                                 (argo.fill_template (p :: ps)) items);
      [reflexivity|].
    intros template Htemplate. apply fill_template_agree.
    intros param name Hparam Hname. apply Hagree.
    exists template, param. rewrite Hts. now repeat split.
Qed.

Lemma fill_parameters_overwrites_witness :
  exists filled,
    argo.fill_parameters (Some [("input_file_name", PStr "a.csv"); ("epochs", PInt 3)])
                         custom_spec = Ok filled
    /\ forall i j template param,
         nth_error (templates_of custom_spec) i = Some template ->
         nth_error (declared_of template) j = Some param ->
         exists template' param',
           nth_error (templates_of filled) i = Some template'
           /\ nth_error (declared_of template') j = Some param'
           /\ match supplied [("input_file_name", PStr "a.csv"); ("epochs", PInt 3)] param with
              | Some value => py_setitem param "value" (PStr (py_str value)) = Ok param'
              | None => param' = param
              end.
Proof.
  eexists. split; [reflexivity|].
  apply (fill_parameters_overwrites
           [("input_file_name", PStr "a.csv"); ("epochs", PInt 3)] custom_spec).
  reflexivity.
Defined.

Example fill_parameters_custom :
  match argo.fill_parameters (Some [("input_file_name", PStr "a.csv"); ("epochs", PInt 3)])
                             custom_spec with
  | Ok filled =>
      map declared_of (templates_of filled)
      = [[PDict [("name", PStr "input_file_name"); ("value", PStr "a.csv")];
          PDict [("name", PStr "pip_packages"); ("value", PStr "numpy")]]]
  | Raise _ => False
  end.
Proof. reflexivity. Qed.

(** ** C6: the order of the log sections *)

Section StringOrder.

Lemma ascii_compare_refl c : Ascii.compare c c = Eq.
Proof. unfold Ascii.compare. apply N.compare_refl. Qed.

Lemma ascii_compare_trans c1 c2 c3 o :
  Ascii.compare c1 c2 = o -> Ascii.compare c2 c3 = o -> Ascii.compare c1 c3 = o.
Proof.
  unfold Ascii.compare. intros H1 H2. destruct o.
  - apply N.compare_eq in H1, H2. rewrite H1, H2. apply N.compare_refl.
  - rewrite N.compare_lt_iff in *. lia.
  - rewrite N.compare_gt_iff in *. lia.
Qed.

Lemma ascii_compare_eq c1 c2 : Ascii.compare c1 c2 = Eq -> c1 = c2.
Proof. apply Ascii.compare_eq_iff. Qed.

Lemma string_leb_trans s1 s2 s3 :
  String.leb s1 s2 = true -> String.leb s2 s3 = true -> String.leb s1 s3 = true.
Proof.
  unfold String.leb. revert s2 s3.
  induction s1 as [|c1 s1 IH]; intros [|c2 s2] [|c3 s3]; cbn [String.compare];
    try reflexivity; try discriminate.
  destruct (Ascii.compare c1 c2) eqn:H12; try discriminate;
    destruct (Ascii.compare c2 c3) eqn:H23; try discriminate; intros H1 H2.
  - rewrite (ascii_compare_trans _ _ _ _ H12 H23). exact (IH s2 s3 H1 H2).
  - apply ascii_compare_eq in H12. subst c2. now rewrite H23.
  - apply ascii_compare_eq in H23. subst c3. now rewrite H12.
  - now rewrite (ascii_compare_trans _ _ _ _ H12 H23).
Qed.

Lemma string_ltb_leb s1 s2 : String.ltb s1 s2 = true -> String.leb s1 s2 = true.
Proof. unfold String.ltb, String.leb. now destruct (String.compare s1 s2). Qed.

Lemma string_not_ltb_leb s1 s2 : String.ltb s1 s2 = false -> String.leb s2 s1 = true.
Proof.
  unfold String.ltb, String.leb. rewrite (String.compare_antisym s1 s2).
  now destruct (String.compare s2 s1).
Qed.

Lemma string_compare_refl s : String.compare s s = Eq.
Proof.
  induction s as [|c s IH]; cbn [String.compare]; [reflexivity|].
  now rewrite ascii_compare_refl.
Qed.

Lemma string_ltb_neq s1 s2 : String.ltb s1 s2 = true -> (s1 =? s2) = false.
Proof.
  unfold String.ltb. intros H. apply String.eqb_neq. intros ->.
  now rewrite string_compare_refl in H.
Qed.

Lemma string_leb_empty s : String.leb "" s = true.
Proof. now destruct s. Qed.

End StringOrder.

Section SortFacts.

Import argo.

Lemma started_before_trans a b c :
  started_before a b -> started_before b c -> started_before a c.
Proof. apply string_leb_trans. Qed.

Lemma start_time_entry_of node : start_time (entry_of node) = PStr (started_at node).
Proof. reflexivity. Qed.

Lemma insert_entry_sorted x sorted :
  exists out,
    insert_entry (entry_of x) (map entry_of sorted) = Ok (map entry_of out)
    /\ Permutation (x :: sorted) out
    /\ (StronglySorted started_before sorted -> StronglySorted started_before out)
    /\ forall s, filter (started_is s) out = filter (started_is s) (x :: sorted).
Proof.
  induction sorted as [|y rest IH].
  - exists [x]. repeat split; auto.
    intros _. constructor; constructor.
  - cbn [insert_entry map]. rewrite !start_time_entry_of. cbn [py_lt bind_result].
    destruct (String.ltb (started_at y) (started_at x)) eqn:Hlt.
    + destruct IH as (out & Hins & Hperm & Hsorted & Hstable).
      rewrite Hins. cbn [bind_result]. exists (y :: out).
      split; [reflexivity|]. split; [|split].
      * eapply perm_trans; [apply perm_swap|]. now constructor.
      * intros Hs. inversion Hs as [|? ? Hs' Hhd]; subst.
        constructor; [now apply Hsorted|].
        apply (Permutation_Forall Hperm). constructor; [|exact Hhd].
        now apply string_ltb_leb.
      * intros s. cbn [filter]. rewrite Hstable. cbn [filter].
        destruct (started_is s y) eqn:Hys; [|reflexivity].
        assert (Hxs : started_is s x = false).
        { unfold started_is in *. apply String.eqb_eq in Hys. rewrite <- Hys.
          apply string_ltb_neq in Hlt. now rewrite String.eqb_sym. }
        now rewrite Hxs.
    + exists (x :: y :: rest). repeat split; auto.
      intros Hs. constructor; [exact Hs|].
      apply string_not_ltb_leb in Hlt.
      inversion Hs as [|? ? Hs' Hhd]; subst. constructor; [exact Hlt|].
      eapply Forall_impl; [|exact Hhd]. intros z Hz.
      now apply (started_before_trans x y z).
Qed.

Lemma sort_entries_sorted nodes :
  exists sorted,
    sort_entries (map entry_of nodes) = Ok (map entry_of sorted)
    /\ Permutation nodes sorted
    /\ StronglySorted started_before sorted
    /\ forall s, filter (started_is s) sorted = filter (started_is s) nodes.
Proof.
  induction nodes as [|x rest IH].
  - exists []. repeat split; auto. constructor.
  - destruct IH as (sorted & Hsort & Hperm & Hsorted & Hstable).
    destruct (insert_entry_sorted x sorted) as (out & Hins & Hperm' & Hsorted' & Hstable').
    exists out. cbn [sort_entries map]. rewrite Hsort. cbn [bind_result].
    split; [exact Hins|]. split; [|split; [now apply Hsorted'|]].
    + eapply perm_trans; [|exact Hperm']. now constructor.
    + intros s. rewrite Hstable'. cbn [filter]. now rewrite Hstable.
Qed.

Lemma sorted_nodes_unique l1 : forall l2,
  StronglySorted started_before l1 ->
  StronglySorted started_before l2 ->
  Permutation l1 l2 ->
  NoDup (map started_at l1) ->
  l1 = l2.
Proof.
  induction l1 as [|a l1 IH]; intros l2 Hs1 Hs2 Hperm Hnd.
  - apply Permutation_nil in Hperm. now subst.
  - destruct l2 as [|b l2].
    { apply Permutation_sym, Permutation_nil in Hperm. discriminate. }
    inversion Hs1 as [|? ? Hs1' Hhd1]; subst.
    inversion Hs2 as [|? ? Hs2' Hhd2]; subst.
    inversion Hnd as [|? ? Hfresh Hnd']; subst.
    rewrite Forall_forall in Hhd1, Hhd2.
    assert (Hab : a = b).
    { assert (Hb : In b (a :: l1)).
      { apply (Permutation_in b (Permutation_sym Hperm)). now left. }
      assert (Ha : In a (b :: l2)).
      { apply (Permutation_in a Hperm). now left. }
      destruct Hb as [Hb|Hb]; [exact Hb|].
      destruct Ha as [Ha|Ha]; [now symmetry|].
      exfalso. apply Hfresh.
      rewrite (String.leb_antisym _ _ (Hhd1 _ Hb) (Hhd2 _ Ha)).
      now apply in_map. }
    subst b. f_equal. apply IH; auto.
    now apply Permutation_cons_inv in Hperm.
Qed.

Lemma string_leb_empty_r s : String.leb s "" = true -> s = "".
Proof. now destruct s. Qed.

(** In a list in the order of the start times, the nodes without start
    time are at the front. *)
Lemma sorted_nodes_front l :
  StronglySorted started_before l ->
  exists later,
    l = (filter (started_is "") l ++ later)%list
    /\ Forall (fun node => started_at node <> "") later.
Proof.
  induction l as [|a l IH]; intros Hs.
  - exists []. now split.
  - inversion Hs as [|? ? Hs' Hhd]; subst. cbn [filter]. unfold started_is at 1.
    destruct (String.eqb_spec (started_at a) "") as [Ha|Ha].
    + destruct (IH Hs') as (later & Hl & Hlater). exists later.
      split; [|exact Hlater]. cbn [app]. now rewrite <- Hl.
    + assert (Hlate : Forall (fun node => started_at node <> "") l).
      { eapply Forall_impl; [|exact Hhd]. intros b Hb Hempty.
        unfold started_before in Hb. rewrite Hempty in Hb.
        now apply string_leb_empty_r in Hb. }
      assert (Hnone : filter (started_is "") l = []).
      { clear -Hlate. induction Hlate as [|b l Hb _ IH]; [reflexivity|].
        cbn [filter]. unfold started_is at 1.
        now destruct (String.eqb_spec (started_at b) ""). }
      rewrite Hnone. exists (a :: l). split; [reflexivity|]. now constructor.
Qed.

Lemma entry_of_fields fields :
  match dict_get fields "startedAt" with
  | Some (PStr _) | None => True
  | Some v => truthy v = false
  end ->
  (py_or (entries.record_get fields "startedAt") (PStr ""),
   py_or (py_or (entries.record_get fields "displayName")
                (entries.record_get fields "name"))
         (entries.record_get fields "podName"),
   entries.record_get fields "podName",
   match dict_get fields "phase" with
   | Some phase => phase
   | None => PStr "Unknown"
   end)
  = entry_of (PDict fields).
Proof.
  intros Hstart. unfold entry_of, section_of, started_at. cbn [node_fields].
  rewrite py_or_field_or. do 3 (apply (f_equal2 pair); [|reflexivity]).
  unfold py_or, entries.record_get.
  destruct (dict_get fields "startedAt") as [v|]; [|reflexivity].
  destruct v as [|b|z|t|items|d]; cbn [truthy] in *;
    try (rewrite Hstart; reflexivity); try reflexivity.
  now destruct t.
Qed.

(** The loop of [_extract_pod_nodes] keeps the pod nodes of the
    document, in the order of the document. *)
Lemma collect_pod_entries_nodes nodes :
  Forall timed nodes ->
  collect_pod_entries nodes = Ok (map entry_of (filter is_pod nodes)).
Proof.
  induction 1 as [|node nodes (fields & -> & Hstart) _ IH]; [reflexivity|].
  cbn [collect_pod_entries filter]. rewrite !py_get_dict. cbn [bind_result].
  change (truthy (entries.record_get fields "podName")) with (is_pod (PDict fields)).
  destruct (is_pod (PDict fields)) eqn:Hpod; cbn [negb]; [|exact IH].
  cbn [py_get_default bind_result]. rewrite IH. cbn [bind_result map].
  now rewrite (entry_of_fields fields (Hstart eq_refl)).
Qed.

Lemma extract_pod_nodes_of workflow nodes :
  nodes_of workflow = Some nodes ->
  Forall timed nodes ->
  _extract_pod_nodes workflow
  = let? sorted := sort_entries (map entry_of (filter is_pod nodes)) in
    Ok (map (fun entry : pod_entry => let '(_, d, p, ph) := entry in (d, p, ph)) sorted).
Proof.
  intros Hnodes Htimed.
  assert (Hnone : nodes = [] ->
                  (let? pod_entries := collect_pod_entries (dict_values []) in
                   let? pod_entries := sort_entries pod_entries in
                   Ok (map (fun entry : pod_entry =>
                              let '(_, d, p, ph) := entry in (d, p, ph)) pod_entries))
                  = let? sorted := sort_entries (map entry_of (filter is_pod nodes)) in
                    Ok (map (fun entry : pod_entry =>
                               let '(_, d, p, ph) := entry in (d, p, ph)) sorted)).
  { now intros ->. }
  unfold _extract_pod_nodes, nodes_of in *.
  destruct workflow as [| | | | |document]; try discriminate.
  cbn [py_get_default bind_result].
  destruct (dict_get document "status") as [status|].
  2: { inversion Hnodes; subst nodes. now apply Hnone. }
  destruct status as [| | | | |status]; try discriminate.
  cbn [py_get_default bind_result].
  destruct (dict_get status "nodes") as [found|].
  2: { inversion Hnodes; subst nodes. now apply Hnone. }
  destruct found as [|b|z|t|items|d].
  - inversion Hnodes; subst nodes. now apply Hnone.
  - unfold py_or. destruct (truthy (PBool b)); [discriminate|].
    inversion Hnodes; subst nodes. now apply Hnone.
  - unfold py_or. destruct (truthy (PInt z)); [discriminate|].
    inversion Hnodes; subst nodes. now apply Hnone.
  - unfold py_or. destruct (truthy (PStr t)); [discriminate|].
    inversion Hnodes; subst nodes. now apply Hnone.
  - unfold py_or. destruct (truthy (PList items)); [discriminate|].
    inversion Hnodes; subst nodes. now apply Hnone.
  - inversion Hnodes; subst nodes. unfold py_or.
    destruct d as [|item d]; [now apply Hnone|].
    cbn [truthy as_dict bind_result].
    now rewrite (collect_pod_entries_nodes _ Htimed).
Qed.

Lemma extract_pod_nodes_sorted workflow nodes sorted :
  nodes_of workflow = Some nodes ->
  Forall timed nodes ->
  sort_entries (map entry_of (filter is_pod nodes)) = Ok (map entry_of sorted) ->
  _extract_pod_nodes workflow = Ok (map section_of sorted).
Proof.
  intros Hnodes Htimed Hsort.
  rewrite (extract_pod_nodes_of _ _ Hnodes Htimed), Hsort. cbn [bind_result].
  rewrite map_map. f_equal.
Qed.

End SortFacts.

(** C6.  For every workflow document whose nodes are records and whose
    pods have a text (or no) start time, [_extract_pod_nodes] returns the
    sections of a list of nodes that
    - has the pod nodes of the document, each once (a permutation),
    - is ordered by start time ascending, as text, a missing start time
      being the empty text,
    - keeps the nodes of equal start time in the order of the document,
    - begins with the pod nodes without start time, in the order of the
      document, before every node that has one,
    whatever the order of the nodes in the document. *)
Theorem extract_pod_nodes_ordered workflow nodes :
  nodes_of workflow = Some nodes ->
  Forall timed nodes ->
  let pods := filter is_pod nodes in
  exists sorted,
    argo._extract_pod_nodes workflow = Ok (map section_of sorted)
    /\ Permutation pods sorted
    /\ StronglySorted started_before sorted
    /\ (forall s, filter (started_is s) sorted = filter (started_is s) pods)
    /\ (exists later,
          sorted = (filter (started_is "") pods ++ later)%list
          /\ Forall (fun node => started_at node <> "") later)
    /\ (forall workflow' nodes',
          nodes_of workflow' = Some nodes' ->
          Forall timed nodes' ->
          Permutation pods (filter is_pod nodes') ->
          NoDup (map started_at pods) ->
          argo._extract_pod_nodes workflow' = Ok (map section_of sorted)).
Proof.
  intros Hnodes Htimed pods.
  destruct (sort_entries_sorted pods) as (sorted & Hsort & Hperm & Hsorted & Hstable).
  exists sorted.
  split; [exact (extract_pod_nodes_sorted _ _ _ Hnodes Htimed Hsort)|].
  split; [exact Hperm|]. split; [exact Hsorted|]. split; [exact Hstable|]. split.
  - destruct (sorted_nodes_front sorted Hsorted) as (later & Hl & Hlater).
    exists later. split; [|exact Hlater]. now rewrite <- Hstable.
  - intros workflow' nodes' Hnodes' Htimed' Hperm' Hnd.
    destruct (sort_entries_sorted (filter is_pod nodes'))
      as (sorted' & Hsort' & Hperm'' & Hsorted' & _).
    rewrite (extract_pod_nodes_sorted _ _ _ Hnodes' Htimed' Hsort').
    do 2 f_equal. apply sorted_nodes_unique; auto.
    + eapply perm_trans; [apply Permutation_sym, Hperm''|].
      eapply perm_trans; [apply Permutation_sym, Hperm'|exact Hperm].
    + apply (Permutation_NoDup (l := map started_at pods)); [|exact Hnd].
      apply Permutation_map. eapply perm_trans; [exact Hperm'|exact Hperm''].
Qed.

Example three_pods_ordered :
  argo._extract_pod_nodes three_pods
  = Ok [(PStr "load", PStr "wf-1-load", PStr "Succeeded");
        (PStr "train", PStr "wf-1-train", PStr "Succeeded");
        (PStr "save", PStr "wf-1-save", PStr "Succeeded")].
Proof. reflexivity. Qed.

(** The pods that have not started come first, in the order of the
    document. *)
Example waiting_pods_first :
  argo._extract_pod_nodes waiting_pods
  = Ok [(PStr "wf-2.train", PStr "wf-2-train", PStr "Pending");
        (PStr "wf-2-save", PStr "wf-2-save", PStr "Unknown");
        (PStr "load", PStr "wf-2-load", PStr "Succeeded")].
Proof. reflexivity. Qed.

Lemma extract_pod_nodes_ordered_witness :
  exists nodes sorted,
    nodes_of waiting_pods = Some nodes
    /\ argo._extract_pod_nodes waiting_pods = Ok (map section_of sorted)
    /\ Permutation (filter is_pod nodes) sorted
    /\ StronglySorted started_before sorted
    /\ exists later,
         sorted = (filter (started_is "") (filter is_pod nodes) ++ later)%list
         /\ Forall (fun node => started_at node <> "") later.
Proof.
  eexists.
  assert (Htimed : Forall timed
            [pod_node "load" "wf-2-load" "2025-01-01T00:01:00Z";
             PDict [("name", PStr "wf-2.train"); ("podName", PStr "wf-2-train");
                    ("phase", PStr "Pending")];
             PDict [("displayName", PStr "wf-2")];
             PDict [("podName", PStr "wf-2-save"); ("startedAt", PNone)]]).
  { repeat constructor; eexists; (split; [reflexivity|]); intros _; exact I || reflexivity. }
  destruct (extract_pod_nodes_ordered waiting_pods _ eq_refl Htimed)
    as (sorted & Heq & Hperm & Hsorted & _ & Hfront & _).
  exists sorted. split; [reflexivity|]. split; [exact Heq|].
  split; [exact Hperm|]. split; assumption.
Defined.

(** ** C5: the containers asked for the logs of a pod *)

Lemma dict_set_set (d : dict) k v1 v2 :
  dict_set (dict_set d k v1) k v2 = dict_set d k v2.
Proof.
  induction d as [|[k' v'] d IH]; simpl.
  - now rewrite String.eqb_refl.
  - destruct (k' =? k) eqn:Hk; simpl.
    + now rewrite String.eqb_refl.
    + now rewrite Hk, IH.
Qed.

(** One turn of the loop of [_fetch_logs_from_argo]: one request, and the
    text of the answer or the exception. *)
Lemma request_text E url params w :
  (response <- argo.requests_get E url params ;;
   lift (argo.raise_for_status response) ;;;
   ret (text response)) w
  = (log_answer E (length (trace w)) url params, after_get w url params).
Proof.
  unfold bind, argo.requests_get, log_answer, after_get, lift, ret.
  destruct (http_get E (length (trace w)) url params) as [r|kind msg]; [|reflexivity].
  now destruct (argo.raise_for_status r).
Qed.

Lemma fetch_main E name tail_lines pod_name w :
  let url := argo.log_url name in
  let params := container_params tail_lines pod_name "main" in
  argo._fetch_logs_from_argo E name tail_lines pod_name [] w
  = (log_answer E (length (trace w)) url params, after_get w url params).
Proof.
  cbn zeta. unfold argo._fetch_logs_from_argo. cbn [argo.fetch_containers].
  unfold try_except. rewrite request_text. fold (container_params tail_lines pod_name "main").
  now destruct (log_answer E (length (trace w)) _ _).
Qed.

Lemma fetch_wait_main E name tail_lines pod_name w :
  let url := argo.log_url name in
  let params := container_params tail_lines pod_name in
  let w1 := after_get w url (params "wait") in
  argo._fetch_logs_from_argo E name tail_lines pod_name ["wait"; "main"] w
  = match log_answer E (length (trace w)) url (params "wait") with
    | Ok log_text => (Ok log_text, w1)
    | Raise _ =>
        (log_answer E (S (length (trace w))) url (params "main"),
         after_get w1 url (params "main"))
    end.
Proof.
  cbn zeta. unfold container_params, argo._fetch_logs_from_argo.
  cbn [argo.fetch_containers]. unfold try_except at 1. rewrite request_text.
  destruct (log_answer E (length (trace w)) _ _) as [log_text|e]; [reflexivity|].
  unfold try_except. rewrite request_text, dict_set_set.
  cbn [after_get trace length].
  now destruct (log_answer E _ _ _).
Qed.

(** C5, as the specification states it, fails: the [main] container has
    no logs yet, the [wait] container answers with blank text, and the
    body is the placeholder after two requests, although [main], asked in
    its turn, would have answered with logs. *)
Lemma pod_body_keeps_blank_wait :
  let '(body, w) := argo.pod_body engine_quiet_wait (PStr "wf-1") (PInt 200)
                      (PStr "wf-1-train") empty_world in
  body = Ok argo.NO_LOG_OUTPUT
  /\ map (fun e => match e with
                   | EvGet _ params => entries.record_get params "logOptions.container"
                   | _ => PNone
                   end) (trace w)
     = [PStr "wait"; PStr "main"]
  /\ body_as_specified engine_quiet_wait 0 (PStr "wf-1") (PInt 200) (PStr "wf-1-train")
     = "epoch 1 done"
  /\ body <> Ok (body_as_specified engine_quiet_wait 0 (PStr "wf-1") (PInt 200)
                   (PStr "wf-1-train")).
Proof. repeat split. discriminate. Qed.

(** A text of blanks that are not ASCII is blank: the [wait] container is
    asked. *)
Example pod_body_unicode_blank :
  let '(body, w) := argo.pod_body engine_nbsp_main (PStr "wf-1") (PInt 200)
                      (PStr "wf-1-train") empty_world in
  body = Ok "waiting for main"
  /\ map (fun e => match e with
                   | EvGet _ params => entries.record_get params "logOptions.container"
                   | _ => PNone
                   end) (trace w)
     = [PStr "wait"; PStr "main"].
Proof. repeat split. Qed.

(** C5, amended.  For every pod node, the logs of the container [main]
    are requested first.  If the request fails, the body tells the
    failure; if the text is not blank, it is the body.  If it is blank, one
    retry asks the container [wait] and, only if that request fails, the
    container [main] again: the text of the first request that succeeds is
    kept, blank or not, and a blank text gives the placeholder
    "(no log output yet)".  No other request is made. *)
Theorem pod_body_requests E name tail_lines pod_name w :
  let t := length (trace w) in
  let url := argo.log_url name in
  let params := container_params tail_lines pod_name in
  let w1 := after_get w url (params "main") in
  let w2 := after_get w1 url (params "wait") in
  let w3 := after_get w2 url (params "main") in
  argo.pod_body E name tail_lines pod_name w
  = match log_answer E t url (params "main") with
    | Raise exc => (Ok (argo.failure_body pod_name exc), w1)
    | Ok log_text =>
        if strip log_text =? "" then
          match log_answer E (S t) url (params "wait") with
          | Ok log_text => (Ok (argo.log_body log_text), w2)
          | Raise _ =>
              match log_answer E (S (S t)) url (params "main") with
              | Ok log_text => (Ok (argo.log_body log_text), w3)
              | Raise exc => (Ok (argo.failure_body pod_name exc), w3)
              end
          end
        else (Ok (strip log_text), w1)
    end.
Proof.
  cbn zeta. unfold argo.pod_body, try_except, bind at 1.
  rewrite fetch_main.
  destruct (log_answer E (length (trace w)) _ _) as [log_text|exc]; [|reflexivity].
  unfold bind. destruct (strip log_text =? "") eqn:Hblank.
  - rewrite fetch_wait_main. cbn [after_get trace length].
    destruct (log_answer E (S (length (trace w))) _ _) as [log_text2|exc2];
      [reflexivity|].
    now destruct (log_answer E (S (S (length (trace w)))) _ _).
  - unfold ret, argo.log_body. now rewrite Hblank.
Qed.

(** ** C7: a pod whose logs cannot be fetched *)

(** The body of a pod is always there: no failure of a log request
    leaves the loop of [get_workflow_logs]. *)
Lemma pod_body_total E name tail_lines pod_name w :
  exists body w', argo.pod_body E name tail_lines pod_name w = (Ok body, w').
Proof.
  unfold argo.pod_body, try_except, bind at 1. rewrite fetch_main.
  destruct (log_answer E (length (trace w)) _ _) as [log_text|exc];
    [|now eexists _, _].
  unfold bind. destruct (strip log_text =? ""); [|now eexists _, _].
  rewrite fetch_wait_main.
  destruct (log_answer E _ _ _) as [log_text2|exc2]; [now eexists _, _|].
  destruct (log_answer E _ _ _); now eexists _, _.
Qed.

(** Every pod node gets its section, whatever the engine answers. *)
Lemma pod_sections_total E name tail_lines pod_nodes : forall w,
  exists sections w',
    argo.pod_sections E name tail_lines pod_nodes w = (Ok sections, w')
    /\ Forall2 (fun node section =>
                  let '(display_name, pod_name, phase) := node in
                  exists body,
                    section = argo.section_header display_name pod_name phase
                              ++ argo.newline ++ body)
               pod_nodes sections.
Proof.
  induction pod_nodes as [|[[display_name pod_name] phase] rest IH]; intros w.
  - exists [], w. split; [reflexivity | constructor].
  - cbn [argo.pod_sections]. unfold bind.
    destruct (pod_body_total E name tail_lines pod_name w) as (body & w1 & ->).
    destruct (IH w1) as (sections & w2 & -> & Hall).
    eexists _, _. split; [reflexivity|]. constructor; [now exists body | exact Hall].
Qed.

(** C7.  The aggregation goes on after a failure and the logs of the
    other pods are returned, but the section of the failing pod does not
    tell the HTTP status: for the workflow [three_pods], whose pod [train]
    answers 500 to the log request, the section of [train] reads
    "(HTTP unknown)", between the logs of [load] and of [save]. *)
Theorem get_workflow_logs_hides_http_status :
  fst (argo.get_workflow_logs engine_three_pods (PStr "wf-1") (PInt 200) empty_world)
  = Ok (join (argo.newline ++ argo.newline)
          ["=== load [wf-1-load] (phase: Succeeded) ===" ++ argo.newline
           ++ "loading a.csv";
           "=== train [wf-1-train] (phase: Succeeded) ===" ++ argo.newline
           ++ "Failed to fetch logs for pod wf-1-train (HTTP unknown).";
           "=== save [wf-1-save] (phase: Succeeded) ===" ++ argo.newline
           ++ "saved output/a.csv"])
  /\ log_answer engine_three_pods 2 wf1_log_url
       (container_params (PInt 200) (PStr "wf-1-train") "main")
     = Raise (HTTPError 500
                ("500 Server Error: Internal Server Error for url: " ++ wf1_log_url))
  /\ argo.failure_body (PStr "wf-1-train") (HTTPError 500 "")
     <> "Failed to fetch logs for pod wf-1-train (HTTP 500).".
Proof. split; [reflexivity|]. split; [reflexivity | discriminate]. Qed.

(** * Further properties of the registry *)

Section RegistryMore.

Import entries.

Lemma dict_get_update d u k :
  NoDup (dict_keys u) ->
  dict_get (dict_update d u) k
  = match dict_get u k with Some v => Some v | None => dict_get d k end.
Proof.
  unfold dict_update. revert d. induction u as [|[k1 v1] u IH]; intros d Hnd.
  - reflexivity.
  - inversion Hnd as [|? ? Hfresh Hnd']; subst. cbn [fold_left fst snd dict_get].
    rewrite (IH _ Hnd'). destruct (String.eqb_spec k1 k) as [->|Hne].
    + apply dict_get_none_keys in Hfresh. rewrite Hfresh. apply dict_get_set_same.
    + now rewrite dict_get_set_other.
Qed.

(** A second backfill of a record changes nothing. *)
Lemma backfill_idempotent fields fields' changed :
  _backfill_result_object (PDict fields) = Ok (PDict fields', changed) ->
  _backfill_result_object (PDict fields') = Ok (PDict fields', false).
Proof.
  unfold _backfill_result_object at 1. rewrite !py_get_dict. cbn [bind_result].
  destruct (truthy (record_get fields "result_object")) eqn:Hres; cbn [bind_result].
  - intros H. inversion H; subst. now apply backfill_settled.
  - destruct (truthy (record_get fields "parameters")) eqn:Hpar; cbn [bind_result negb].
    + assert (Hset : forall v, _backfill_result_object
                (PDict (dict_set fields "result_object" (PStr ("output/" ++ v))))
              = Ok (PDict (dict_set fields "result_object" (PStr ("output/" ++ v))), false)).
      { intros v. apply backfill_settled. unfold record_get.
        now rewrite dict_get_set_same. }
      assert (Hsame : _backfill_result_object (PDict fields) = Ok (PDict fields, false) ->
                      PDict fields' = PDict fields ->
                      _backfill_result_object (PDict fields') = Ok (PDict fields', false)).
      { intros H1 H2. now rewrite H2. }
      destruct (py_eq (record_get fields "workflow") (PStr "llm")
                && truthy (record_get fields "input_file_name")) eqn:Hllm.
      * cbn. intros H. inversion H; subst. apply Hset.
      * destruct (py_eq (record_get fields "workflow") (PStr "ctgan")
                  && truthy (record_get fields "input_file_name")) eqn:Hct.
        -- cbn. intros H. inversion H; subst. apply Hset.
        -- intros H. inversion H; subst.
           unfold _backfill_result_object. rewrite !py_get_dict. cbn [bind_result].
           rewrite Hres. cbn [bind_result]. rewrite Hpar. cbn [bind_result negb].
           now rewrite Hllm, Hct.
    + intros H. inversion H; subst.
      unfold _backfill_result_object. rewrite !py_get_dict. cbn [bind_result].
      rewrite Hres. cbn [bind_result]. now rewrite Hpar.
Qed.

Lemma backfill_unchanged fields fields' :
  _backfill_result_object (PDict fields) = Ok (PDict fields', false) -> fields' = fields.
Proof.
  unfold _backfill_result_object. rewrite !py_get_dict. cbn [bind_result].
  destruct (truthy (record_get fields "result_object")); cbn [bind_result].
  - intros H. now inversion H.
  - destruct (truthy (record_get fields "parameters")); cbn [bind_result negb].
    + destruct (py_eq _ (PStr "llm") && _); [cbn; discriminate|].
      destruct (py_eq _ (PStr "ctgan") && _); [cbn; discriminate|].
      intros H. now inversion H.
    + intros H. now inversion H.
Qed.

Lemma loaded_runs_after_save w state runs :
  normalized_runs runs ->
  loaded_runs (after_save w (PDict (dict_set state "runs" (PDict runs)))) = runs.
Proof.
  intros Hn. unfold loaded_runs, stored_runs, file_data, after_save. cbn [file].
  rewrite dict_get_set_same. now apply normalize_runs_fixed.
Qed.

Lemma readable_after_save w d : readable (after_save w (PDict d)) = true.
Proof. reflexivity. Qed.

Lemma loaded_runs_normalized w : normalized_runs (loaded_runs w).
Proof. apply normalize_runs_normalized. Qed.

Lemma loaded_record w run_id run :
  dict_get (loaded_runs w) run_id = Some run -> normalized_record run_id run.
Proof.
  intros Hget. destruct (loaded_runs_normalized w) as [_ Hall].
  rewrite Forall_forall in Hall. exact (Hall _ (dict_get_in _ _ _ Hget)).
Qed.

Lemma get_run_settled w run_id fields :
  readable w = true ->
  dict_get (loaded_runs w) run_id = Some (PDict fields) ->
  _backfill_result_object (PDict fields) = Ok (PDict fields, false) ->
  get_run run_id w = (Ok (PDict fields), w).
Proof.
  intros Hr Hget Hb. unfold get_run, bind. rewrite (load_state_readable _ Hr).
  unfold lift. cbn [py_item]. rewrite dict_get_set_same.
  cbn [py_get py_get_default]. rewrite Hget.
  destruct (loaded_record _ _ _ Hget) as (f & Hf & Hid & _). inversion Hf; subst f.
  assert (Ht : truthy (PDict fields) = true) by (destruct fields; [discriminate|reflexivity]).
  rewrite Ht, Hb. reflexivity.
Qed.

End RegistryMore.

(** X1.  For an id that the registry does not have, [get_run] and
    [update_run_entry] return [None] and leave the world as it is: nothing
    is written. *)
Theorem unknown_run_is_none E w run_id updates :
  readable w = true ->
  dict_get (loaded_runs w) run_id = None ->
  entries.get_run run_id w = (Ok PNone, w)
  /\ entries.update_run_entry E (PStr run_id) updates w = (Ok PNone, w).
Proof.
  intros Hr Hget. split.
  - unfold entries.get_run, bind. rewrite (load_state_readable _ Hr).
    unfold lift. cbn [py_item]. rewrite dict_get_set_same.
    cbn [py_get py_get_default]. now rewrite Hget.
  - unfold entries.update_run_entry, bind. rewrite (load_state_readable _ Hr).
    unfold lift. cbn [py_item]. rewrite dict_get_set_same.
    cbn [bind_result as_dict py_in_dict]. unfold dict_mem. now rewrite Hget.
Qed.

Lemma unknown_run_is_none_witness :
  entries.get_run "r2" unfilled_world = (Ok PNone, unfilled_world)
  /\ entries.update_run_entry silent (PStr "r2") [("status", PNone)] unfilled_world
     = (Ok PNone, unfilled_world).
Proof. apply (unknown_run_is_none silent unfilled_world "r2"); reflexivity. Defined.

(** X2.  An update of a record of the registry is a shallow merge that
    is saved: apart from [updated_at], which is set to the time of the
    update, and [result_object], which the backfill may set, every field
    named by the updates has the new value and every other field keeps its
    value; a read of the run after the update returns the updated record
    and writes nothing.  The updates name neither [run_id] nor [runID]. *)
Theorem update_run_entry_merges E w run_id fields updates :
  readable w = true ->
  dict_get (loaded_runs w) run_id = Some (PDict fields) ->
  NoDup (dict_keys updates) ->
  dict_get updates "run_id" = None ->
  dict_get updates "runID" = None ->
  exists run data,
    entries.update_run_entry E (PStr run_id) updates w
    = (Ok (PDict run), after_save w data)
    /\ dict_get run "updated_at" = Some (PStr (utcnow E (length (trace w))))
    /\ (forall k, k <> "updated_at" -> k <> "result_object" ->
                  dict_get run k = match dict_get updates k with
                                   | Some v => Some v
                                   | None => dict_get fields k
                                   end)
    /\ entries.get_run run_id (after_save w data) = (Ok (PDict run), after_save w data).
Proof.
  intros Hr Hget Hnd Hid Hlegacy.
  destruct (loaded_record _ _ _ Hget) as (f & Hf & Hfid & Hflegacy).
  inversion Hf; subst f. clear Hf.
  set (now := utcnow E (length (trace w))).
  set (merged := dict_set (dict_update fields updates) "updated_at" (PStr now)).
  destruct (backfill_dict merged) as (run & changed & Hb & Hshape).
  assert (Hmerged : forall k, k <> "updated_at" ->
            dict_get merged k = match dict_get updates k with
                                | Some v => Some v
                                | None => dict_get fields k
                                end).
  { intros k Hk. unfold merged. rewrite dict_get_set_other by congruence.
    now apply dict_get_update. }
  assert (Hrun : forall k, k <> "result_object" -> dict_get run k = dict_get merged k).
  { intros k Hk. destruct Hshape as [->|[key ->]]; [reflexivity|].
    rewrite dict_get_set_other by congruence. reflexivity. }
  assert (Hnorm : normalized_record run_id (PDict run)).
  { exists run. split; [reflexivity|]. split.
    - rewrite Hrun by discriminate. rewrite Hmerged by discriminate. now rewrite Hid.
    - rewrite Hrun by discriminate. rewrite Hmerged by discriminate. now rewrite Hlegacy. }
  set (runs1 := dict_set (loaded_runs w) run_id (PDict run)).
  set (state := dict_set (file_data w) "runs" (PDict (loaded_runs w))).
  exists run, (PDict (dict_set state "runs" (PDict runs1))).
  assert (Hnorm1 : normalized_runs runs1).
  { destruct (loaded_runs_normalized w) as [Hn Hall]. split.
    - now apply dict_set_NoDup.
    - now apply dict_set_Forall. }
  split; [|split; [|split]].
  - unfold entries.update_run_entry, bind. rewrite (load_state_readable _ Hr).
    unfold lift. cbn [py_item]. rewrite dict_get_set_same.
    cbn [bind_result as_dict py_in_dict]. unfold dict_mem. rewrite Hget.
    cbn [negb py_str]. rewrite Hget. cbn [bind_result as_dict].
    unfold entries._now. fold now. fold merged. rewrite Hb.
    unfold entries.set_run. cbn [py_item]. rewrite dict_get_set_same.
    reflexivity.
  - rewrite Hrun by discriminate. unfold merged. apply dict_get_set_same.
  - intros k Hk1 Hk2. rewrite Hrun by exact Hk2. now apply Hmerged.
  - apply get_run_settled.
    + reflexivity.
    + rewrite (loaded_runs_after_save w state runs1 Hnorm1). apply dict_get_set_same.
    + exact (backfill_idempotent _ _ _ Hb).
Qed.

Lemma update_run_entry_merges_witness :
  exists run data,
    entries.update_run_entry silent (PStr "r1")
      [("status", PDict [("phase", PStr "Running")])] unfilled_world
    = (Ok (PDict run), after_save unfilled_world data)
    /\ dict_get run "status" = Some (PDict [("phase", PStr "Running")])
    /\ dict_get run "workflow" = Some (PStr "llm").
Proof.
  assert (Hnd : NoDup (dict_keys [("status", PDict [("phase", PStr "Running")])])).
  { constructor; [intros [] | constructor]. }
  destruct (update_run_entry_merges silent unfilled_world "r1" _
              [("status", PDict [("phase", PStr "Running")])]
              eq_refl eq_refl Hnd eq_refl eq_refl)
    as (run & data & Hup & _ & Hfields & _).
  exists run, data. split; [exact Hup|]. split.
  - now rewrite Hfields by discriminate.
  - now rewrite Hfields by discriminate.
Defined.

Section RegistryCreate.

Import entries.

Lemma create_run_entry_present E w run_id record :
  readable w = true ->
  dict_mem (loaded_runs w) run_id = true ->
  create_run_entry E run_id record w
  = (Raise (PyError "ValueError" ("Run " ++ run_id ++ " already exists")), w).
Proof.
  intros Hr Hmem. unfold create_run_entry, bind.
  rewrite (load_state_readable _ Hr). unfold lift. cbn [py_item].
  rewrite dict_get_set_same. cbn [bind_result as_dict]. now rewrite Hmem.
Qed.

End RegistryCreate.

(** X3.  A run created under a non-empty id that the registry does not
    have is stored and saved: the returned record carries the id and one
    and the same time as [created_at] and [updated_at], and every other
    field of the given record as it was given; the saved file holds the
    returned record under the id and keeps every other run; a later load
    presents the record with the same fields (but a legacy [runID]); and
    a second creation under the same id is refused and leaves the saved
    registry as it is. *)
Theorem create_run_entry_stores E w run_id record :
  readable w = true ->
  dict_mem (loaded_runs w) run_id = false ->
  run_id <> "" ->
  exists stored data,
    entries.create_run_entry E run_id record w
    = (Ok (PDict stored), after_save w data)
    /\ dict_get stored "run_id" = Some (PStr run_id)
    /\ dict_get stored "created_at" = Some (PStr (utcnow E (length (trace w))))
    /\ dict_get stored "updated_at" = Some (PStr (utcnow E (length (trace w))))
    /\ dict_mem (loaded_runs (after_save w data)) run_id = true
    /\ (forall record',
         entries.create_run_entry E run_id record' (after_save w data)
         = (Raise (PyError "ValueError" ("Run " ++ run_id ++ " already exists")),
            after_save w data))
    /\ (forall k, k <> "run_id" -> k <> "created_at" -> k <> "updated_at" ->
                  dict_get stored k = dict_get record k)
    /\ dict_get (stored_runs (after_save w data)) run_id = Some (PDict stored)
    /\ (forall k, k <> run_id ->
                  dict_get (stored_runs (after_save w data)) k
                  = dict_get (loaded_runs w) k)
    /\ exists loaded,
         dict_get (loaded_runs (after_save w data)) run_id = Some (PDict loaded)
         /\ forall k, k <> "runID" -> dict_get loaded k = dict_get stored k.
Proof.
  intros Hr Hfresh Hne.
  set (now := utcnow E (length (trace w))).
  set (stored := dict_update record [("run_id", PStr run_id);
                                     ("created_at", PStr now);
                                     ("updated_at", PStr now)]).
  set (state := dict_set (file_data w) "runs" (PDict (loaded_runs w))).
  set (runs1 := dict_set (loaded_runs w) run_id (PDict stored)).
  exists stored, (PDict (dict_set state "runs" (PDict runs1))).
  assert (Hnd : NoDup (dict_keys [("run_id", PStr run_id); ("created_at", PStr now);
                                  ("updated_at", PStr now)])).
  { repeat constructor; simpl; intuition discriminate. }
  assert (Hid : dict_get stored "run_id" = Some (PStr run_id)).
  { unfold stored. now rewrite dict_get_update. }
  assert (Hsaved : stored_runs (after_save w (PDict (dict_set state "runs"
                                                       (PDict runs1)))) = runs1).
  { unfold stored_runs, file_data, after_save. cbn [file].
    now rewrite dict_get_set_same. }
  assert (Hor : forall b, py_or (py_or (PStr run_id) b) (PStr run_id) = PStr run_id).
  { intros b. unfold py_or. cbn [truthy].
    destruct run_id; [contradiction | reflexivity]. }
  assert (Hmem : dict_mem (loaded_runs (after_save w (PDict (dict_set state "runs"
                                                              (PDict runs1))))) run_id
                 = true).
  { unfold loaded_runs. rewrite Hsaved.
    assert (Hin : In (run_id, PDict stored) runs1).
    { apply dict_get_in. apply dict_get_set_same. }
    pose proof (normalize_runs_member _ _ _ Hin) as Hm.
    unfold entries.normalize_record in Hm. cbn [fst] in Hm.
    unfold entries.record_get in Hm. rewrite Hid in Hm.
    now rewrite Hor in Hm. }
  split; [|split; [exact Hid|split; [|split; [|split; [exact Hmem|split]]]]].
  - unfold entries.create_run_entry, bind. rewrite (load_state_readable _ Hr).
    unfold lift. cbn [py_item]. rewrite dict_get_set_same.
    cbn [bind_result as_dict]. rewrite Hfresh. unfold entries._now. fold now.
    fold stored. unfold entries.set_run. cbn [py_item]. rewrite dict_get_set_same.
    reflexivity.
  - unfold stored. now rewrite dict_get_update.
  - unfold stored. now rewrite dict_get_update.
  - intros record'. now apply create_run_entry_present.
  - split; [|split; [|split]].
    + intros k H1 H2 H3. unfold stored. rewrite dict_get_update by exact Hnd.
      cbn [dict_get].
      apply String.eqb_neq in H1, H2, H3. rewrite String.eqb_sym in H1, H2, H3.
      now rewrite H1, H2, H3.
    + rewrite Hsaved. apply dict_get_set_same.
    + intros k Hk. rewrite Hsaved. unfold runs1. now rewrite dict_get_set_other.
    + exists (dict_pop (dict_set stored "run_id" (PStr run_id)) "runID"). split.
      * unfold loaded_runs at 1. rewrite Hsaved. unfold runs1.
        assert (Hnone : dict_get (loaded_runs w) run_id = None).
        { unfold dict_mem in Hfresh. now destruct (dict_get (loaded_runs w) run_id). }
        rewrite (dict_set_fresh _ _ _ Hnone).
        unfold entries._normalize_runs. rewrite fold_left_app.
        fold (entries._normalize_runs (loaded_runs w)).
        rewrite (normalize_runs_fixed _ (loaded_runs_normalized w)).
        cbn [fold_left]. unfold entries.normalize_entry, entries.normalize_record.
        cbn [fst snd]. unfold entries.record_get. rewrite Hid, Hor.
        cbn [py_str]. apply dict_get_set_same.
      * intros k Hk. rewrite dict_get_pop_other by congruence.
        now rewrite (dict_set_unchanged _ _ _ Hid).
Qed.

Lemma create_run_entry_stores_witness :
  exists stored data,
    entries.create_run_entry silent "r2" [("workflow", PStr "custom")] unfilled_world
    = (Ok (PDict stored), after_save unfilled_world data)
    /\ dict_mem (loaded_runs (after_save unfilled_world data)) "r2" = true
    /\ dict_get stored "workflow" = Some (PStr "custom")
    /\ dict_get (stored_runs (after_save unfilled_world data)) "r2"
       = Some (PDict stored).
Proof.
  destruct (create_run_entry_stores silent unfilled_world "r2"
              [("workflow", PStr "custom")] eq_refl eq_refl)
    as (stored & data & Hcreate & _ & _ & _ & Hmem & _ & Hfields & Hsaved & _).
  - discriminate.
  - exists stored, data. repeat split; try assumption.
    now rewrite Hfields by discriminate.
Defined.

(** X4.  The normalization of the runs is idempotent: what a load of the
    registry presents is normalized to itself, so that legacy records
    adopt the current shape once and for all. *)
Theorem normalize_runs_idempotent runs :
  entries._normalize_runs (entries._normalize_runs runs) = entries._normalize_runs runs.
Proof. apply normalize_runs_fixed, normalize_runs_normalized. Qed.

Section ListRuns.

Import entries.

Lemma backfill_each_settled runs runs' dirty :
  Forall (fun item => normalized_record (fst item) (snd item)) runs ->
  backfill_each runs = Ok (runs', dirty) ->
  backfill_each runs' = Ok (runs', false)
  /\ (dirty = false -> runs' = runs).
Proof.
  revert runs' dirty. induction runs as [|[key run] runs IH]; intros runs' dirty Hall.
  - cbn. intros H. inversion H; subst. now split.
  - inversion Hall as [|? ? Hrun Hall']; subst.
    destruct Hrun as (fields & Hf & _). cbn [snd] in Hf. subst run.
    cbn [backfill_each].
    destruct (backfill_dict fields) as (fields' & changed & Hb & _).
    rewrite Hb. cbn [bind_result].
    destruct (backfill_each runs) as [[rest d]|e] eqn:Hrest; [|discriminate].
    cbn [bind_result]. intros H. inversion H; subst.
    destruct (IH _ _ Hall' eq_refl) as [Hrest' Hsame].
    split.
    + cbn [backfill_each]. rewrite (backfill_idempotent _ _ _ Hb). cbn [bind_result].
      now rewrite Hrest'.
    + intros Hd. apply orb_false_iff in Hd. destruct Hd as [-> ->].
      rewrite (backfill_unchanged _ _ Hb). now rewrite Hsame.
Qed.

End ListRuns.

(** X5.  The listing of the runs converges: on every readable registry
    [list_runs] returns a list, and a second [list_runs] returns the same
    list and leaves the world as it is. *)
Theorem list_runs_converges w :
  readable w = true ->
  exists runs w1,
    entries.list_runs w = (Ok runs, w1)
    /\ entries.list_runs w1 = (Ok runs, w1)
    /\ length runs = length (loaded_runs w).
Proof.
  intros Hr.
  destruct (loaded_runs_normalized w) as [Hnd Hall].
  destruct (backfill_each_normalized _ Hall) as (runs' & dirty & Hb & Hkeys & Hall').
  destruct (backfill_each_settled _ _ _ Hall Hb) as [Hsettled Hsame].
  assert (Hlen : length (dict_values runs') = length (loaded_runs w)).
  { unfold dict_values. rewrite length_map.
    rewrite <- (length_map fst runs'), <- (length_map fst (loaded_runs w)).
    unfold dict_keys in Hkeys. now rewrite Hkeys. }
  assert (Hfirst : entries.list_runs w
                   = (Ok (dict_values runs'),
                      if dirty
                      then after_save w
                             (PDict (dict_set (dict_set (file_data w) "runs"
                                                 (PDict (loaded_runs w)))
                                       "runs" (PDict runs')))
                      else w)).
  { unfold entries.list_runs, bind. rewrite (load_state_readable _ Hr).
    unfold lift. cbn [py_item]. rewrite dict_get_set_same.
    cbn [bind_result as_dict]. rewrite Hb. cbn [py_setitem].
    now destruct dirty. }
  destruct dirty.
  - eexists _, _. split; [exact Hfirst|]. split; [|exact Hlen].
    assert (Hnorm' : normalized_runs runs').
    { split; [|exact Hall']. unfold dict_keys in *. now rewrite Hkeys. }
    unfold entries.list_runs, bind.
    rewrite (load_state_readable _ (readable_after_save w _)).
    rewrite loaded_runs_after_save by exact Hnorm'.
    unfold lift. cbn [py_item]. rewrite dict_get_set_same.
    cbn [bind_result as_dict]. rewrite Hsettled. reflexivity.
  - exists (dict_values runs'), w. now repeat split.
Qed.

Lemma list_runs_converges_witness :
  exists runs w1,
    entries.list_runs unfilled_world = (Ok runs, w1)
    /\ entries.list_runs w1 = (Ok runs, w1)
    /\ length runs = 1.
Proof. apply (list_runs_converges unfilled_world). reflexivity. Defined.

(** * Further properties of the endpoints *)

Section Sanitize.

Import main.

Lemma ascii_eqb_sym (a b : ascii) : Ascii.eqb a b = Ascii.eqb b a.
Proof.
  destruct (Ascii.eqb_spec a b) as [->|Hne].
  - now rewrite Ascii.eqb_refl.
  - symmetry. apply Ascii.eqb_neq. congruence.
Qed.

Lemma split_on_parts sep s :
  Forall (fun part => contains_char sep part = false) (split_on sep s).
Proof.
  induction s as [|c s IH]; cbn [split_on].
  - repeat constructor.
  - destruct (Ascii.eqb c sep) eqn:Hc.
    + constructor; [reflexivity | exact IH].
    + destruct (split_on sep s) as [|part parts].
      * constructor; [|constructor]. cbn. now rewrite ascii_eqb_sym, Hc.
      * inversion IH as [|? ? Hpart Hparts]; subst. constructor; [|exact Hparts].
        cbn. now rewrite ascii_eqb_sym, Hc.
Qed.

Lemma last_default_or_in {A} (l : list A) (d : A) : last l d = d \/ In (last l d) l.
Proof.
  induction l as [|a l IH]; [now left|].
  destruct l as [|b l]; [right; now left|].
  destruct IH as [IH|IH].
  - cbn [last] in *. rewrite IH. now left.
  - right. right. exact IH.
Qed.

Lemma path_name_no_slash path : contains_char "/"%char (path_name path) = false.
Proof.
  unfold path_name. destruct (last_default_or_in
    (filter (fun part => negb (part =? "") && negb (part =? "."))
            (split_on "/"%char path)) "") as [->|Hin]; [reflexivity|].
  apply filter_In in Hin. destruct Hin as [Hin _].
  pose proof (split_on_parts "/"%char path) as Hall. rewrite Forall_forall in Hall.
  now apply Hall.
Qed.

Lemma replace_char_keeps_out c old new s :
  Ascii.eqb c new = false ->
  contains_char c s = false ->
  contains_char c (replace_char old new s) = false.
Proof.
  intros Hnew. induction s as [|x s IH]; [reflexivity|]. cbn.
  destruct (Ascii.eqb c x) eqn:Hx; [discriminate|]. intros H.
  destruct (Ascii.eqb x old); [rewrite Hnew | rewrite Hx]; now apply IH.
Qed.

Lemma replace_char_removes old new s :
  Ascii.eqb old new = false ->
  contains_char old (replace_char old new s) = false.
Proof.
  intros Hne. induction s as [|x s IH]; [reflexivity|]. cbn.
  destruct (Ascii.eqb x old) eqn:Hx.
  - now rewrite Hne.
  - now rewrite ascii_eqb_sym, Hx.
Qed.

End Sanitize.

(** X6.  The sanitized file name is a name and not a path: for every
    file name of the upload, or none, it is not empty and has neither a
    slash nor a space. *)
Theorem sanitize_filename_safe filename :
  main._sanitize_filename filename <> ""
  /\ contains_char "/"%char (main._sanitize_filename filename) = false
  /\ contains_char " "%char (main._sanitize_filename filename) = false.
Proof.
  unfold main._sanitize_filename.
  set (name := match filename with
               | Some name => if name =? "" then "dataset.csv" else name
               | None => "dataset.csv"
               end).
  set (safe := main.replace_char " "%char "_"%char (main.path_name name)).
  assert (Hslash : contains_char "/"%char safe = false).
  { apply replace_char_keeps_out; [reflexivity | apply path_name_no_slash]. }
  assert (Hspace : contains_char " "%char safe = false).
  { apply replace_char_removes. reflexivity. }
  destruct (safe =? "") eqn:Hsafe.
  - repeat split. discriminate.
  - apply String.eqb_neq in Hsafe. now repeat split.
Qed.

Example sanitize_filename_examples :
  map main._sanitize_filename
      [Some "my data.csv"; Some "../../etc/passwd"; Some "dir/"; Some "/"; None; Some ""]
  = ["my_data.csv"; "passwd"; "dir"; "dataset.csv"; "dataset.csv"; "dataset.csv"].
Proof. reflexivity. Qed.



Lemma refresh_run_frozen E run w : frozen run -> main.refresh_run E run w = (Ok run, w).
Proof.
  intros (fields & -> & [Hname|(status & phase & Hst & Hp & Hin)]).
  - unfold main.refresh_run, bind, lift. rewrite py_get_dict. now rewrite Hname.
  - now apply (refresh_run_terminal E fields status phase).
Qed.

Lemma refresh_runs_frozen E runs : forall w,
  Forall frozen runs -> main.refresh_runs E runs w = (Ok runs, w).
Proof.
  induction runs as [|run runs IH]; intros w Hall; [reflexivity|].
  inversion Hall as [|? ? Hrun Hrest]; subst.
  cbn [main.refresh_runs]. unfold bind.
  rewrite (refresh_run_frozen E run w Hrun). now rewrite (IH w Hrest).
Qed.

(** X8.  When every run of the list has no engine name or a terminal
    stored phase, the list with refresh is the list without refresh: the
    engine is asked nothing and the records come back as the registry has
    them. *)
Theorem list_runs_frozen E w runs w1 :
  entries.list_runs w = (Ok runs, w1) ->
  Forall frozen runs ->
  main.list_runs E true w = (Ok (PDict [("runs", PList runs)]), w1)
  /\ main.list_runs E true w = main.list_runs E false w.
Proof.
  intros Hlist Hall. unfold main.list_runs, bind. rewrite Hlist. cbn [negb].
  now rewrite (refresh_runs_frozen E runs w1 Hall).
Qed.

Lemma list_runs_frozen_witness :
  main.list_runs silent true succeeded_world
  = (Ok (PDict [("runs", PList [succeeded_record])]), succeeded_world).
Proof.
  apply (list_runs_frozen silent succeeded_world [succeeded_record] succeeded_world).
  - reflexivity.
  - constructor; [|constructor]. eexists. split; [reflexivity|]. right.
    exists (PDict [("phase", PStr "Succeeded")]), "Succeeded". now repeat split.
Defined.

(** X9.  The result key read from the output artifacts is the key of the
    first artifact that names one: a truthy key comes from an artifact
    before which no artifact names a key, and [None] is returned only when
    no artifact names a key. *)
Theorem first_s3_key_first artifacts key :
  main.first_s3_key artifacts = Ok key ->
  if truthy key then
    exists before artifact meta after,
      artifacts = (before ++ artifact :: after)%list
      /\ Forall (fun a => ~ keyed a) before
      /\ py_get artifact "s3" = Ok (PDict meta)
      /\ entries.record_get meta "key" = key
  else key = PNone /\ Forall (fun a => ~ keyed a) artifacts.
Proof.
  revert key. induction artifacts as [|artifact rest IH]; intros key.
  - cbn. intros H. inversion H; subst. cbn. split; [reflexivity | constructor].
  - cbn [main.first_s3_key].
    destruct (py_get artifact "s3") as [s3_meta|e] eqn:Hs3; cbn [bind_result];
      [|discriminate].
    assert (Hskip : ~ keyed artifact ->
              main.first_s3_key rest = Ok key ->
              if truthy key then
                exists before a meta after,
                  artifact :: rest = (before ++ a :: after)%list
                  /\ Forall (fun a => ~ keyed a) before
                  /\ py_get a "s3" = Ok (PDict meta)
                  /\ entries.record_get meta "key" = key
              else key = PNone /\ Forall (fun a => ~ keyed a) (artifact :: rest)).
    { intros Hno Hrest. specialize (IH key Hrest). destruct (truthy key).
      - destruct IH as (before & a & meta & after & -> & Hbefore & Ha & Hk).
        exists (artifact :: before), a, meta, after. repeat split; auto.
      - destruct IH as [-> Hall]. split; [reflexivity|]. now constructor. }
    destruct s3_meta as [| | | | |meta];
      try (apply Hskip; intros (m & Hm & _); rewrite Hs3 in Hm; discriminate).
    destruct (truthy (entries.record_get meta "key")) eqn:Hkey.
    + intros H. inversion H; subst. rewrite Hkey.
      exists [], artifact, meta, rest. repeat split; auto.
    + apply Hskip. intros (m & Hm & Hm'). rewrite Hs3 in Hm. inversion Hm; subst.
      rewrite Hkey in Hm'. discriminate.
Qed.

Lemma first_s3_key_first_witness :
  exists before artifact meta after,
    [PDict [("name", PStr "log")];
     PDict [("name", PStr "result"); ("s3", PDict [("key", PStr "output/a.csv")])]]
    = (before ++ artifact :: after)%list
    /\ Forall (fun a => ~ keyed a) before
    /\ py_get artifact "s3" = Ok (PDict meta)
    /\ entries.record_get meta "key" = PStr "output/a.csv".
Proof.
  exact (first_s3_key_first
           [PDict [("name", PStr "log")];
            PDict [("name", PStr "result"); ("s3", PDict [("key", PStr "output/a.csv")])]]
           (PStr "output/a.csv") eq_refl).
Defined.

(** X10.  The initial status of a submitted run is always there: without
    an engine name it is [Pending] and the engine is not asked; with one,
    the engine is asked once and the status is the one it reports, or
    [Submitted] when the query fails or the workflow is not known.  No
    exception leaves the function. *)
Theorem initial_status_total E argo_name w :
  exists status,
    truthy status = true
    /\ main._initial_status E argo_name w
       = (Ok status, if truthy argo_name
                     then after_get w (workflow_url argo_name) [] else w)
    /\ (truthy argo_name = false -> status = PDict [("phase", PStr "Pending")])
    /\ (truthy argo_name = true ->
        match fst (argo.get_workflow_status E argo_name w) with
        | Ok reported => if truthy reported then status = reported
                         else status = PDict [("phase", PStr "Submitted")]
        | Raise _ => status = PDict [("phase", PStr "Submitted")]
        end).
Proof.
  unfold main._initial_status. destruct (truthy argo_name) eqn:Ht; cbn [negb].
  - unfold try_except, bind.
    destruct (argo.get_workflow_status E argo_name w) as [[reported|e] w1] eqn:Hst;
      rewrite (get_workflow_status_world _ _ _ _ _ Hst); cbn [fst].
    + destruct (truthy reported) eqn:Hr.
      * exists reported. repeat split; auto. discriminate.
      * eexists. repeat split; auto. discriminate.
    + eexists. repeat split; auto. discriminate.
  - eexists. repeat split; auto. discriminate.
Qed.

(** * Further properties of the logs *)

Section LogFailures.

Import argo.

Lemma py_error_engine_failure e : is_py_error e -> is_engine_failure e.
Proof. destruct e; simpl; tauto. Qed.

Lemma py_lt_fails : forall a b, fails_only is_py_error (py_lt a b).
Proof.
  fix py_lt_fails 1.
  intros a. destruct a as [| | | |xs|]; intros v; destruct v as [| | | |ys|];
    try (intros e H; inversion H; exact I).
  cbn [py_lt]. revert ys.
  induction xs as [|x xs IH]; intros [|y ys];
    try (intros e H; inversion H; exact I).
  destruct (py_eq x y).
  - apply IH.
  - apply py_lt_fails.
Qed.

Lemma insert_entry_fails x sorted : fails_only is_py_error (insert_entry x sorted).
Proof.
  induction sorted as [|y rest IH]; cbn [insert_entry].
  - apply fails_only_ok.
  - apply fails_only_bind; [apply py_lt_fails|]. intros before.
    destruct before; [|apply fails_only_ok].
    apply fails_only_bind; [exact IH | intros; apply fails_only_ok].
Qed.

Lemma sort_entries_fails l : fails_only is_py_error (sort_entries l).
Proof.
  induction l as [|x rest IH]; cbn [sort_entries]; [apply fails_only_ok|].
  apply fails_only_bind; [exact IH | intros; apply insert_entry_fails].
Qed.

Lemma collect_pod_entries_fails nodes : fails_only is_py_error (collect_pod_entries nodes).
Proof.
  induction nodes as [|node rest IH]; cbn [collect_pod_entries]; [apply fails_only_ok|].
  repeat first [exact IH | fails_step].
Qed.

Lemma extract_pod_nodes_fails workflow :
  fails_only is_py_error (_extract_pod_nodes workflow).
Proof.
  unfold _extract_pod_nodes.
  repeat first [apply collect_pod_entries_fails | apply sort_entries_fails | fails_step].
Qed.

Lemma raise_for_status_failure r : fails_only is_engine_failure (raise_for_status r).
Proof.
  intros e. unfold raise_for_status.
  destruct (response_ok (status_code r)) eqn:Hok; intros H; inversion H; exact Hok.
Qed.

Lemma get_workflow_failure E name : raises_only is_engine_failure (get_workflow E name).
Proof.
  unfold get_workflow. apply raises_only_bind.
  - eapply raises_only_weaken; [apply py_error_engine_failure | apply requests_get_raises].
  - intros resp. destruct (status_code resp =? 404)%Z; [apply raises_only_ret|].
    apply raises_only_bind; [apply raises_only_lift, raise_for_status_failure|].
    intros _. apply raises_only_lift. unfold response_json.
    destruct (json resp); intros e H; inversion H; exact I.
Qed.

Lemma fetch_containers_failure E url container_list : forall params last_error,
  (forall e, last_error = Some e -> is_engine_failure e) ->
  raises_only is_engine_failure (fetch_containers E url params container_list last_error).
Proof.
  induction container_list as [|container rest IH]; intros params last_error Hlast.
  - cbn [fetch_containers]. destruct last_error as [e|].
    + apply raises_only_raise. now apply Hlast.
    + apply raises_only_ret.
  - cbn [fetch_containers].
    apply raises_only_try_except_of with (P := is_engine_failure).
    + apply raises_only_bind.
      * eapply raises_only_weaken;
          [apply py_error_engine_failure | apply requests_get_raises].
      * intros resp. apply raises_only_bind;
          [apply raises_only_lift, raise_for_status_failure|].
        intros; apply raises_only_ret.
    + intros exc Hexc. apply IH. intros e H. inversion H; now subst.
Qed.

Lemma fetch_logs_failure E name tail_lines pod_name containers :
  raises_only is_engine_failure (_fetch_logs_from_argo E name tail_lines pod_name containers).
Proof.
  unfold _fetch_logs_from_argo. apply fetch_containers_failure. discriminate.
Qed.

Lemma pod_sections_raises E name tail_lines pod_nodes (Q : exn -> Prop) :
  raises_only Q (pod_sections E name tail_lines pod_nodes).
Proof.
  intros w e w' H.
  destruct (pod_sections_total E name tail_lines pod_nodes w) as (s & w1 & Heq & _).
  rewrite Heq in H. discriminate.
Qed.

Lemma get_workflow_logs_failure E name tail_lines :
  raises_only is_engine_failure (get_workflow_logs E name tail_lines).
Proof.
  unfold get_workflow_logs.
  apply raises_only_bind; [apply get_workflow_failure | intros workflow].
  destruct (negb (truthy workflow)); [apply raises_only_raise; exact I|].
  apply raises_only_bind.
  { apply raises_only_lift. eapply fails_only_weaken;
      [apply py_error_engine_failure | apply extract_pod_nodes_fails]. }
  intros [|node nodes]; [apply fetch_logs_failure|].
  apply raises_only_bind; [apply pod_sections_raises | intros sections].
  apply raises_only_bind; [|intros; apply raises_only_ret].
  apply raises_only_try_except. intros; apply raises_only_ret.
Qed.

End LogFailures.

(** X11.  The logs of a workflow with pod nodes are always returned: once
    the workflow document is fetched and at least one pod node is found in
    it, no failure of a log request, for a pod or for the workflow as a
    whole, fails [get_workflow_logs]. *)
Theorem get_workflow_logs_total E name tail_lines w workflow node nodes :
  fst (argo.get_workflow E name w) = Ok workflow ->
  truthy workflow = true ->
  argo._extract_pod_nodes workflow = Ok (node :: nodes) ->
  exists logs w', argo.get_workflow_logs E name tail_lines w = (Ok logs, w').
Proof.
  intros Hget Ht Hnodes. unfold argo.get_workflow_logs, bind.
  destruct (argo.get_workflow E name w) as [r w1]. cbn [fst] in Hget. subst r.
  rewrite Ht. cbn [negb]. unfold lift. rewrite Hnodes.
  destruct (pod_sections_total E name tail_lines (node :: nodes) w1)
    as (sections & w2 & -> & _).
  unfold try_except.
  destruct (argo._fetch_logs_from_argo E name tail_lines PNone [] w2) as [[text|e] w3];
    now eexists _, _.
Qed.

Lemma get_workflow_logs_total_witness :
  exists logs w',
    argo.get_workflow_logs engine_three_pods (PStr "wf-1") (PInt 200) empty_world
    = (Ok logs, w').
Proof.
  eapply (get_workflow_logs_total engine_three_pods (PStr "wf-1") (PInt 200)
            empty_world three_pods); reflexivity.
Defined.

(** X12.  The log endpoint reports every failure of the log fetch as 502:
    whatever the engine answers, [get_run_logs] raises nothing but the two
    404 errors (no such run, no engine name), the 502 error "Failed to fetch
    logs", and the plain errors of a registry that cannot be read. *)
Theorem get_run_logs_errors E run_id tail :
  raises_only is_log_error (main.get_run_logs E run_id tail).
Proof.
  unfold main.get_run_logs. cbn zeta.
  apply raises_only_bind.
  { eapply raises_only_weaken; [|apply entries_get_run_raises]. intros e He. now left. }
  intros run. destruct (negb (truthy run)).
  { apply raises_only_raise. right. now left. }
  apply raises_only_bind.
  { apply raises_only_lift. eapply fails_only_weaken; [|apply py_get_fails].
    intros e He. now left. }
  intros argo_name. destruct (negb (truthy argo_name)).
  { apply raises_only_raise. right. right. now left. }
  apply raises_only_try_except_of with (P := is_engine_failure);
    [apply get_workflow_logs_failure|].
  intros exc Hexc. destruct exc; try contradiction.
  - cbn in Hexc. rewrite Hexc. apply raises_only_raise. right. right. now right.
  - apply raises_only_raise. right. right. now right.
Qed.

Example get_run_logs_not_found :
  fst (main.get_run_logs engine_failed "r1" 0
         (world_of (PDict [("runs", PDict [("r1", PDict [("argo_name", PStr "wf-9")])])])))
  = Raise (HTTPException 502 "Failed to fetch logs").
Proof. reflexivity. Qed.

(** * Further properties of the templater *)

Section TemplaterMore.

Import argo.

Lemma map_result_Forall2 {A B} (f : A -> result B) l l' :
  map_result f l = Ok l' -> Forall2 (fun a b => f a = Ok b) l l'.
Proof.
  revert l'. induction l as [|a l IH]; intros l'; cbn [map_result].
  - intros H. inversion H. constructor.
  - destruct (f a) as [b|e] eqn:Hfa; cbn [bind_result]; [|discriminate].
    destruct (map_result f l) as [bs|e]; cbn [bind_result]; [|discriminate].
    intros H. inversion H; subst. constructor; [exact Hfa | now apply IH].
Qed.

Lemma for_each_template_templates body workflow_spec filled :
  (forall s, exists e, body (PStr s) = Raise e) ->
  for_each_template body workflow_spec = Ok filled ->
  map_result body (templates_of workflow_spec) = Ok (templates_of filled).
Proof.
  intros Hstr. unfold for_each_template, templates_of.
  destruct (py_item workflow_spec "spec") as [spec|e] eqn:Hsp;
    cbn [bind_result]; [|discriminate].
  destruct (py_item spec "templates") as [templates|e] eqn:Hte;
    cbn [bind_result]; [|discriminate].
  destruct (py_iter templates) as [items|e] eqn:Hit; cbn [bind_result]; [|discriminate].
  destruct (map_result body items) as [items'|e] eqn:Hmap;
    cbn [bind_result]; [|discriminate].
  assert (Hnone : items = [] -> items' = []).
  { intros ->. cbn in Hmap. now inversion Hmap. }
  destruct templates as [| | |s|[|d ds]|d]; try discriminate.
  - intros H. inversion H; subst filled. rewrite Hsp. cbn [bind_result].
    rewrite Hte. cbn [bind_result]. rewrite Hit.
    cbn in Hit. inversion Hit; subst items.
    rewrite (map_result_strings _ _ Hstr (chars_strings s) _ Hmap) in *.
    now rewrite Hnone.
  - intros H. inversion H; subst filled. rewrite Hsp. cbn [bind_result].
    rewrite Hte. cbn [bind_result]. rewrite Hit.
    cbn in Hit. inversion Hit; subst items. now rewrite Hnone.
  - destruct spec; try discriminate. destruct workflow_spec; try discriminate.
    cbn [py_setitem bind_result]. intros H. inversion H; subst filled.
    cbn [py_item]. rewrite dict_get_set_same. cbn [bind_result py_item].
    rewrite dict_get_set_same. cbn [bind_result py_iter]. reflexivity.
  - intros H. inversion H; subst filled. rewrite Hsp. cbn [bind_result].
    rewrite Hte. cbn [bind_result]. rewrite Hit.
    cbn in Hit. inversion Hit; subst items.
    rewrite (map_result_strings _ _ Hstr (keys_strings d) _ Hmap) in *.
    now rewrite Hnone.
Qed.

Lemma force_template_artifacts template template' :
  force_template_buckets template = Ok template' ->
  map_result force_artifact_bucket (artifacts_of template) = Ok (artifacts_of template').
Proof.
  unfold force_template_buckets, artifacts_of.
  destruct (py_get_default template "outputs" (PDict [])) as [outputs|e] eqn:Hout;
    cbn [bind_result]; [|discriminate].
  destruct (py_get_default outputs "artifacts" (PList [])) as [artifacts|e] eqn:Har;
    cbn [bind_result]; [|discriminate].
  destruct (py_iter artifacts) as [items|e] eqn:Hit; cbn [bind_result]; [|discriminate].
  destruct (map_result force_artifact_bucket items) as [items'|e] eqn:Hmap;
    cbn [bind_result]; [|discriminate].
  assert (Hnone : items = [] -> items' = []).
  { intros ->. cbn in Hmap. now inversion Hmap. }
  assert (Hstr : forall s, exists e, force_artifact_bucket (PStr s) = Raise e).
  { intros s. eexists. reflexivity. }
  destruct artifacts as [| | |s|[|d ds]|d]; try discriminate.
  - intros H. inversion H; subst template'. rewrite Hout. cbn [bind_result].
    rewrite Har. cbn [bind_result]. rewrite Hit.
    cbn in Hit. inversion Hit; subst items.
    rewrite (map_result_strings _ _ Hstr (chars_strings s) _ Hmap) in *.
    now rewrite Hnone.
  - intros H. inversion H; subst template'. rewrite Hout. cbn [bind_result].
    rewrite Har. cbn [bind_result]. rewrite Hit.
    cbn in Hit. inversion Hit; subst items. now rewrite Hnone.
  - destruct outputs; try discriminate. destruct template; try discriminate.
    cbn [py_setitem bind_result]. intros H. inversion H; subst template'.
    cbn [py_get_default]. rewrite dict_get_set_same. cbn [bind_result py_get_default].
    rewrite dict_get_set_same. cbn [bind_result py_iter]. reflexivity.
  - intros H. inversion H; subst template'. rewrite Hout. cbn [bind_result].
    rewrite Har. cbn [bind_result]. rewrite Hit.
    cbn in Hit. inversion Hit; subst items.
    rewrite (map_result_strings _ _ Hstr (keys_strings d) _ Hmap) in *.
    now rewrite Hnone.
Qed.

Lemma force_artifact_bucket_forced artifact artifact' :
  force_artifact_bucket artifact = Ok artifact' -> bucket_forced artifact artifact'.
Proof.
  unfold force_artifact_bucket, bucket_forced, bucket_of, s3_field.
  destruct artifact as [| | | | |fields]; try discriminate.
  cbn [py_setdefault bind_result].
  set (fields1 := match dict_get fields "s3" with
                  | Some _ => fields
                  | None => dict_set fields "s3" (PDict [])
                  end).
  assert (Hother : forall k, k <> "s3" -> dict_get fields1 k = dict_get fields k).
  { intros k Hk. unfold fields1. destruct (dict_get fields "s3"); [reflexivity|].
    rewrite dict_get_set_other by congruence. reflexivity. }
  assert (Hs3 : match dict_get fields1 "s3" with
                | Some s3 => s3
                | None => PDict []
                end
                = match dict_get fields "s3" with
                  | Some s3 => s3
                  | None => PDict []
                  end).
  { unfold fields1. destruct (dict_get fields "s3") eqn:Hget; [now rewrite Hget|].
    now rewrite dict_get_set_same. }
  cbn [py_item py_get_default]. rewrite <- Hs3.
  destruct (dict_get fields1 "s3") as [s3|]; cbn [bind_result]; [|discriminate].
  destruct s3 as [| | | | |meta]; try discriminate.
  cbn [py_setitem bind_result]. intros H. inversion H; subst artifact'.
  split; [|split].
  - cbn [py_item]. rewrite dict_get_set_same. cbn [bind_result py_item].
    now rewrite dict_get_set_same.
  - intros k Hk. cbn [py_get_default]. rewrite dict_get_set_same.
    cbn [bind_result py_get py_get_default].
    now rewrite dict_get_set_other by congruence.
  - intros k Hk. cbn [py_get py_get_default].
    rewrite dict_get_set_other by congruence. now rewrite Hother.
Qed.

End TemplaterMore.

(** X13.  After the buckets are forced, every output artifact of every
    step is bound to the configured bucket, whatever the template
    declared; the steps and their artifacts are the ones of the template,
    in their order; the [s3] entry of an artifact keeps every field but
    the bucket (the object key among them), and the artifact keeps every
    field beside its [s3] entry. *)
Theorem force_buckets_forced workflow_spec filled :
  argo.force_buckets workflow_spec = Ok filled ->
  Forall2 (fun template template' =>
             Forall2 bucket_forced (artifacts_of template) (artifacts_of template'))
          (templates_of workflow_spec) (templates_of filled).
Proof.
  intros Hforce. unfold argo.force_buckets in Hforce.
  apply for_each_template_templates in Hforce; [|intros s; eexists; reflexivity].
  apply map_result_Forall2 in Hforce.
  eapply Forall2_impl; [|exact Hforce]. intros template template' Ht.
  apply force_template_artifacts, map_result_Forall2 in Ht.
  eapply Forall2_impl; [|exact Ht]. intros artifact artifact'.
  apply force_artifact_bucket_forced.
Qed.

Lemma force_buckets_forced_witness :
  exists filled,
    argo.force_buckets train_spec = Ok filled
    /\ Forall2 (fun template template' =>
                  Forall2 bucket_forced (artifacts_of template) (artifacts_of template'))
               (templates_of train_spec) (templates_of filled).
Proof.
  eexists. split; [reflexivity|].
  apply (force_buckets_forced train_spec). reflexivity.
Defined.

Example force_buckets_train :
  match argo.force_buckets train_spec with
  | Ok filled =>
      map (fun template => map (fun artifact => py_get artifact "s3")
                               (artifacts_of template)) (templates_of filled)
      = [[Ok (PDict [("bucket", PStr "inputs"); ("key", PStr "output/a.csv")])]; []]
  | Raise _ => False
  end.
Proof. reflexivity. Qed.

Section Limits.

Import argo.

Lemma setdefault_item (d : dict) k default :
  exists d1 x,
    py_setdefault (PDict d) k default = Ok (PDict d1)
    /\ dict_get d1 k = Some x.
Proof.
  cbn [py_setdefault]. destruct (dict_get d k) as [x|] eqn:Hget.
  - exists d, x. now split.
  - exists (dict_set d k default), default. split; [reflexivity|].
    apply dict_get_set_same.
Qed.

Lemma set_limit_sets key limit limits requests_res limits' requests_res' :
  set_limit key limit limits requests_res = Ok (limits', requests_res') ->
  (truthy limit = true ->
   py_item limits' key = Ok (PStr (py_str limit))
   /\ py_item requests_res' key = Ok (PStr (py_str limit)))
  /\ (forall k, k <> key ->
                py_item limits' k = py_item limits k
                /\ py_item requests_res' k = py_item requests_res k).
Proof.
  unfold set_limit. destruct (truthy limit).
  - destruct limits as [| | | | |l]; try discriminate.
    cbn [py_setitem bind_result].
    destruct requests_res as [| | | | |q]; try discriminate.
    cbn [py_setitem bind_result]. intros H. inversion H; subst. split.
    + intros _. cbn [py_item]. now rewrite !dict_get_set_same.
    + intros k Hk. cbn [py_item]. now rewrite !dict_get_set_other by congruence.
  - intros H. inversion H; subst. split; [discriminate|]. now split.
Qed.

Lemma limit_template_limited cpu_limit memory_limit template template' :
  limit_template cpu_limit memory_limit template = Ok template' ->
  match py_get template "container" with
  | Ok container =>
      if truthy container
      then limited "cpu" cpu_limit template' /\ limited "memory" memory_limit template'
      else template' = template
  | Raise _ => False
  end.
Proof.
  unfold limit_template.
  destruct (py_get template "container") as [container|e] eqn:Hc;
    cbn [bind_result]; [|discriminate].
  destruct (truthy container); cbn [negb]; [|intros H; now inversion H].
  destruct template as [| | | | |fields]; try discriminate.
  destruct container as [| | | | |cf]; try discriminate.
  destruct (setdefault_item cf "resources"
              (PDict [("limits", PDict []); ("requests", PDict [])]))
    as (cf1 & resources & -> & Hres).
  cbn [bind_result py_item]. rewrite Hres. cbn [bind_result].
  destruct resources as [| | | | |rf]; try discriminate.
  destruct (setdefault_item rf "limits" (PDict [])) as (rf1 & limits & -> & Hlim).
  cbn [bind_result py_item]. rewrite Hlim. cbn [bind_result].
  destruct (setdefault_item rf1 "requests" (PDict []))
    as (rf2 & requests_res & -> & Hreq).
  cbn [bind_result py_item]. rewrite Hreq. cbn [bind_result].
  destruct (set_limit "cpu" cpu_limit limits requests_res) as [[l1 q1]|e] eqn:Hcpu;
    cbn [bind_result]; [|discriminate].
  destruct (set_limit "memory" memory_limit l1 q1) as [[l2 q2]|e] eqn:Hmem;
    cbn [bind_result]; [|discriminate].
  cbn [py_setitem bind_result]. intros H. inversion H; subst template'.
  destruct (set_limit_sets _ _ _ _ _ _ Hcpu) as [Hcpu_set _].
  destruct (set_limit_sets _ _ _ _ _ _ Hmem) as [Hmem_set Hmem_keep].
  set (filled := PDict (dict_set fields "container"
                   (PDict (dict_set cf1 "resources"
                      (PDict (dict_set (dict_set rf2 "limits" l2) "requests" q2)))))).
  assert (Hlimits : forall key, resource_of filled "limits" key = py_item l2 key).
  { intros key. unfold resource_of, filled. cbn [py_item].
    rewrite dict_get_set_same. cbn [bind_result py_item].
    rewrite dict_get_set_same. cbn [bind_result py_item].
    rewrite dict_get_set_other by discriminate.
    now rewrite dict_get_set_same. }
  assert (Hrequests : forall key, resource_of filled "requests" key = py_item q2 key).
  { intros key. unfold resource_of, filled. cbn [py_item].
    rewrite dict_get_set_same. cbn [bind_result py_item].
    rewrite dict_get_set_same. cbn [bind_result py_item].
    now rewrite dict_get_set_same. }
  split; intros Ht; rewrite Hlimits, Hrequests.
  - destruct (Hmem_keep "cpu") as [-> ->]; [discriminate|]. now apply Hcpu_set.
  - now apply Hmem_set.
Qed.

End Limits.

(** X14.  When a CPU or a memory limit is supplied, every step that runs
    a container has, for each supplied resource, the limit and the request
    set to the limit as text, and a step without container is left as it
    is; without any limit the spec is left as it is. *)
Theorem apply_limits_sets cpu_limit memory_limit workflow_spec filled :
  argo.apply_limits cpu_limit memory_limit workflow_spec = Ok filled ->
  if truthy cpu_limit || truthy memory_limit then
    Forall2 (fun template template' =>
               match py_get template "container" with
               | Ok container =>
                   if truthy container
                   then limited "cpu" cpu_limit template'
                        /\ limited "memory" memory_limit template'
                   else template' = template
               | Raise _ => False
               end)
            (templates_of workflow_spec) (templates_of filled)
  else filled = workflow_spec.
Proof.
  unfold argo.apply_limits.
  destruct (truthy cpu_limit || truthy memory_limit); [|intros H; now inversion H].
  intros Hfill.
  apply for_each_template_templates in Hfill; [|intros s; eexists; reflexivity].
  apply map_result_Forall2 in Hfill.
  eapply Forall2_impl; [|exact Hfill]. intros template template'.
  apply limit_template_limited.
Qed.

Lemma apply_limits_sets_witness :
  exists filled,
    argo.apply_limits (PStr "500m") PNone train_spec = Ok filled
    /\ Forall2 (fun template template' =>
                  match py_get template "container" with
                  | Ok container =>
                      if truthy container
                      then limited "cpu" (PStr "500m") template'
                           /\ limited "memory" PNone template'
                      else template' = template
                  | Raise _ => False
                  end)
               (templates_of train_spec) (templates_of filled).
Proof.
  eexists. split; [reflexivity|].
  apply (apply_limits_sets (PStr "500m") PNone train_spec). reflexivity.
Defined.

Example apply_limits_train :
  match argo.apply_limits (PStr "500m") PNone train_spec with
  | Ok filled =>
      map (fun template => py_get template "container") (templates_of filled)
      = [Ok (PDict [("image", PStr "ctgan:latest");
                    ("resources",
                     PDict [("limits", PDict [("memory", PStr "1Gi"); ("cpu", PStr "500m")]);
                            ("requests", PDict [("cpu", PStr "500m")])])]);
         Ok PNone]
  | Raise _ => False
  end.
Proof. reflexivity. Qed.

(** X15.  A workflow the engine does not know is no HTTP error: on a 404
    answer the status is [None] and the output artifacts are the empty
    list, and the logs fail with the error "Workflow <name> not found";
    each after the one request for the document. *)
Theorem unknown_workflow_is_absent E name tail_lines w r :
  http_get E (length (trace w)) (workflow_url name) [] = Responded r ->
  status_code r = 404%Z ->
  let w1 := after_get w (workflow_url name) [] in
  argo.get_workflow_status E name w = (Ok PNone, w1)
  /\ argo.get_output_artifacts E name w = (Ok (PList []), w1)
  /\ argo.get_workflow_logs E name tail_lines w
     = (Raise (PyError "ValueError" ("Workflow " ++ py_str name ++ " not found")), w1).
Proof.
  intros Hget Hcode w1.
  assert (Hwf : argo.get_workflow E name w = (Ok PNone, w1)).
  { unfold argo.get_workflow, bind, argo.requests_get.
    fold (workflow_url name). rewrite Hget, Hcode. reflexivity. }
  unfold argo.get_workflow_status, argo.get_output_artifacts, argo.get_workflow_logs,
    bind. rewrite Hwf. repeat split.
Qed.

Lemma unknown_workflow_is_absent_witness :
  argo.get_workflow_status engine_failed (PStr "wf-9") empty_world
  = (Ok PNone, after_get empty_world (workflow_url (PStr "wf-9")) []).
Proof.
  exact (proj1 (unknown_workflow_is_absent engine_failed (PStr "wf-9") PNone empty_world
                  _ eq_refl eq_refl)).
Defined.

(** * Properties of the cluster nodes *)

Section Strip.

Lemma append_empty s : s ++ "" = s.
Proof. induction s as [|c s IH]; [reflexivity|]. cbn. now rewrite IH. Qed.

Lemma append_append s1 s2 s3 : (s1 ++ s2) ++ s3 = s1 ++ (s2 ++ s3).
Proof. induction s1 as [|c s1 IH]; [reflexivity|]. cbn. now rewrite IH. Qed.

Lemma length_append s1 s2 :
  String.length (s1 ++ s2) = String.length s1 + String.length s2.
Proof. induction s1 as [|c s1 IH]; [reflexivity|]. cbn. now rewrite IH. Qed.

Lemma reversed_append s1 s2 : reversed (s1 ++ s2) = reversed s2 ++ reversed s1.
Proof.
  induction s1 as [|c s1 IH]; cbn [append reversed].
  - now rewrite append_empty.
  - now rewrite IH, append_append.
Qed.

Lemma reversed_reversed s : reversed (reversed s) = s.
Proof.
  induction s as [|c s IH]; [reflexivity|]. cbn [reversed].
  now rewrite reversed_append, IH.
Qed.

Lemma string_length_ind (P : string -> Prop) :
  (forall s, (forall t, String.length t < String.length s -> P t) -> P s) ->
  forall s, P s.
Proof.
  intros step s. remember (String.length s) as n eqn:Hn.
  revert s Hn. induction n as [n IH] using lt_wf_ind.
  intros s ->. apply step. intros t Ht. now apply (IH (String.length t)).
Qed.

Variable two : ascii -> ascii -> bool.
Variable three : ascii -> ascii -> ascii -> bool.

Lemma strip_front_blank s :
  blank_front two three s = true ->
  exists blank rest,
    s = blank ++ rest /\ String.length blank <> 0
    /\ strip_front two three s = strip_front two three rest.
Proof.
  destruct s as [|c1 rest1]; [discriminate|]. cbn [blank_front strip_front].
  destruct (is_space c1).
  { intros _. now exists (String c1 ""), rest1. }
  destruct rest1 as [|c2 rest2]; [discriminate|].
  destruct (two c1 c2).
  { intros _. now exists (String c1 (String c2 "")), rest2. }
  destruct rest2 as [|c3 rest3]; [discriminate|].
  destruct (three c1 c2 c3); [|discriminate].
  intros _. now exists (String c1 (String c2 (String c3 ""))), rest3.
Qed.

Lemma strip_front_fixed s :
  blank_front two three s = false -> strip_front two three s = s.
Proof.
  destruct s as [|c1 rest1]; [reflexivity|]. cbn [blank_front strip_front].
  destruct (is_space c1); [discriminate|].
  destruct rest1 as [|c2 rest2]; [reflexivity|].
  destruct (two c1 c2); [discriminate|].
  destruct rest2 as [|c3 rest3]; [reflexivity|].
  now destruct (three c1 c2 c3).
Qed.

Lemma strip_front_clean s :
  blank_front two three (strip_front two three s) = false.
Proof.
  induction s as [s IH] using string_length_ind.
  destruct (blank_front two three s) eqn:Hs.
  - destruct (strip_front_blank s Hs) as (blank & rest & -> & Hlen & ->).
    apply IH. rewrite length_append. lia.
  - now rewrite strip_front_fixed.
Qed.

Lemma strip_front_suffix s :
  exists blanks, s = blanks ++ strip_front two three s.
Proof.
  induction s as [s IH] using string_length_ind.
  destruct (blank_front two three s) eqn:Hs.
  - destruct (strip_front_blank s Hs) as (blank & rest & -> & Hlen & ->).
    destruct (IH rest) as [blanks Hrest]; [rewrite length_append; lia|].
    exists (blank ++ blanks). now rewrite append_append, <- Hrest.
  - exists "". now rewrite strip_front_fixed.
Qed.

Lemma blank_front_append s rest :
  blank_front two three s = true -> blank_front two three (s ++ rest) = true.
Proof.
  destruct s as [|c1 [|c2 [|c3 s]]]; cbn [blank_front append]; try discriminate.
  - rewrite !orb_false_r. now intros ->.
  - rewrite !orb_false_r. intros H. apply orb_true_iff in H as [->| ->]; [reflexivity|].
    now rewrite orb_true_r.
  - exact (fun H => H).
Qed.

Lemma strip_front_idempotent s :
  strip_front two three (strip_front two three s) = strip_front two three s.
Proof. apply strip_front_fixed, strip_front_clean. Qed.

End Strip.

Lemma rstrip_idempotent s : rstrip (rstrip s) = rstrip s.
Proof. unfold rstrip. now rewrite reversed_reversed, strip_front_idempotent. Qed.

Lemma rstrip_clean s :
  blank_front is_space2 is_space3 s = false ->
  blank_front is_space2 is_space3 (rstrip s) = false.
Proof.
  intros Hs. unfold rstrip.
  destruct (strip_front_suffix (fun c2 c1 => is_space2 c1 c2)
              (fun c3 c2 c1 => is_space3 c1 c2 c3) (reversed s)) as [blanks Hrev].
  apply (f_equal reversed) in Hrev. rewrite reversed_reversed, reversed_append in Hrev.
  destruct (blank_front _ _ (reversed _)) eqn:Hfront; [|reflexivity].
  apply (blank_front_append _ _ _ (reversed blanks)) in Hfront.
  rewrite <- Hrev in Hfront. congruence.
Qed.

Lemma strip_idempotent s : strip (strip s) = strip s.
Proof.
  unfold strip, lstrip.
  rewrite (strip_front_fixed _ _ (rstrip _)).
  - apply rstrip_idempotent.
  - apply rstrip_clean, strip_front_clean.
Qed.

Section Cluster.

Import cluster.

Lemma node_set_role ip role role' :
  dict_set (node ip role) "role" (PStr role') = node ip role'.
Proof. reflexivity. Qed.

Lemma assign_roles_cluster (pairs : list (string * string)) :
  assign_roles (map (fun p => node (fst p) (snd p)) pairs) = cluster_of (map fst pairs).
Proof.
  destruct pairs as [|[ip role] rest]; [reflexivity|].
  cbn [map assign_roles cluster_of fst snd]. rewrite node_set_role. f_equal.
  rewrite !map_map. now apply map_ext.
Qed.

Lemma existsb_eqb_In ip seen : existsb (String.eqb ip) seen = true <-> In ip seen.
Proof.
  rewrite existsb_exists. split.
  - intros (x & Hin & Heq). apply String.eqb_eq in Heq. now subst.
  - intros Hin. exists ip. split; [exact Hin | apply String.eqb_refl].
Qed.

(** What the first loop keeps: stripped, non-empty, distinct addresses
    that are not in [seen]. *)
Lemma filter_nodes_kept nodes : forall seen filtered,
  filter_nodes nodes seen = Ok filtered ->
  exists pairs,
    filtered = map (fun p => node (fst p) (snd p)) pairs
    /\ NoDup (map fst pairs)
    /\ Forall (fun p => fst p <> "" /\ strip (fst p) = fst p /\ ~ In (fst p) seen
                        /\ is_role (snd p)) pairs.
Proof.
  induction nodes as [|entry rest IH]; intros seen filtered.
  - cbn. intros H. inversion H. exists []. repeat split; constructor.
  - cbn [filter_nodes].
    destruct (let? ip := py_get_default entry "ip" (PStr "") in py_strip ip)
      as [ip|e] eqn:Hip; cbn [bind_result]; [|discriminate].
    assert (Hstripped : strip ip = ip).
    { destruct (py_get_default entry "ip" (PStr "")) as [v|]; [|discriminate].
      cbn [bind_result] in Hip. destruct v; try discriminate.
      cbn in Hip. inversion Hip. apply strip_idempotent. }
    destruct ((ip =? "") || existsb (String.eqb ip) seen) eqn:Hskip.
    + apply IH.
    + apply orb_false_iff in Hskip. destruct Hskip as [Hne Hseen].
      destruct (let? role := py_get_default entry "role" (PStr "worker") in
                let? role := py_strip role in Ok (lower role)) as [role|e];
        cbn [bind_result]; [|discriminate].
      destruct (filter_nodes rest (ip :: seen)) as [kept|e] eqn:Hrest;
        cbn [bind_result]; [|discriminate].
      intros H. inversion H; subst filtered.
      destruct (IH _ _ Hrest) as (pairs & -> & Hnd & Hall).
      set (role' := if existsb (String.eqb role) ["master"; "worker"]
                    then role else "worker").
      exists ((ip, role') :: pairs). split; [reflexivity|]. split.
      * cbn [map fst]. constructor; [|exact Hnd]. intros Hin.
        apply in_map_iff in Hin. destruct Hin as (p & Hp & Hin).
        rewrite Forall_forall in Hall. destruct (Hall p Hin) as (_ & _ & Hnot & _).
        apply Hnot. left. now symmetry.
      * constructor.
        -- cbn [fst snd]. split; [now apply String.eqb_neq|]. split; [exact Hstripped|].
           split.
           ++ intros Hin. apply existsb_eqb_In in Hin. congruence.
           ++ unfold role', is_role. cbn [existsb].
              destruct (String.eqb_spec role "master") as [->|_]; [now left|].
              destruct (String.eqb_spec role "worker") as [->|_]; now right.
        -- eapply Forall_impl; [|exact Hall]. intros p (H1 & H2 & H3 & H4).
           repeat split; auto. intros Hin. apply H3. now right.
Qed.

(** The first loop on nodes it has kept before keeps them all. *)
Lemma filter_nodes_fixed (pairs : list (string * string)) : forall seen,
  NoDup (map fst pairs) ->
  Forall (fun p => fst p <> "" /\ strip (fst p) = fst p /\ ~ In (fst p) seen
                   /\ is_role (snd p)) pairs ->
  filter_nodes (map (fun p => PDict (node (fst p) (snd p))) pairs) seen
  = Ok (map (fun p => node (fst p) (snd p)) pairs).
Proof.
  induction pairs as [|[ip role] rest IH]; intros seen Hnd Hall; [reflexivity|].
  inversion Hnd as [|? ? Hfresh Hnd']; subst.
  inversion Hall as [|? ? (Hne & Hstrip & Hseen & Hrole) Hall']; subst.
  cbn [fst snd] in *. cbn [map filter_nodes fst snd].
  cbn [node py_get_default dict_get String.eqb Ascii.eqb Bool.eqb bind_result py_strip].
  rewrite Hstrip.
  assert (Hnot : existsb (String.eqb ip) seen = false).
  { destruct (existsb (String.eqb ip) seen) eqn:H; [|reflexivity].
    apply existsb_eqb_In in H. contradiction. }
  apply String.eqb_neq in Hne. rewrite Hne, Hnot. cbn [orb].
  assert (Hkeep : (if existsb (String.eqb (lower (strip role))) ["master"; "worker"]
                   then lower (strip role) else "worker") = role).
  { destruct Hrole as [-> | ->]; reflexivity. }
  rewrite Hkeep. rewrite IH; [reflexivity | exact Hnd' |].
  rewrite Forall_forall in *. intros p Hp.
  destruct (Hall' p Hp) as (H1 & H2 & H3 & H4). repeat split; auto.
  intros [Heq|Hin]; [|contradiction].
  apply Hfresh. subst ip. now apply in_map.
Qed.

End Cluster.

(** X16.  The nodes [ensure_roles] returns are a cluster: their addresses
    are distinct, non-empty and without blanks around them, the first node
    is the master and every other node is a worker, whatever roles the
    nodes came with. *)
Theorem ensure_roles_cluster nodes out :
  cluster.ensure_roles nodes = Ok out ->
  exists ips,
    out = cluster_of ips
    /\ NoDup ips
    /\ Forall (fun ip => ip <> "" /\ strip ip = ip) ips.
Proof.
  unfold cluster.ensure_roles.
  destruct (cluster.filter_nodes nodes []) as [filtered|e] eqn:Hf;
    cbn [bind_result]; [|discriminate].
  intros H. inversion H; subst out.
  destruct (filter_nodes_kept _ _ _ Hf) as (pairs & -> & Hnd & Hall).
  exists (map fst pairs). split; [apply assign_roles_cluster|]. split; [exact Hnd|].
  rewrite Forall_map. eapply Forall_impl; [|exact Hall].
  intros p (H1 & H2 & _). now split.
Qed.

Lemma ensure_roles_cluster_witness :
  exists ips,
    [cluster.node "10.0.0.2" "master"; cluster.node "10.0.0.1" "worker"] = cluster_of ips
    /\ NoDup ips
    /\ Forall (fun ip => ip <> "" /\ strip ip = ip) ips.
Proof.
  exact (ensure_roles_cluster
           [PDict [("ip", PStr " 10.0.0.2 "); ("role", PStr "worker")];
            PDict [("ip", PStr "10.0.0.1"); ("role", PStr "Master")];
            PDict [("ip", PStr "10.0.0.2")]; PDict [("role", PStr "master")]]
           _ eq_refl).
Defined.

(** X17.  [ensure_roles] is idempotent: the nodes it returns are returned
    as they are when they are given to it again. *)
Theorem ensure_roles_idempotent nodes out :
  cluster.ensure_roles nodes = Ok out ->
  cluster.ensure_roles (map PDict out) = Ok out.
Proof.
  unfold cluster.ensure_roles at 1.
  destruct (cluster.filter_nodes nodes []) as [filtered|e] eqn:Hf;
    cbn [bind_result]; [|discriminate].
  intros H. inversion H; subst out.
  destruct (filter_nodes_kept _ _ _ Hf) as (pairs & -> & Hnd & Hall).
  rewrite assign_roles_cluster.
  set (roles := match pairs with
                | [] => []
                | p :: rest => (fst p, "master") :: map (fun q => (fst q, "worker")) rest
                end).
  assert (Hshape : cluster_of (map fst pairs)
                   = map (fun p => cluster.node (fst p) (snd p)) roles).
  { unfold roles. destruct pairs as [|p rest]; [reflexivity|].
    cbn [map cluster_of fst snd]. f_equal. now rewrite !map_map. }
  assert (Hfst : map fst roles = map fst pairs).
  { unfold roles. destruct pairs as [|p rest]; [reflexivity|].
    cbn [map fst]. f_equal. rewrite map_map. now apply map_ext. }
  assert (Hroles : Forall (fun p => fst p <> "" /\ strip (fst p) = fst p
                                    /\ ~ In (fst p) [] /\ is_role (snd p)) roles).
  { apply Forall_forall. intros q Hq.
    assert (Hin : In (fst q) (map fst pairs)) by (rewrite <- Hfst; now apply in_map).
    apply in_map_iff in Hin. destruct Hin as (p & Hp & Hin).
    rewrite Forall_forall in Hall. destruct (Hall p Hin) as (H1 & H2 & _).
    rewrite <- Hp. repeat split; auto.
    unfold roles in Hq. destruct pairs as [|p0 rest]; [contradiction|].
    destruct Hq as [<-|Hq]; [now left|].
    apply in_map_iff in Hq. destruct Hq as (x & <- & _). now right. }
  rewrite Hshape, map_map. unfold cluster.ensure_roles.
  rewrite (filter_nodes_fixed roles []); [|now rewrite Hfst | exact Hroles].
  cbn [bind_result]. f_equal. rewrite assign_roles_cluster, Hfst.
  exact Hshape.
Qed.

Lemma ensure_roles_idempotent_witness :
  cluster.ensure_roles
    (map PDict [cluster.node "10.0.0.2" "master"; cluster.node "10.0.0.1" "worker"])
  = Ok [cluster.node "10.0.0.2" "master"; cluster.node "10.0.0.1" "worker"].
Proof.
  exact (ensure_roles_idempotent
           [PDict [("ip", PStr " 10.0.0.2 "); ("role", PStr "worker")];
            PDict [("ip", PStr "10.0.0.1"); ("role", PStr "Master")];
            PDict [("ip", PStr "10.0.0.2")]]
           _ eq_refl).
Defined.

Section ClusterMore.

Import cluster.

Lemma filter_map_commute {A B} (f : A -> B) (g : B -> bool) l :
  filter g (map f l) = map f (filter (fun a => g (f a)) l).
Proof.
  induction l as [|a l IH]; [reflexivity|]. cbn [map filter].
  destruct (g (f a)); cbn [map]; now rewrite IH.
Qed.

Lemma filter_nodes_workers ips : forall seen,
  Forall (fun ip => ip <> "" /\ strip ip = ip) ips ->
  filter_nodes (map (fun ip => PDict (node ip "worker")) ips) seen
  = Ok (map (fun ip => node ip "worker") (first_occurrences ips seen)).
Proof.
  induction ips as [|ip rest IH]; intros seen Hall; [reflexivity|].
  inversion Hall as [|? ? [Hne Hstrip] Hall']; subst.
  cbn [map filter_nodes first_occurrences].
  cbn [node py_get_default dict_get String.eqb Ascii.eqb Bool.eqb bind_result py_strip].
  rewrite Hstrip. apply String.eqb_neq in Hne. rewrite Hne. cbn [orb].
  destruct (existsb (String.eqb ip) seen); [now apply IH|].
  rewrite (IH _ Hall'). reflexivity.
Qed.

Lemma parse_entries_nodes entries :
  Forall (fun n => exists ip role, n = PDict (node ip role)) (parse_entries entries).
Proof.
  induction entries as [|entry rest IH]; cbn [parse_entries]; [constructor|].
  destruct entry as [| | |text| |fields]; try exact IH.
  - destruct (strip text =? ""); [exact IH|]. constructor; [now eexists _, _ | exact IH].
  - destruct (strip _ =? ""); [exact IH|]. constructor; [now eexists _, _ | exact IH].
Qed.

Lemma filter_nodes_total nodes : forall seen,
  Forall (fun n => exists ip role, n = PDict (node ip role)) nodes ->
  exists out, filter_nodes nodes seen = Ok out.
Proof.
  induction nodes as [|n rest IH]; intros seen Hall; [now exists []|].
  inversion Hall as [|? ? (ip & role & ->) Hall']; subst.
  cbn [filter_nodes].
  cbn [node py_get_default dict_get String.eqb Ascii.eqb Bool.eqb bind_result py_strip].
  destruct ((strip ip =? "") || existsb (String.eqb (strip ip)) seen); [now apply IH|].
  destruct (IH (strip ip :: seen) Hall') as (out & ->). now eexists.
Qed.

End ClusterMore.

(** X18.  The cluster of a list of addresses is made of the addresses
    without the blanks around them, the empty ones left out, each at its
    first place: the first of them is the master, the others are
    workers. *)
Theorem cluster_from_ips_nodes ips :
  cluster.cluster_from_ips ips
  = Ok (cluster_of (first_occurrences
                      (filter (fun ip => negb (ip =? "")) (map strip ips)) [])).
Proof.
  unfold cluster.cluster_from_ips, cluster.ensure_roles.
  rewrite filter_map_commute.
  set (kept := filter (fun ip => negb (strip ip =? "")) ips).
  assert (Hnodes : map (fun ip => PDict (cluster.node (strip ip) "worker")) kept
                   = map (fun ip => PDict (cluster.node ip "worker")) (map strip kept)).
  { now rewrite map_map. }
  rewrite Hnodes, filter_nodes_workers.
  - cbn [bind_result]. f_equal.
    set (firsts := first_occurrences (map strip kept) []).
    transitivity (cluster.assign_roles
                    (map (fun p => cluster.node (fst p) (snd p))
                         (map (fun ip => (ip, "worker")) firsts))).
    + now rewrite map_map.
    + rewrite assign_roles_cluster, map_map. cbn [fst]. now rewrite map_id.
  - rewrite Forall_map. apply Forall_forall. intros ip Hin.
    apply filter_In in Hin. destruct Hin as [_ Hne].
    split; [|apply strip_idempotent].
    apply String.eqb_neq. now destruct (strip ip =? "").
Qed.

Example cluster_from_ips_example :
  cluster.cluster_from_ips [" 10.0.0.2"; ""; "10.0.0.1 "; "10.0.0.2"; "  "]
  = Ok [cluster.node "10.0.0.2" "master"; cluster.node "10.0.0.1" "worker"].
Proof. reflexivity. Qed.

(** X19.  The cluster file is read without an error whatever its entries
    are: a document that is no object gives no nodes, and a document whose
    [nodes] can be iterated gives a cluster, entries that are neither a
    string nor an object being left out.  Only a [nodes] entry that is
    [None], a boolean or a number fails. *)
Theorem parse_cluster_state_total data :
  match data with
  | PDict d =>
      match dict_get d "nodes" with
      | Some (PNone | PBool _ | PInt _) => exists e, cluster.parse_cluster_state data = Raise e
      | _ => exists out, cluster.parse_cluster_state data = Ok out
      end
  | _ => cluster.parse_cluster_state data = Ok []
  end.
Proof.
  assert (Htotal : forall entries,
            exists out, cluster.ensure_roles (cluster.parse_entries entries) = Ok out).
  { intros entries. unfold cluster.ensure_roles.
    destruct (filter_nodes_total _ [] (parse_entries_nodes entries)) as (out & ->).
    now eexists. }
  destruct data as [| | | | |d]; try reflexivity.
  unfold cluster.parse_cluster_state.
  destruct (dict_get d "nodes") as [[| | |s|items|keys]|]; cbn [py_iter bind_result];
    try (eexists; reflexivity); apply Htotal.
Qed.

Example parse_cluster_state_example :
  cluster.parse_cluster_state
    (PDict [("nodes", PList [PStr " 10.0.0.1 "; PInt 7;
                             PDict [("ip", PInt 10); ("role", PNone)];
                             PDict [("role", PStr "master")]])])
  = Ok [cluster.node "10.0.0.1" "master"; cluster.node "10" "worker"].
Proof. reflexivity. Qed.
